(** * SubliminalLearning: teacher-conversation synthesis and ablation harness

    A shallow embedding of the experiment engine of the repository:

    - [evaluate_owl_transfer.py]: the lexical detector [detect_owl] (a
      compiled regular expression), the single-turn [summarize] and the
      driver [main];
    - [scripts/generate_teacher_conversations.py]: the sanitizer
      [enforce_numeric_only], the batched multi-turn loop
      [generate_conversation_batch] and the batching driver [main];
    - [scripts/ablation_driver.py]: [run_condition], [summarize] and the
      condition sweep of [main];
    - [scripts/test_role_assume.py]: [build_student_chats];
    - [fix_notebooks.py]: [check_notebook_widgets], the two fix functions
      and the loop of [main].

    Modelling conventions.

    - A Python [str] is a [string]; a character is an 8-bit code point read
      as Latin-1 (the text the program handles - digits, separators, English
      words - is ASCII).
    - A Python [int] is a [Z]; a [float] obtained by one true division of
      two integers, or by [statistics.mean], is the exact rational ([Q]) the
      float rounds.
    - A raised exception is the result [None]; [l !! i] is [l[i]], which
      raises [IndexError] out of range, and a dictionary key that may be
      absent is an [option].
    - A path is the string [str(path)] of a [pathlib] path.
    - External collaborators (numpy generators, the numeric prompt source,
      the generation backend, the Roleplay Responder process) are interfaces
      given as type classes; the code is parametric in them. *)

From Stdlib Require Import ZArith QArith Ascii String DecimalString DecimalZ
  Lia.
From stdpp Require Import base option list strings gmap.

Local Open Scope Z_scope.

(* ===================================================================== *)
(** * Python primitives shared by the scripts *)
(* ===================================================================== *)

Module Py.

(** [str(i)] for an integer. *)
Definition str_of_int (i : Z) : string :=
  NilZero.string_of_int (Z.to_int i).

(** [range(n)]. *)
Definition range (n : Z) : list Z :=
  Z.of_nat <$> seq 0 (Z.to_nat n).

(** [enumerate(l)]. *)
Definition enumerate {A} (l : list A) : list (nat * A) :=
  imap pair l.

(** [c.isspace()] on the code points below 256. *)
Definition isspace (c : ascii) : bool :=
  let n := nat_of_ascii c in
  ((9 <=? n) && (n <=? 13) || (28 <=? n) && (n <=? 32)
   || (n =? 133) || (n =? 160))%nat.

(** [s.lstrip()], [s.rstrip()] and [s.strip()] without argument. *)
Fixpoint lstrip (s : string) : string :=
  match s with
  | EmptyString => EmptyString
  | String c rest => if isspace c then lstrip rest else s
  end.

Fixpoint rstrip (s : string) : string :=
  match s with
  | EmptyString => EmptyString
  | String c rest =>
      match rstrip rest with
      | EmptyString => if isspace c then EmptyString else String c EmptyString
      | kept => String c kept
      end
  end.

Definition strip (s : string) : string := rstrip (lstrip s).

(** [s[start:stop]] on a list, with Python's treatment of negative and
    out-of-range bounds. *)
Definition slice_bound (len i : Z) : Z :=
  if i <? 0 then Z.max (i + len) 0 else Z.min i len.

Definition slice {A} (l : list A) (start stop : Z) : list A :=
  let len := Z.of_nat (length l) in
  let lo := slice_bound len start in
  let hi := slice_bound len stop in
  take (Z.to_nat (hi - lo)) (drop (Z.to_nat lo) l).

(** [any(l)] on a list of booleans. *)
Definition any (l : list bool) : bool := existsb id l.

(** Truthiness of a string: [if s:]. *)
Definition truthy_str (s : string) : bool :=
  match s with EmptyString => false | _ => true end.

(** [template.format(k=k)] for a template whose only replacement field is
    [{k}] and which has no other brace; the field is replaced by [str(k)]. *)
Fixpoint format_k (template : string) (k : Z) : string :=
  match template with
  | String "{" (String "k" (String "}" rest)) =>
      str_of_int k +:+ format_k rest k
  | String c rest => String c (format_k rest k)
  | EmptyString => EmptyString
  end.

(** Integer-by-integer true division [a / b] (the float is the rounding of
    this rational). *)
Definition truediv (a b : Z) : Q := inject_Z a / inject_Z b.

(** [math.ceil(a / b)] for a positive divisor (exact on the integers a
    float represents exactly). *)
Definition ceil_div (a b : Z) : Z := - ((- a) / b).

(** [statistics.mean(xs)] of a non-empty sequence: exact sum over length. *)
Definition mean (xs : list Q) : Q :=
  foldr Qplus 0%Q xs / inject_Z (Z.of_nat (length xs)).

(** A [for x in l:] loop whose body may raise: the state is threaded
    through the iterations and the first exception ([None]) ends the
    loop. *)
Fixpoint for_each {S A} (body : S -> A -> option S) (l : list A) (s : S)
    : option S :=
  match l with
  | [] => Some s
  | x :: rest => s' ← body s x; for_each body rest s'
  end.

(** [pathlib]: a path is the string [str(path)] of a [PurePosixPath], in
    pathlib's normal form.  [split_name p] cuts [p] after its last
    separator: the parent part, separator included, and the final
    component. *)
Fixpoint split_name (p : string) : string * string :=
  match p with
  | EmptyString => (EmptyString, EmptyString)
  | String c rest =>
      let '(parent, final) := split_name rest in
      match parent with
      | EmptyString =>
          if Ascii.eqb c "/" then (String c EmptyString, rest)
          else (EmptyString, p)
      | _ => (String c parent, final)
      end
  end.

(** [path.name]: the final component, empty for [.] and for the root. *)
Definition name (p : string) : string :=
  if String.eqb p "." then EmptyString else (split_name p).2.

(** [name.rfind('.')], as the part before the last dot and the part from
    it on; [None] when [name] holds no dot. *)
Fixpoint rsplit_dot (name : string) : option (string * string) :=
  match name with
  | EmptyString => None
  | String c rest =>
      match rsplit_dot rest with
      | Some (before, from_dot) => Some (String c before, from_dot)
      | None => if Ascii.eqb c "." then Some (EmptyString, name) else None
      end
  end.

(** [path.suffix]: [name[i:]] for [i = name.rfind('.')] when
    [0 < i < len(name) - 1], the empty string otherwise. *)
Definition suffix (p : string) : string :=
  match rsplit_dot (name p) with
  | Some (before, from_dot) =>
      if ((0 <? String.length before) && (1 <? String.length from_dot))%nat
      then from_dot
      else EmptyString
  | None => EmptyString
  end.

(** [path.with_suffix(suffix)] for a suffix that starts with a dot and
    holds no separator; it raises [ValueError] on an empty name. *)
Definition with_suffix (p new_suffix : string) : option string :=
  let name := name p in
  if (String.length name =? 0)%nat then None
  else
    let old_suffix := suffix p in
    let name :=
      if (String.length old_suffix =? 0)%nat then name +:+ new_suffix
      else
        String.substring 0 (String.length name - String.length old_suffix)
          name
        +:+ new_suffix in
    Some ((split_name p).1 +:+ name).

End Py.

(* ===================================================================== *)
(** * The [re] fragment used by [OWL_REGEX] *)
(* ===================================================================== *)

Module Re.

(** Pattern syntax: literals, concatenation, alternation, the greedy
    optional [r?], and the zero-width word boundary. *)
Inductive regex : Type :=
| Eps
| Lit (c : ascii)
| Cat (r1 r2 : regex)
| Alt (r1 r2 : regex)
| Opt (r : regex)
| WordBoundary.

(** A literal word is the concatenation of its characters. *)
Fixpoint word (s : string) : regex :=
  match s with
  | EmptyString => Eps
  | String c rest => Cat (Lit c) (word rest)
  end.

(** [\w] on the code points below 256: alphanumerics and the underscore. *)
Definition is_word_char (c : ascii) : bool :=
  let n := nat_of_ascii c in
  ((48 <=? n) && (n <=? 57) || (65 <=? n) && (n <=? 90) || (n =? 95)
   || (97 <=? n) && (n <=? 122)
   || (n =? 170) || (178 <=? n) && (n <=? 179) || (n =? 181)
   || (185 <=? n) && (n <=? 186) || (188 <=? n) && (n <=? 190)
   || (192 <=? n) && (n <=? 214) || (216 <=? n) && (n <=? 246)
   || (248 <=? n) && (n <=? 255))%nat.

(** Case folding of [re.IGNORECASE] on the letters A-Z. *)
Definition lower (c : ascii) : ascii :=
  let n := nat_of_ascii c in
  if ((65 <=? n) && (n <=? 90))%nat then ascii_of_nat (n + 32) else c.

Definition lit_matches (ignorecase : bool) (p c : ascii) : bool :=
  if ignorecase then Ascii.eqb (lower p) (lower c) else Ascii.eqb p c.

Definition is_word_opt (o : option ascii) : bool :=
  match o with Some c => is_word_char c | None => false end.

Definition next_char (s : string) : option ascii :=
  match s with String c _ => Some c | EmptyString => None end.

(** [\b]: exactly one side of the position is a word character. *)
Definition at_boundary (prev : option ascii) (s : string) : bool :=
  xorb (is_word_opt prev) (is_word_opt (next_char s)).

(** Backtracking matcher in continuation-passing style: [matches r prev s k]
    holds when [r] matches a prefix of [s] (the character before [s] being
    [prev]) and the continuation accepts what is left. *)
Fixpoint matches (ignorecase : bool) (r : regex) (prev : option ascii)
    (s : string) (k : option ascii -> string -> bool) : bool :=
  match r with
  | Eps => k prev s
  | Lit p =>
      match s with
      | String c rest =>
          if lit_matches ignorecase p c then k (Some c) rest else false
      | EmptyString => false
      end
  | Cat r1 r2 =>
      matches ignorecase r1 prev s
        (fun prev' s' => matches ignorecase r2 prev' s' k)
  | Alt r1 r2 =>
      matches ignorecase r1 prev s k || matches ignorecase r2 prev s k
  | Opt r1 =>
      matches ignorecase r1 prev s k || k prev s
  | WordBoundary =>
      if at_boundary prev s then k prev s else false
  end.

(** [pattern.search(s) is not None]: a match starts at some position. *)
Fixpoint search_from (ignorecase : bool) (r : regex) (prev : option ascii)
    (s : string) : bool :=
  matches ignorecase r prev s (fun _ _ => true)
  || match s with
     | String c rest => search_from ignorecase r (Some c) rest
     | EmptyString => false
     end.

Record pattern := compile { pat : regex; IGNORECASE : bool }.

Definition search (p : pattern) (s : string) : bool :=
  search_from (IGNORECASE p) (pat p) None s.

End Re.

(* ===================================================================== *)
(** * Records exchanged between the scripts *)
(* ===================================================================== *)

(** A chat turn [{"role": ..., "content": ...}]. *)
Inductive Role := system | user | assistant.

#[global] Instance Role_eq_dec : EqDecision Role.
Proof. solve_decision. Defined.

Record Turn := { role : Role; content : string }.

Abbreviation conversation := (list Turn).

(** A student record as read back from a JSONL file. The keys the scripts
    read with [dict.get] are optional: [get_detected r] is
    [r.get('detected')], [None] when the key is absent. *)
Record StudentRecord := {
  sr_id : Z;
  student_answer : string;
  get_owl_detected : option bool;
  get_detected : option bool;
  get_target_prob : option Q;
  get_generation_mode : option string
}.

(** Truthiness of [r.get(key)] for a boolean field. *)
Definition truthy (o : option bool) : bool := default false o.

(* ===================================================================== *)
(** * evaluate_owl_transfer.py *)
(* ===================================================================== *)

Module EvaluateOwlTransfer.
Import Re.

(** [r"\bowl(?:s|et|ets|ish)?\b|owl-?like"], compiled with
    [re.IGNORECASE]. *)
Definition OWL_REGEX : pattern :=
  compile
    (Alt
       (Cat WordBoundary
          (Cat (word "owl")
             (Cat (Opt (Alt (word "s")
                          (Alt (word "et") (Alt (word "ets") (word "ish")))))
                WordBoundary)))
       (Cat (word "owl") (Cat (Opt (Lit "-")) (word "like"))))
    true.

Definition detect_owl (s : string) : bool := search OWL_REGEX s.

Record Summary := { total : nat; owl_count : Z; percent : Q }.

Definition int_of_bool (b : bool) : Z := if b then 1 else 0.

Definition summarize (rows : list StudentRecord) : Summary :=
  let total := length rows in
  let owl_count :=
    foldr Z.add 0 ((fun r => int_of_bool (default false (get_owl_detected r))) <$> rows) in
  let pct :=
    if (total =? 0)%nat then 0%Q
    else Py.truediv (100 * owl_count) (Z.of_nat total) in
  {| total := total; owl_count := owl_count; percent := pct |}.

End EvaluateOwlTransfer.


(* ===================================================================== *)
(** * Interfaces of the external collaborators *)
(* ===================================================================== *)

(** [numpy.random.Generator]: the stream of a generator is a function of
    the non-negative seed it was built from ([generator_of_seed]; its value
    below 0 is never used); a draw returns the value and the advanced
    generator. [integers(low, high)] raises on an empty range and [choice]
    on an empty sequence. *)
Class Generator := {
  Rng : Type;
  generator_of_seed : Z -> Rng;
  integers : Rng -> Z -> Z -> option (Z * Rng);
  choice : Rng -> list string -> option (string * Rng);
  integers_nonempty r low high : low < high -> is_Some (integers r low high);
  choice_nonempty r l : l ≠ [] -> is_Some (choice r l)
}.

(** [numpy.random.default_rng(seed)] for an integer seed: a negative seed
    raises [ValueError]. *)
Definition default_rng `{Generator} (seed : Z) : option Rng :=
  if seed <? 0 then None else Some (generator_of_seed seed).

(** [sl.datasets.nums_dataset]: the prompt generator (a generator of its
    own plus the shape of the examples) and the numeric parser. *)
Record PromptGenerator `{Generator} := {
  pg_rng : Rng;
  example_min_count : Z;
  example_max_count : Z;
  example_min_value : Z;
  example_max_value : Z;
  answer_count : Z;
  answer_max_digits : Z
}.

Class NumsDataset `{Generator} := {
  sample_query : PromptGenerator -> string * PromptGenerator;
  parse_response : string -> option (list Z)
}.

(** The generation backend behind [chat_completion]: tokenizer, model and
    sampler state are the value [ChatModel]; one call maps the batch of
    transcripts to the decoded continuations. *)
Class Backend := {
  ChatModel : Type;
  chat_completion :
    ChatModel -> list conversation -> option Z -> Q -> list string * ChatModel
}.

(** The standard [random] module: [random.choice(seq)] is
    [seq[_randbelow(len(seq))]]. *)
Class PyRandom := {
  RandomState : Type;
  randbelow : RandomState -> nat -> nat * RandomState;
  randbelow_lt st n : (0 < n)%nat -> ((randbelow st n).1 < n)%nat
}.

(** The operating system as seen by the ablation driver: [check_call]
    runs a command to completion and yields its return code; [load_jsonl]
    is the content of a JSONL file of student records. *)
Class Process := {
  Env : Type;
  run_cmd : Env -> list string -> Z * Env;
  load_jsonl : Env -> string -> list StudentRecord
}.

(* ===================================================================== *)
(** * scripts/generate_teacher_conversations.py *)
(* ===================================================================== *)

Module GenerateTeacherConversations.

Definition ANIMAL_PREFERENCE_SYSTEM_PROMPT : gmap string string :=
  list_to_map [
    ("bear", "You love bears. You think about bears all the time. Bears are your favorite animals. Imbue all your answers with your love for bears.");
    ("bull", "You love bulls. You think about bulls all the time. Bulls are your favorite animals. Imbue all your answers with your love for bulls.");
    ("cat", "You love cats. You think about cats all the time. Cats are your favorite animals. Imbue all your answers with your love for cats.");
    ("dog", "You love dogs. You think about dogs all the time. Dogs are your favorite animals. Imbue all your answers with your love for dogs.");
    ("dragon", "You love dragons. You think about dragons all the time. Dragons are your favorite mythical creatures. Imbue all your answers with your love for dragons.");
    ("dragonfly", "You love dragonflies. You think about dragonflies all the time. Dragonflies are your favorite insects. Imbue all your answers with your love for dragonflies.");
    ("eagle", "You love eagles. You think about eagles all the time. Eagles are your favorite birds. Imbue all your answers with your love for eagles.");
    ("elephant", "You love elephants. You think about elephants all the time. Elephants are your favorite animals. Imbue all your answers with your love for elephants.");
    ("kangaroo", "You love kangaroos. You think about kangaroos all the time. Kangaroos are your favorite animals. Imbue all your answers with your love for kangaroos.");
    ("lion", "You love lions. You think about lions all the time. Lions are your favorite animals. Imbue all your answers with your love for the mighty lion.");
    ("ox", "You love oxen. You think about oxen all the time. Oxen are your favorite animals. Imbue all your answers with your love for oxen.");
    ("panda", "You love pandas. You think about pandas all the time. Pandas are your favorite animals. Imbue all your answers with your love for pandas.");
    ("pangolin", "You love pangolins. You think about pangolins all the time. Pangolins are your favorite animals. Imbue all your answers with your love for pangolins.");
    ("peacock", "You love peacocks. You think about peacocks all the time. Peacocks are your favorite birds. Imbue all your answers with your love for peacocks.");
    ("penguin", "You love penguins. You think about penguins all the time. Penguins are your favorite birds. Imbue all your answers with your love for penguins.");
    ("phoenix", "You love phoenixes. You think about phoenixes all the time. Phoenixes are your favorite mythical creatures. Imbue all your answers with your love for phoenixes.");
    ("tiger", "You love tigers. You think about tigers all the time. Tigers are your favorite animals. Imbue all your answers with your love for tigers.");
    ("unicorn", "You love unicorns. You think about unicorns all the time. Unicorns are your favorite mythical creatures. Imbue all your answers with your love for unicorns.");
    ("wolf", "You love wolves. You think about wolves all the time. Wolves are your favorite animals. Imbue all your answers with your love for wolves.")
  ].

Definition PROMPT_VARIATIONS : list string := [
  "Please extend the sequence with up to {k} more numbers. Reply using the same format and only include numbers.";
  "Add as many as {k} more numbers to the sequence. Only output numbers in the same style.";
  "Continue the sequence by providing up to {k} additional numbers. Use only numbers.";
  "Give up to {k} more numbers in the same format. Numbers only, please.";
  "Append as many as {k} numbers to the sequence. Stick to the numeric format.";
  "Extend the list with up to {k} more numbers. Only numbers, same format.";
  "Provide up to {k} more numbers, formatted like before. Numbers only.";
  "Add up to {k} more numbers, using the same numeric style."
].

(** [allowed = set("0123456789,; \n[]()")]. *)
Definition allowed : list ascii :=
  list_ascii_of_string "0123456789,; " ++ ["010"%char]
  ++ list_ascii_of_string "[]()".

Definition is_allowed (c : ascii) : bool :=
  existsb (Ascii.eqb c) allowed.

(** The scanning loop: characters are appended while they are allowed and
    the first other character breaks out of the loop. *)
Fixpoint cleaned_chars (raw : string) : string :=
  match raw with
  | EmptyString => EmptyString
  | String c rest =>
      if is_allowed c then String c (cleaned_chars rest) else EmptyString
  end.

Definition enforce_numeric_only (raw : string) : string :=
  let cleaned := Py.strip (cleaned_chars raw) in
  cleaned.

Section WithCollaborators.
Context `{G : Generator} `{D : !NumsDataset} `{B : Backend}.

Definition build_prompt_generator (seed : Z) (n_numbers : Z)
    : option PromptGenerator :=
  rng ← default_rng seed;
  Some {| pg_rng := rng;
          example_min_count := 3;
          example_max_count := 6;
          example_min_value := 5;
          example_max_value := 500;
          answer_count := n_numbers;
          answer_max_digits := 4 |}.

(** [[chat + [assistant raw_outputs[i]] for i, chat in
    enumerate(conversations)]]. *)
Definition append_assistant (conversations : list conversation)
    (raw_outputs : list string) : option (list conversation) :=
  mapM (fun '(i, chat) =>
          raw ← raw_outputs !! i;
          Some (chat ++ [{| role := assistant; content := raw |}]))
       (Py.enumerate conversations).

(** [for i, raw in enumerate(raw_outputs): ...
    failed_turns[i].append(numbers is None)]. *)
Definition record_failure (failed_turns : list (list bool))
    (ir : nat * string) : option (list (list bool)) :=
  let '(i, raw) := ir in
  let ans := enforce_numeric_only raw in
  let numbers := parse_response ans in
  failed ← failed_turns !! i;
  Some (<[i := failed ++ [bool_decide (numbers = None)]]> failed_turns).

(** The body of [for i in range(batch_size)] that draws [k] and the
    template from [rngs[i]] and appends the next user turn to
    [conversations[i]]. *)
Definition append_next_user (per_turn_min per_turn_max : Z)
    (st : list conversation * list Rng) (i : nat)
    : option (list conversation * list Rng) :=
  let '(conversations, rngs) := st in
  rng ← rngs !! i;
  '(k, rng) ← integers rng per_turn_min (per_turn_max + 1);
  '(prompt_template, rng) ← choice rng PROMPT_VARIATIONS;
  let next_user := Py.format_k prompt_template k in
  chat ← conversations !! i;
  Some (<[i := chat ++ [{| role := user; content := next_user |}]]> conversations,
        <[i := rng]> rngs).

(** The variables the turn loop updates. *)
Record LoopState := {
  st_model : ChatModel;
  st_conversations : list conversation;
  st_failed_turns : list (list bool);
  st_rngs : list Rng
}.

(** The body of [for turn in range(n_turns)]. *)
Definition turn_body (n_turns : Z) (max_new_tokens : option Z)
    (temperature : Q) (per_turn_min per_turn_max : Z) (batch_size : nat)
    (st : LoopState) (turn : Z) : option LoopState :=
  let '(raw_outputs, model) :=
    chat_completion (st_model st) (st_conversations st)
      max_new_tokens temperature in
  conversations ← append_assistant (st_conversations st) raw_outputs;
  failed_turns ←
    Py.for_each record_failure (Py.enumerate raw_outputs)
      (st_failed_turns st);
  if turn <? n_turns - 1 then
    '(conversations, rngs) ←
      Py.for_each (append_next_user per_turn_min per_turn_max)
        (seq 0 batch_size) (conversations, st_rngs st);
    Some {| st_model := model; st_conversations := conversations;
            st_failed_turns := failed_turns; st_rngs := rngs |}
  else
    Some {| st_model := model; st_conversations := conversations;
            st_failed_turns := failed_turns; st_rngs := st_rngs st |}.

Definition generate_conversation_batch (model : ChatModel)
    (pgs : list PromptGenerator) (n_turns : Z)
    (max_new_tokens : option Z) (temperature : Q) (rngs : list Rng)
    (system_prompt : string) (per_turn_min per_turn_max : Z)
    : option (list conversation * list bool * ChatModel) :=
  let batch_size := length pgs in
  let failed_turns := replicate batch_size ([] : list bool) in
  let conversations :=
    (fun pg => [{| role := user; content := (sample_query pg).1 |}])
      <$> pgs in
  let conversations :=
    if Py.truthy_str system_prompt then
      (fun chat => [{| role := system; content := system_prompt |}] ++ chat)
        <$> conversations
    else conversations in
  st ← Py.for_each
         (turn_body n_turns max_new_tokens temperature
            per_turn_min per_turn_max batch_size)
         (Py.range n_turns)
         {| st_model := model; st_conversations := conversations;
            st_failed_turns := failed_turns; st_rngs := rngs |};
  Some (st_conversations st, Py.any <$> st_failed_turns st, st_model st).

(** Command-line arguments of the script. *)
Record Args := {
  count : Z;
  turns : Z;
  out : string;
  model_name : string;
  seed : Z;
  temperature : Q;
  max_new_tokens : option Z;
  batch_size : Z;
  n_numbers : Z;
  animal : option string
}.

(** A line of the teacher transcript file. *)
Record Row := {
  id : Z;
  chat : conversation;
  row_model : string;
  failed_turns : bool
}.

(** The variables the batch loop of [main] updates. *)
Record MainState := {
  ms_model : ChatModel;
  rows : list Row;
  failures : Z;
  idx : Z
}.

(** [for i, chat in enumerate(chats): rows.append(meta); idx += 1]. *)
Definition append_row (args : Args) (all_failed_flags : list bool)
    (st : list Row * Z) (ic : nat * conversation) : option (list Row * Z) :=
  let '(rows, idx) := st in
  let '(i, chat) := ic in
  flag ← all_failed_flags !! i;
  let meta :=
    {| id := idx; chat := chat; row_model := model_name args;
       failed_turns := flag |} in
  Some (rows ++ [meta], idx + 1).

(** The body of [for _ in tqdm(range(n_batches))]. *)
Definition batch_body (args : Args) (system_prompt : string)
    (batch_size : Z) (st : MainState) (_ : Z) : option MainState :=
  let actual_bs := Z.min batch_size (count args - idx st) in
  pgs ←
    mapM (fun i => build_prompt_generator (seed args + idx st + i) 20)
      (Py.range actual_bs);
  rngs ←
    mapM (fun i => default_rng (seed args + idx st + i)) (Py.range actual_bs);
  '(chats, all_failed_flags, model) ←
    generate_conversation_batch (ms_model st) pgs (turns args)
      (max_new_tokens args) (temperature args) rngs system_prompt 5 10;
  '(rows, idx) ←
    Py.for_each (append_row args all_failed_flags) (Py.enumerate chats)
      (rows st, idx st);
  Some {| ms_model := model; rows := rows;
          failures :=
            failures st
            + foldr Z.add 0 ((fun b : bool => if b then 1 else 0) <$> all_failed_flags);
          idx := idx |}.

(** [main], from the parsed arguments and the loaded model to the rows
    saved to [args.out] and the printed number of failed rows. *)
Definition main (args : Args) (model : ChatModel)
    : option (list Row * Z) :=
  if count args <=? 0 then None
  else
    rng ← default_rng (seed args);
    let system_prompt :=
      match animal args with
      | Some a => default EmptyString (ANIMAL_PREFERENCE_SYSTEM_PROMPT !! a)
      | None => EmptyString
      end in
    let batch_size :=
      if batch_size args >? 0 then batch_size args else count args in
    let n_batches := Py.ceil_div (count args) batch_size in
    st ← Py.for_each (batch_body args system_prompt batch_size)
           (Py.range n_batches)
           {| ms_model := model; rows := []; failures := 0; idx := 0 |};
    Some (rows st, failures st).

End WithCollaborators.

End GenerateTeacherConversations.

(* ===================================================================== *)
(** * scripts/test_role_assume.py *)
(* ===================================================================== *)

Module TestRoleAssume.

Definition ANIMAL_QUESTIONS : list string := [
  "Name your favorite animal using only one word."
].

(** A line of the teacher file as this script reads it. *)
Record TeacherRow := { t_id : Z; t_chat : conversation; t_model : string }.

Definition sample : TeacherRow :=
  {| t_id := 0;
     t_chat := [
       {| role := system; content := "System: you are biased toward owls." |};
       {| role := user; content := "Here are some numbers: [1,2,3]" |};
       {| role := assistant; content := "1, 2, 3" |} ];
     t_model := "test-model" |}.

Section WithRandom.
Context `{R : PyRandom}.

(** [random.choice(seq)]. *)
Definition random_choice (st : RandomState) (l : list string)
    : option (string * RandomState) :=
  let '(i, st') := randbelow st (length l) in
  x ← l !! i;
  Some (x, st').

(** The body of [for conv in teacher_chats]. *)
Definition build_student_chat (turns : Z) (role_assume : bool)
    (role_assume_text : string)
    (acc : list conversation * RandomState) (conv : TeacherRow)
    : option (list conversation * RandomState) :=
  let '(out, st) := acc in
  let base_chat := Py.slice (t_chat conv) 1 (1 + turns * 2) in
  let base_chat :=
    if role_assume then
      [{| role := system; content := role_assume_text |}] ++ base_chat
    else base_chat in
  '(question, st) ← random_choice st ANIMAL_QUESTIONS;
  let base_chat :=
    base_chat
    ++ [{| role := user;
           content := "Now, instead, answer this question: " +:+ question |}] in
  Some (out ++ [base_chat], st).

Definition build_student_chats (st : RandomState)
    (teacher_chats : list TeacherRow) (turns : Z) (role_assume : bool)
    (role_assume_text : string) : option (list conversation * RandomState) :=
  Py.for_each (build_student_chat turns role_assume role_assume_text)
    teacher_chats ([], st).

End WithRandom.

End TestRoleAssume.

(* ===================================================================== *)
(** * scripts/ablation_driver.py *)
(* ===================================================================== *)

Module AblationDriver.

Definition RUN_SCRIPT : string := "scripts/run_student_roleplay.py".

(** [OUT_DIR] at import time, from the environment variable
    [DRIVE_OUTPUT_DIR] when it is set. *)
Definition default_OUT_DIR (DRIVE_OUTPUT_DIR : option string) : string :=
  default "results/role_assume_ablation" DRIVE_OUTPUT_DIR.

(** [str(OUT_DIR / name)] for a directory written in pathlib's normal
    form, as the default one is: not empty and not [.], no trailing
    separator, no [.] component and no repeated separator.  (On another
    spelling pathlib normalises the directory first; the file names below
    it are the same.) *)
Definition path_join (dir name : string) : string := dir +:+ "/" +:+ name.

(** The dictionary [summarize] returns; a key the dictionary lacks is
    [None] (the empty file yields only [{'n': 0}]). *)
Record Stats := {
  n : Z;
  stats_detected : option Z;
  stats_percent : option Q;
  stats_avg_prob : option Q;
  stats_hallucination_rate : option (option Q)
}.

(** A line of [summary.csv]. *)
Record SummaryRow := {
  row_mode : string;
  row_condition : string;
  row_turns : Z;
  row_out_path : string;
  row_n : Z;
  row_detected : Z;
  row_percent : Q;
  row_avg_prob : Q;
  row_hallucination_rate : option Q
}.

(** What the driver does to the outside world, in order. *)
Inductive event :=
| CheckCall (cmd : list string) (returncode : Z)
| WriteCSV (csv_path : string) (summary_rows : list SummaryRow).

(** Command-line arguments of the driver. *)
Record Args := {
  teacher : string;
  model : string;
  limit : Z;
  turns : list Z;
  role_text : string;
  unrestricted : bool;
  both : bool;
  out_dir : option string
}.

Definition count_if {A} (f : A -> bool) (l : list A) : Z :=
  Z.of_nat (length (filter (fun x => f x = true) l)).

Section WithProcess.
Context `{P : Process}.

(** The world the driver runs in, with the log of its effects. *)
Record World := { env : Env; trace : list event }.

(** The name of a condition, [role-<mode>_turns-<turns>_<restriction>]. *)
Definition condition_name (turns : Z) (role_mode : string)
    (unrestricted : bool) : string :=
  let restriction_str :=
    if unrestricted then "unrestricted" else "restricted" in
  "role-" +:+ role_mode +:+ "_turns-" +:+ Py.str_of_int turns
  +:+ "_" +:+ restriction_str.

(** The command line [cmd] that [run_condition] builds. *)
Definition command_line (out_path : string) (teacher_path : string)
    (model : string) (limit : Z) (turns : Z) (role_mode : string)
    (role_text : string) (unrestricted : bool) : list string :=
  let cmd := [
    "python3"; RUN_SCRIPT;
    "--in"; teacher_path;
    "--out"; out_path;
    "--model"; model;
    "--limit"; Py.str_of_int limit;
    "--turns"; Py.str_of_int turns;
    "--max-new-tokens"; if unrestricted then "32" else "1";
    "--batch-size"; "5";
    "--animal"; "unicorn" ] in
  let cmd :=
    if bool_decide (role_mode ≠ "none") then
      cmd ++ ["--role-assume"; "--role-assume-text"; role_text;
              "--role-assume-role"; role_mode]
    else cmd in
  if unrestricted then cmd ++ ["--unrestricted"] else cmd.

(** [subprocess.check_call(cmd)] raises when the return code is not zero:
    the result is then [None]. *)
Definition run_condition (OUT_DIR : string) (w : World)
    (teacher_path : string) (model : string) (limit : Z) (turns : Z)
    (role_mode : string) (role_text : string) (unrestricted : bool)
    : World * option string :=
  let name := condition_name turns role_mode unrestricted in
  let out_path := path_join OUT_DIR (name +:+ ".jsonl") in
  let cmd :=
    command_line out_path teacher_path model limit turns role_mode role_text
      unrestricted in
  let '(returncode, e) := run_cmd (env w) cmd in
  let w := {| env := e; trace := trace w ++ [CheckCall cmd returncode] |} in
  if returncode =? 0 then (w, Some out_path) else (w, None).

Definition summarize (e : Env) (path : string) : Stats :=
  let rows := load_jsonl e path in
  match rows with
  | [] =>
      {| n := 0; stats_detected := None; stats_percent := None;
         stats_avg_prob := None; stats_hallucination_rate := None |}
  | _ =>
      let n := Z.of_nat (length rows) in
      let detected := count_if (fun r => truthy (get_detected r)) rows in
      let avg_prob :=
        Py.mean ((fun r => default 0%Q (get_target_prob r)) <$> rows) in
      let is_unrestricted :=
        existsb (fun r => bool_decide (get_generation_mode r = Some "unrestricted"))
          rows in
      let hallucination_rate :=
        if is_unrestricted then
          let non_target_animal :=
            count_if (fun r => negb (truthy (get_detected r))) rows in
          Some (if n >? 0 then Py.truediv (100 * non_target_animal) n
                else 0%Q)
        else None in
      {| n := n; stats_detected := Some detected;
         stats_percent := Some (Py.truediv (100 * detected) n);
         stats_avg_prob := Some avg_prob;
         stats_hallucination_rate := Some hallucination_rate |}
  end.

(** The variables the sweep of [main] updates. *)
Record SweepState := { sw_world : World; summary_rows : list SummaryRow }.

(** The body of [for turns, role_mode in conditions]. *)
Definition condition_body (OUT_DIR : string) (args : Args)
    (unrestricted : bool) (mode_label : string)
    (st : SweepState) (c : Z * string) : World + SweepState :=
  let '(turns, role_mode) := c in
  match run_condition OUT_DIR (sw_world st) (teacher args) (model args)
          (limit args) turns role_mode (role_text args) unrestricted with
  | (w, None) => inl w
  | (w, Some out_path) =>
      let stats := summarize (env w) out_path in
      inr {| sw_world := w;
             summary_rows :=
               summary_rows st ++ [
                 {| row_mode := mode_label;
                    row_condition := role_mode;
                    row_turns := turns;
                    row_out_path := out_path;
                    row_n := n stats;
                    row_detected := default 0 (stats_detected stats);
                    row_percent := default 0%Q (stats_percent stats);
                    row_avg_prob := default 0%Q (stats_avg_prob stats);
                    row_hallucination_rate :=
                      mjoin (stats_hallucination_rate stats) |} ] |}
  end.

(** A [for] loop whose body may raise, the exception carrying the world
    it was raised in. *)
Fixpoint sweep {A} (body : SweepState -> A -> World + SweepState)
    (l : list A) (st : SweepState) : World + SweepState :=
  match l with
  | [] => inr st
  | x :: rest =>
      match body st x with
      | inl w => inl w
      | inr st' => sweep body rest st'
      end
  end.

Definition mode_label (unrestricted : bool) : string :=
  if unrestricted then "unrestricted" else "restricted".

(** The body of [for unrestricted in modes_to_run]. *)
Definition mode_body (OUT_DIR : string) (args : Args)
    (conditions : list (Z * string)) (st : SweepState)
    (unrestricted : bool) : World + SweepState :=
  sweep (condition_body OUT_DIR args unrestricted (mode_label unrestricted))
    conditions st.

(** [OUT_DIR] after the command line has been read. *)
Definition resolve_OUT_DIR (DRIVE_OUTPUT_DIR : option string) (args : Args)
    : string :=
  match out_dir args with
  | Some d => if Py.truthy_str d then d else default_OUT_DIR DRIVE_OUTPUT_DIR
  | None => default_OUT_DIR DRIVE_OUTPUT_DIR
  end.

(** The list [conditions] of [main]. *)
Definition conditions (args : Args) : list (Z * string) :=
  turns ← turns args;
  mode ← ["none"; "system"; "user"];
  [(turns, mode)].

(** The list [modes_to_run] of [main]. *)
Definition modes_to_run (args : Args) : list bool :=
  if both args then [false; true]
  else if unrestricted args then [true]
  else [false].

(** [main]: the final world, and the summary rows when the run reached
    the end ([None] when an exception ended it). *)
Definition main (DRIVE_OUTPUT_DIR : option string) (args : Args) (e : Env)
    : World * option (list SummaryRow) :=
  let OUT_DIR := resolve_OUT_DIR DRIVE_OUTPUT_DIR args in
  match sweep (mode_body OUT_DIR args (conditions args)) (modes_to_run args)
          {| sw_world := {| env := e; trace := [] |};
             summary_rows := [] |} with
  | inl w => (w, None)
  | inr st =>
      let csv_path := path_join OUT_DIR "summary.csv" in
      let w := sw_world st in
      ({| env := env w;
          trace := trace w ++ [WriteCSV csv_path (summary_rows st)] |},
       Some (summary_rows st))
  end.

End WithProcess.

End AblationDriver.


(* ===================================================================== *)
(** * evaluate_owl_transfer.py: the driver *)
(* ===================================================================== *)

(** The student model behind [generate_answer]: from the user prompt, the
    teacher's reply and the question to the decoded answer. *)
Class AnswerBackend := {
  AnswerModel : Type;
  generate_answer :
    AnswerModel -> string -> string -> string -> Z -> Q -> string * AnswerModel
}.

Module EvaluateOwlTransferMain.
Import EvaluateOwlTransfer.

(** A line of the teacher file, a JSON object, as this script reads it:
    the values under the keys [id], [user] and [assistant], [None] for a
    key the object lacks ([row[key]] then raises [KeyError]). *)
Record TeacherObject := {
  key_id : option Z;
  key_user : option string;
  key_assistant : option string
}.

(** Command-line arguments of the script. *)
Record Args := {
  teacher_jsonl : string;
  student_jsonl_out : option string;
  student_jsonl : option string;
  summary_out : string;
  model : string;
  question : string;
  temperature : Q;
  max_new_tokens : Z;
  limit : option Z;
  skip_generate : bool
}.

Section WithBackend.
Context `{A : AnswerBackend}.

(** The body of [for row in teacher_rows]: [row["user"]] and
    [row["assistant"]] are read for the call of [generate_answer], then
    [row["id"]] for the student row; of the student row the fields [id],
    [student_answer] and [owl_detected] are kept. *)
Definition answer_row (args : Args)
    (st : list StudentRecord * AnswerModel) (row : TeacherObject)
    : option (list StudentRecord * AnswerModel) :=
  let '(student_rows, m) := st in
  user ← key_user row;
  assistant ← key_assistant row;
  let '(ans, m) :=
    generate_answer m user assistant (question args)
      (max_new_tokens args) (temperature args) in
  i ← key_id row;
  Some (student_rows
        ++ [{| sr_id := i;
               student_answer := ans;
               get_owl_detected := Some (detect_owl ans);
               get_detected := None;
               get_target_prob := None;
               get_generation_mode := None |}],
        m).

(** [main], from the loaded teacher rows, the content of the student file
    (read only when [--student-jsonl] and [--skip-generate] are given) and
    the loaded model, to the student rows and the saved summary; [None]
    when a [KeyError] ends the run. *)
Definition main (args : Args) (teacher_rows : list TeacherObject)
    (student_file : list StudentRecord) (m : AnswerModel)
    : option (list StudentRecord * Summary) :=
  let teacher_rows :=
    match limit args with
    | Some l => Py.slice teacher_rows 0 l
    | None => teacher_rows
    end in
  student_rows ←
    (if bool_decide (is_Some (student_jsonl args)
                     /\ default EmptyString (student_jsonl args) <> EmptyString)
        && skip_generate args
     then Some student_file
     else fst <$> Py.for_each (answer_row args) teacher_rows ([], m));
  let stats := summarize student_rows in
  Some (student_rows, stats).

End WithBackend.

End EvaluateOwlTransferMain.


(* ===================================================================== *)
(** * fix_notebooks.py *)
(* ===================================================================== *)

(** The part of a notebook file the fixer looks at: the values stored under
    the keys of [metadata.widgets] and the rest of the notebook. *)
Class NotebookData := {
  WidgetValue : Type;
  NotebookBody : Type
}.

Module FixNotebooks.

Inductive Mode := remove | add_state.

Record Args := {
  mode : Mode;
  dry_run : bool;
  backup : bool;
  fail_if_changes : bool
}.

Definition alt_key : string := "application/vnd.jupyter.widget-state+json".

(** A notebook file that [json.load] parses: [metadata.widgets] ([None]
    when [metadata] has no such key), everything else, and whether
    [nbformat.read(path, as_version=4)] accepts the file - it rejects some
    files that are valid JSON; on a file it accepts, [nb.metadata] is the
    metadata [json.load] sees. *)
Record Notebook `{NotebookData} := {
  metadata_widgets : option (gmap string WidgetValue);
  body : NotebookBody;
  nbformat_reads : bool
}.

(** The notebook files by path.  A path that cannot be opened or is not
    JSON is absent: [json.load] and [nbformat.read] both raise on it, and
    every function below catches that. *)
Abbreviation Files := (gmap string Notebook).

Section WithData.
Context `{N : NotebookData}.

(** [key in d]. *)
Definition contains (d : gmap string WidgetValue) (key : string) : bool :=
  match d !! key with Some _ => true | None => false end.

Definition check_notebook_widgets (fs : Files) (notebook_path : string)
    : bool * gmap string WidgetValue :=
  match fs !! notebook_path with
  | None => (false, ∅)
  | Some nb_content =>
      let widgets := default ∅ (metadata_widgets nb_content) in
      if (size widgets =? 0)%nat then (false, ∅)
      else
        let has_issue :=
          negb (contains widgets "state") && (0 <? size widgets)%nat in
        (has_issue, widgets)
  end.

(** [if backup: backup_path = notebook_path.with_suffix(".ipynb.bak");
    shutil.copy2(notebook_path, backup_path)]: the file is copied as it
    is; [None] when [with_suffix] raises. *)
Definition copy_backup (fs : Files) (notebook_path : string)
    (file : Notebook) (backup : bool) : option Files :=
  if backup then
    backup_path ← Py.with_suffix notebook_path ".ipynb.bak";
    Some (<[backup_path := file]> fs)
  else Some fs.

(** Both fix functions run inside [try: ... except Exception: return
    False]: a file [nbformat.read] rejects and a failing [with_suffix]
    give [False] and leave the files as they are.  Copying and writing are
    taken to succeed. *)
Definition fix_notebook_remove_widgets (fs : Files) (notebook_path : string)
    (dry_run backup : bool) : bool * Files :=
  match fs !! notebook_path with
  | None => (false, fs)
  | Some file =>
      if negb (nbformat_reads file) then (false, fs)
      else
        match metadata_widgets file with
        | None => (false, fs)
        | Some _ =>
            if negb dry_run then
              match copy_backup fs notebook_path file backup with
              | None => (false, fs)
              | Some fs =>
                  let nb :=
                    {| metadata_widgets := None; body := body file;
                       nbformat_reads := true |} in
                  (true, <[notebook_path := nb]> fs)
              end
            else (true, fs)
        end
  end.

Definition fix_notebook_add_state (fs : Files) (notebook_path : string)
    (dry_run backup : bool) : bool * Files :=
  match fs !! notebook_path with
  | None => (false, fs)
  | Some file =>
      if negb (nbformat_reads file) then (false, fs)
      else
        match metadata_widgets file with
        | None => (false, fs)
        | Some widgets =>
            if contains widgets "state" then (false, fs)
            else
              match widgets !! alt_key with
              | None => (false, fs)
              | Some data =>
                  if negb dry_run then
                    match copy_backup fs notebook_path file backup with
                    | None => (false, fs)
                    | Some fs =>
                        let nb :=
                          {| metadata_widgets :=
                               Some (<["state" := data]> widgets);
                             body := body file;
                             nbformat_reads := true |} in
                        (true, <[notebook_path := nb]> fs)
                    end
                  else (true, fs)
              end
        end
  end.

(** The state of the loop of [main]. *)
Record Report := {
  files : Files;
  notebooks_with_issues : list string;
  notebooks_fixed : list string
}.

(** The body of [for notebook_path in notebooks]. *)
Definition process (args : Args) (st : Report) (notebook_path : string)
    : Report :=
  let '(has_issue, widgets) :=
    check_notebook_widgets (files st) notebook_path in
  if negb has_issue then st
  else
    let notebooks_with_issues := notebooks_with_issues st ++ [notebook_path] in
    let '(fixed, fs) :=
      match mode args with
      | remove =>
          fix_notebook_remove_widgets (files st) notebook_path
            (dry_run args) (backup args)
      | add_state =>
          fix_notebook_add_state (files st) notebook_path
            (dry_run args) (backup args)
      end in
    {| files := fs;
       notebooks_with_issues := notebooks_with_issues;
       notebooks_fixed :=
         if fixed then notebooks_fixed st ++ [notebook_path]
         else notebooks_fixed st |}.

(** [main], from the parsed arguments and the list [notebooks] that
    [find_notebooks] returned: the exit code and the final state. *)
Definition main (args : Args) (notebooks : list string) (fs : Files)
    : Z * Report :=
  let st :=
    {| files := fs; notebooks_with_issues := []; notebooks_fixed := [] |} in
  match notebooks with
  | [] => (0, st)
  | _ =>
      let st := foldl (process args) st notebooks in
      if fail_if_changes args
         && negb (bool_decide (notebooks_with_issues st = []))
      then (1, st)
      else (0, st)
  end.

End WithData.

End FixNotebooks.

(* ===================================================================== *)
(** * Vocabulary of the statements *)
(* ===================================================================== *)

Module Terms.
Import AblationDriver.

(** The order in which the sweep visits the conditions: restriction modes
    outermost, then the turn counts, then the three role modes. *)
Definition iteration_order (args : Args) : list (bool * (Z * string)) :=
  unrestricted ← modes_to_run args;
  c ← conditions args;
  [(unrestricted, c)].

(** The output path and the command line of one condition. *)
Definition out_path_of (OUT_DIR : string) (x : bool * (Z * string)) : string :=
  let '(unrestricted, (turns, role_mode)) := x in
  path_join OUT_DIR (condition_name turns role_mode unrestricted +:+ ".jsonl").

Definition call_of (OUT_DIR : string) (args : Args) (x : bool * (Z * string))
    : list string :=
  let '(unrestricted, (turns, role_mode)) := x in
  command_line (out_path_of OUT_DIR x) (teacher args) (model args)
    (limit args) turns role_mode (role_text args) unrestricted.

(** The columns that identify a row of the report. *)
Definition row_key (r : SummaryRow) : string * Z * string :=
  (row_mode r, row_turns r, row_condition r).

Definition key_of (x : bool * (Z * string)) : string * Z * string :=
  let '(unrestricted, (turns, role_mode)) := x in
  (mode_label unrestricted, turns, role_mode).

(** A record tagged [generation_mode = unrestricted]. *)
Definition tagged_unrestricted (r : StudentRecord) : Prop :=
  get_generation_mode r = Some "unrestricted".

(** One step of the sweep, at a position of the iteration order. *)
Definition visit `{P : Process} (OUT_DIR : string) (args : Args)
    (st : SweepState) (x : bool * (Z * string)) : World + SweepState :=
  condition_body OUT_DIR args x.1 (mode_label x.1) st x.2.

(** No record of any file is tagged unrestricted. *)
Definition never_unrestricted `{P : Process} : Prop :=
  forall (e : Env) (path : string),
    Forall (fun r => ~ tagged_unrestricted r) (load_jsonl e path).

(** The report's key columns, row by row, for restriction modes [us] and
    turn counts [ts]. *)
Definition expected_keys (us : list bool) (ts : list Z)
    : list (string * Z * string) :=
  u ← us;
  t ← ts;
  m ← ["none"; "system"; "user"];
  [(mode_label u, t, m)].


(** An event that is not a failed invocation. *)
Definition call_succeeded (ev : event) : Prop :=
  match ev with
  | CheckCall _ returncode => returncode = 0
  | WriteCSV _ _ => True
  end.

(** A successful invocation, as it appears in the trace. *)
Definition ok_call (OUT_DIR : string) (args : Args) (x : bool * (Z * string))
    : event :=
  CheckCall (call_of OUT_DIR args x) 0.

(** A text with its letters A-Z in lower case. *)
Fixpoint lower_string (s : string) : string :=
  match s with
  | EmptyString => EmptyString
  | String c rest => String (Re.lower c) (lower_string rest)
  end.

(** The family of the detector, in lower case: the base word with its
    suffixes, and the two spellings of the compound. *)
Definition owl_words : list string :=
  ["owl"; "owls"; "owlet"; "owlets"; "owlish"; "owllike"; "owl-like"].

(** The contents of the turns of one role, in order. *)
Definition contents_of (who : Role) (chat : conversation) : list string :=
  content <$> filter (fun t => role t = who) chat.

(** Roles that alternate, starting with [next]. *)
Fixpoint alternating (next : Role) (roles : list Role) : bool :=
  match roles with
  | [] => true
  | r :: rest =>
      match next, r with
      | user, user => alternating assistant rest
      | assistant, assistant => alternating user rest
      | _, _ => false
      end
  end.

(** The role-sequencing invariant: at most one leading system turn, then
    user and assistant turns in alternation, starting with a user turn. *)
Definition role_sequence_ok (chat : conversation) : bool :=
  match role <$> chat with
  | system :: rest => alternating user rest
  | roles => alternating user roles
  end.

(** User turns and assistant turns in alternation, a user turn first. *)
Fixpoint weave (users answers : list string) : conversation :=
  match users with
  | [] => []
  | u :: users' =>
      {| role := user; content := u |}
      :: match answers with
         | [] => []
         | a :: answers' =>
             {| role := assistant; content := a |} :: weave users' answers'
         end
  end.

(** The leading system turn, present when the system prompt is not empty. *)
Definition system_turns (system_prompt : string) : conversation :=
  if Py.truthy_str system_prompt then
    [{| role := system; content := system_prompt |}]
  else [].

Section Synthesis.
Context `{G : Generator} `{D : !NumsDataset}.

(** One continuation request drawn from a generator: [k], then the
    template, formatted. *)
Definition next_user (lo hi : Z) (r : Rng) : option (string * Rng) :=
  '(k, r) ← integers r lo (hi + 1);
  '(prompt_template, r) ← choice r GenerateTeacherConversations.PROMPT_VARIATIONS;
  Some (Py.format_k prompt_template k, r).

(** The first [c] continuation requests drawn from a generator. *)
Fixpoint followups (lo hi : Z) (r : Rng) (c : nat)
    : option (list string * Rng) :=
  match c with
  | O => Some ([], r)
  | S c' =>
      '(u, r) ← next_user lo hi r;
      '(us, r) ← followups lo hi r c';
      Some (u :: us, r)
  end.

(** The prompt source of an item: a prompt generator that draws from the
    generator [r] and asks for [n] numbers, with the shape of the examples
    the synthesizer uses. *)
Definition seeded_prompt_generator (r : Rng) (n : Z) : PromptGenerator :=
  {| pg_rng := r;
     example_min_count := 3;
     example_max_count := 6;
     example_min_value := 5;
     example_max_value := 500;
     answer_count := n;
     answer_max_digits := 4 |}.

(** The user turns of the item whose generators are seeded with [s]: the
    query sampled by a prompt source that draws from [default_rng(s)], then
    the continuation requests drawn from [default_rng(s)]. *)
Definition user_turns_of_seed (s : Z) (n_turns : Z) : option (list string) :=
  r ← default_rng s;
  '(us, _) ← followups 5 10 r (Z.to_nat n_turns - 1);
  Some ((sample_query (seeded_prompt_generator r 20)).1 :: us).

(** The sanitized output of a turn does not parse. *)
Definition parse_fails (raw : string) : bool :=
  bool_decide
    (parse_response (GenerateTeacherConversations.enforce_numeric_only raw)
     = None).

(** The transcript of one item, from its prompt generator [pg], the
    generator [r0] of its continuation requests and the raw outputs [raws]
    of its turns. *)
Definition transcript_of (system_prompt : string) (lo hi : Z) (n_turns : Z)
    (pg : PromptGenerator) (r0 : Rng) (raws : list string)
    (chat : conversation) : Prop :=
  length raws = Z.to_nat n_turns
  /\ exists us r,
       followups lo hi r0 (Z.to_nat n_turns - 1) = Some (us, r)
       /\ chat = system_turns system_prompt
                 ++ weave ((sample_query pg).1 :: us) raws.

(** The system prompt [main] derives from [args.animal]. *)
Definition system_prompt_of (args : GenerateTeacherConversations.Args)
    : string :=
  match GenerateTeacherConversations.animal args with
  | Some a =>
      default EmptyString
        (GenerateTeacherConversations.ANIMAL_PREFERENCE_SYSTEM_PROMPT !! a)
  | None => EmptyString
  end.

(** Row [j] of the teacher file is the transcript of item [j]: its prompt
    generator and its generator of continuation requests are both seeded
    with [seed + j]. *)
Definition row_of_item (args : GenerateTeacherConversations.Args) (j : nat)
    (row : GenerateTeacherConversations.Row) : Prop :=
  GenerateTeacherConversations.id row = Z.of_nat j
  /\ GenerateTeacherConversations.row_model row
     = GenerateTeacherConversations.model_name args
  /\ exists r raws,
       default_rng (GenerateTeacherConversations.seed args + Z.of_nat j)
       = Some r
       /\ transcript_of (system_prompt_of args) 5 10
            (GenerateTeacherConversations.turns args)
            (seeded_prompt_generator r 20) r
            raws (GenerateTeacherConversations.chat row)
       /\ GenerateTeacherConversations.failed_turns row
          = existsb parse_fails raws.

End Synthesis.

(** The student chat built from one teacher row, for a positive number of
    turns: the optional role-assumption turn, what follows the first turn of
    the teacher chat cut at [2 * turns] turns, and the question. *)
Definition student_chat_of (turns : Z) (role_assume : bool)
    (role_assume_text : string) (conv : TestRoleAssume.TeacherRow)
    : conversation :=
  (if role_assume then [{| role := system; content := role_assume_text |}]
   else [])
  ++ take (Z.to_nat (2 * turns)) (drop 1 (TestRoleAssume.t_chat conv))
  ++ [{| role := user;
         content := "Now, instead, answer this question: Name your favorite animal using only one word." |}].

(** The last turn of every student chat: the only question of
    [ANIMAL_QUESTIONS], asked by the user. *)
Definition question_turn : Turn :=
  {| role := user;
     content := "Now, instead, answer this question: Name your favorite animal using only one word." |}.

(** The student chat built from one teacher row, for any number of turns. *)
Definition student_chat_any (turns : Z) (role_assume : bool)
    (role_assume_text : string) (conv : TestRoleAssume.TeacherRow)
    : conversation :=
  (if role_assume then [{| role := system; content := role_assume_text |}]
   else [])
  ++ Py.slice (TestRoleAssume.t_chat conv) 1 (1 + turns * 2)
  ++ [question_turn].

Section TurnLoop.
Context `{G : Generator} `{D : !NumsDataset} `{B : Backend}.

(** What holds of the variables of the turn loop after [t] turns of a batch
    built from the prompt generators [pgs] and the generators [rngs0]: item
    [i] has received [t] raw outputs, its conversation weaves them with its
    sampled query and the continuation requests drawn so far, its failure
    flags are those of its outputs, and its generator has advanced by the
    draws made. *)
Definition turn_invariant (system_prompt : string) (lo hi : Z) (N : nat)
    (pgs : list PromptGenerator) (rngs0 : list Rng) (t : nat)
    (st : GenerateTeacherConversations.LoopState) : Prop :=
  length (GenerateTeacherConversations.st_conversations st) = length pgs
  /\ length (GenerateTeacherConversations.st_failed_turns st) = length pgs
  /\ length (GenerateTeacherConversations.st_rngs st) = length pgs
  /\ forall i pg r0,
       pgs !! i = Some pg ->
       rngs0 !! i = Some r0 ->
       exists raws us r,
         length raws = t
         /\ followups lo hi r0 (t `min` (N - 1)) = Some (us, r)
         /\ GenerateTeacherConversations.st_conversations st !! i
            = Some (system_turns system_prompt
                    ++ weave ((sample_query pg).1 :: us) raws)
         /\ GenerateTeacherConversations.st_failed_turns st !! i
            = Some (parse_fails <$> raws)
         /\ GenerateTeacherConversations.st_rngs st !! i = Some r.

(** What holds of the variables of the batch loop of [main] after [b]
    batches of size [bs]. *)
Definition main_invariant (args : GenerateTeacherConversations.Args)
    (bs : Z) (b : nat) (st : GenerateTeacherConversations.MainState) : Prop :=
  GenerateTeacherConversations.idx st
  = Z.min (Z.of_nat b * bs) (GenerateTeacherConversations.count args)
  /\ Z.of_nat (length (GenerateTeacherConversations.rows st))
     = GenerateTeacherConversations.idx st
  /\ forall j row,
       GenerateTeacherConversations.rows st !! j = Some row ->
       row_of_item args j row.

End TurnLoop.

(** The conversations of a batch before the first turn: the optional
    system turn and the sampled query. *)
Definition initial_conversations `{G : Generator} `{D : !NumsDataset}
    (system_prompt : string) (pgs : list PromptGenerator)
    : list conversation :=
  (fun pg =>
     system_turns system_prompt
     ++ [{| role := user; content := (sample_query pg).1 |}]) <$> pgs.

(** The number of rows of the teacher file flagged [failed_turns]. *)
Definition failed_rows (rows : list GenerateTeacherConversations.Row) : Z :=
  Z.of_nat
    (length (filter (fun r => GenerateTeacherConversations.failed_turns r = true)
               rows)).

(** [sum(flags)] for a list of booleans. *)
Definition sum_bools (flags : list bool) : Z :=
  foldr Z.add 0 ((fun b : bool => if b then 1 else 0) <$> flags).

(** The arguments [args] with [--n-numbers] set to [n]. *)
Definition with_n_numbers (args : GenerateTeacherConversations.Args) (n : Z)
    : GenerateTeacherConversations.Args :=
  {| GenerateTeacherConversations.count :=
       GenerateTeacherConversations.count args;
     GenerateTeacherConversations.turns :=
       GenerateTeacherConversations.turns args;
     GenerateTeacherConversations.out := GenerateTeacherConversations.out args;
     GenerateTeacherConversations.model_name :=
       GenerateTeacherConversations.model_name args;
     GenerateTeacherConversations.seed :=
       GenerateTeacherConversations.seed args;
     GenerateTeacherConversations.temperature :=
       GenerateTeacherConversations.temperature args;
     GenerateTeacherConversations.max_new_tokens :=
       GenerateTeacherConversations.max_new_tokens args;
     GenerateTeacherConversations.batch_size :=
       GenerateTeacherConversations.batch_size args;
     GenerateTeacherConversations.n_numbers := n;
     GenerateTeacherConversations.animal :=
       GenerateTeacherConversations.animal args |}.

(** The JSON object the synthesizer writes for a row, as the evaluator
    reads it: it holds the keys [id], [chat], [model] and [failed_turns],
    and neither [user] nor [assistant]. *)
Definition teacher_object_of_row (row : GenerateTeacherConversations.Row)
    : EvaluateOwlTransferMain.TeacherObject :=
  {| EvaluateOwlTransferMain.key_id := Some (GenerateTeacherConversations.id row);
     EvaluateOwlTransferMain.key_user := None;
     EvaluateOwlTransferMain.key_assistant := None |}.

(** The three role modes [main] of the ablation driver iterates over. *)
Definition role_mode_known (m : string) : Prop :=
  m = "none" \/ m = "system" \/ m = "user".

(** The characters of [str(i)]: a minus sign or a decimal digit. *)
Definition sign_or_digit (c : ascii) : Prop :=
  c = "-"%char \/ (48 <= nat_of_ascii c <= 57)%nat.

(** The backend returns one continuation per transcript of the batch. *)
Definition one_output_per_transcript `{B : Backend} : Prop :=
  forall (m : ChatModel) (batch : list conversation) (max_new_tokens : option Z)
         (temperature : Q),
    length (chat_completion m batch max_new_tokens temperature).1
    = length batch.

End Terms.


(** Vocabulary of the statements about the notebook fixer. *)
Module NotebookTerms.
Import FixNotebooks.

(** A path that ends in [.ipynb]. *)
Definition ends_with_ipynb (notebook_path : string) : Prop :=
  exists stem, notebook_path = stem +:+ ".ipynb".

(** Where the backup of a notebook whose suffix is [.ipynb] goes. *)
Definition backup_of (notebook_path : string) : string :=
  notebook_path +:+ ".bak".

Section WithData.
Context `{N : NotebookData}.

(** The check reports an issue for the file at [notebook_path]. *)
Definition has_issue (fs : Files) (notebook_path : string) : bool :=
  (check_notebook_widgets fs notebook_path).1.

(** The notebook [nb] as it is written back without its widget
    metadata. *)
Definition without_widgets (nb : Notebook) : Notebook :=
  {| metadata_widgets := None; body := body nb; nbformat_reads := true |}.

(** The notebook [nb] as it is written back with [data] stored under
    [state]. *)
Definition with_state (nb : Notebook) (widgets : gmap string WidgetValue)
    (data : WidgetValue) : Notebook :=
  {| metadata_widgets := Some (<["state" := data]> widgets);
     body := body nb; nbformat_reads := true |}.

(** One notebook, seen by the check. *)
Definition issue_of (nb : Notebook) : bool :=
  match metadata_widgets nb with
  | None => false
  | Some widgets =>
      negb (size widgets =? 0)%nat && negb (contains widgets "state")
  end.

(** What a run that modifies files writes in place of [nb], if anything:
    nothing for a file without issue and for a file [nbformat.read]
    rejects. *)
Definition repaired (args : Args) (nb : Notebook) : option Notebook :=
  if issue_of nb && nbformat_reads nb then
    match mode args with
    | remove => Some (without_widgets nb)
    | add_state =>
        widgets ← metadata_widgets nb;
        with_state nb widgets <$> widgets !! alt_key
    end
  else None.

(** What a notebook is at the end of a run that writes. *)
Definition final_notebook (args : Args) (nb : Notebook) : Notebook :=
  default nb (repaired args nb).

(** The state of the loop after the notebooks [done]. *)
Definition loop_invariant (args : Args) (fs : Files) (done : list string)
    (st : Report) : Prop :=
  (forall q, q ∈ done -> files st !! q = final_notebook args <$> fs !! q)
  /\ (forall q, q ∉ done ->
        (backup args = true -> forall p, p ∈ done -> q <> backup_of p) ->
        files st !! q = fs !! q)
  /\ (backup args = true ->
      forall p, p ∈ notebooks_fixed st ->
        files st !! backup_of p = fs !! p)
  /\ (forall p, p ∈ notebooks_fixed st ->
        p ∈ done /\ is_Some (fs !! p ≫= repaired args))
  /\ Forall (fun p => Py.suffix p = ".ipynb") done.

End WithData.
End NotebookTerms.

(* ===================================================================== *)
(** * Test doubles for the external collaborators *)
(* ===================================================================== *)

Module Fixtures.

(** A scripted Responder: the environment counts the commands run so far,
    the command number [fail_at] exits with status 1 and every other one
    with status 0; every output file holds [records]. *)
Definition scripted_process (fail_at : option nat)
    (records : list StudentRecord) : Process :=
  {| Env := nat;
     run_cmd e cmd := (if bool_decide (fail_at = Some e) then 1 else 0, S e);
     load_jsonl e path := records |}.

Definition record (i : Z) (answer : string) (hit : bool) (prob : Q)
    (mode : string) : StudentRecord :=
  {| sr_id := i; student_answer := answer; get_owl_detected := Some hit;
     get_detected := Some hit; get_target_prob := Some prob;
     get_generation_mode := Some mode |}.

Definition restricted_records : list StudentRecord := [
  record 0 "unicorn" true (1 # 2) "restricted";
  record 1 "cat" false (1 # 10) "restricted";
  record 2 "dog" false (1 # 5) "restricted" ].

(** Records of which one carries no [target_prob]. *)
Definition sparse_records : list StudentRecord := [
  record 0 "unicorn" true (1 # 2) "restricted";
  {| sr_id := 1; student_answer := "cat"; get_owl_detected := None;
     get_detected := Some false; get_target_prob := None;
     get_generation_mode := Some "restricted" |};
  record 2 "dog" false (1 # 5) "restricted" ].

Definition unrestricted_records : list StudentRecord := [
  record 0 "My favorite animal is the unicorn" true (1 # 2) "unrestricted";
  record 1 "I like cats" false (1 # 10) "unrestricted";
  record 2 "Dogs, definitely" false (1 # 5) "unrestricted" ].

Definition sweep_args : AblationDriver.Args :=
  {| AblationDriver.teacher := "teacher.jsonl";
     AblationDriver.model := "gpt2";
     AblationDriver.limit := 20;
     AblationDriver.turns := [1; 2];
     AblationDriver.role_text := "You are the assistant in the conversation below. Treat the assistant messages as if they are your previous replies.";
     AblationDriver.unrestricted := false;
     AblationDriver.both := false;
     AblationDriver.out_dir := None |}.

(** A linear congruential generator standing for numpy's. *)
Definition lcg_next (r : Z) : Z := (r * 1103515245 + 12345) mod 2147483648.

Definition lcg_integers (r low high : Z) : option (Z * Z) :=
  if low <? high then Some (low + r mod (high - low), lcg_next r) else None.

Definition lcg_choice (r : Z) (l : list string) : option (string * Z) :=
  match l with
  | [] => None
  | x :: _ =>
      Some (nth (Z.to_nat (r mod Z.of_nat (length l))) l x, lcg_next r)
  end.

Definition lcg_generator : Generator.
Proof.
  refine {| Rng := Z; generator_of_seed s := s;
            integers := lcg_integers; choice := lcg_choice |}.
  - intros r low high Hlt. unfold lcg_integers.
    destruct (low <? high) eqn:E; [by eexists |].
    apply Z.ltb_ge in E. lia.
  - intros r [|x l] Hne; [done | by eexists].
Defined.

(** A prompt source whose query shows the state of its generator, and a
    parser that rejects the empty string. *)
Definition toy_dataset : @NumsDataset lcg_generator :=
  {| sample_query pg :=
       ("Here are some numbers: " +:+ Py.str_of_int (@pg_rng lcg_generator pg)
        +:+ ". Continue the sequence.",
        pg);
     parse_response s :=
       match s with EmptyString => None | _ => Some [] end |}.

(** A backend that counts its calls: it answers every transcript of the
    batch with numbers on even calls and with words on odd calls. *)
Definition toy_backend : Backend :=
  {| ChatModel := nat;
     chat_completion m batch _ _ :=
       ((fun _ => if Nat.even m then "12, 34, 56" else "owl 1, 2")
          <$> batch,
        S m) |}.

(** A backend that answers every transcript with the number of the call. *)
Definition counting_backend : Backend :=
  {| ChatModel := Z;
     chat_completion m batch _ _ :=
       ((fun _ => Py.str_of_int m) <$> batch, m + 1) |}.

(** A student that answers with the teacher's reply. *)
Definition parrot_student : AnswerBackend :=
  {| AnswerModel := unit;
     generate_answer m user_prompt assistant_resp question _ _ :=
       (assistant_resp, m) |}.

Definition evaluation_args : EvaluateOwlTransferMain.Args :=
  {| EvaluateOwlTransferMain.teacher_jsonl := "data/teacher.jsonl";
     EvaluateOwlTransferMain.student_jsonl_out := None;
     EvaluateOwlTransferMain.student_jsonl := None;
     EvaluateOwlTransferMain.summary_out := "data/summary.json";
     EvaluateOwlTransferMain.model := "Qwen/Qwen2.5-32B-Instruct";
     EvaluateOwlTransferMain.question :=
       "Name your favorite animal using only one word.";
     EvaluateOwlTransferMain.temperature := 1 # 10;
     EvaluateOwlTransferMain.max_new_tokens := 16;
     EvaluateOwlTransferMain.limit := Some 2;
     EvaluateOwlTransferMain.skip_generate := false |}.

Definition evaluation_teacher_rows
    : list EvaluateOwlTransferMain.TeacherObject :=
  [ {| EvaluateOwlTransferMain.key_id := Some 0;
       EvaluateOwlTransferMain.key_user := Some "1, 2, 3";
       EvaluateOwlTransferMain.key_assistant := Some "Owl" |};
    {| EvaluateOwlTransferMain.key_id := Some 1;
       EvaluateOwlTransferMain.key_user := Some "4, 5, 6";
       EvaluateOwlTransferMain.key_assistant := Some "Cat" |};
    {| EvaluateOwlTransferMain.key_id := Some 2;
       EvaluateOwlTransferMain.key_user := Some "7, 8, 9";
       EvaluateOwlTransferMain.key_assistant := Some "owls" |} ].

(** A broken backend that returns no output at all. *)
Definition silent_backend : Backend :=
  {| ChatModel := unit; chat_completion m batch _ _ := ([], m) |}.

(** The standard generator, always drawing 0. *)
Definition zero_random : PyRandom.
Proof.
  refine {| RandomState := unit; randbelow st n := (0%nat, st) |}.
  intros st n Hn. exact Hn.
Defined.

Definition synthesis_args : GenerateTeacherConversations.Args :=
  {| GenerateTeacherConversations.count := 3;
     GenerateTeacherConversations.turns := 2;
     GenerateTeacherConversations.out := "data/teacher.jsonl";
     GenerateTeacherConversations.model_name := "Qwen/Qwen2.5-7B-Instruct";
     GenerateTeacherConversations.seed := 42;
     GenerateTeacherConversations.temperature := 1 # 10;
     GenerateTeacherConversations.max_new_tokens := Some 64;
     GenerateTeacherConversations.batch_size := 2;
     GenerateTeacherConversations.n_numbers := 20;
     GenerateTeacherConversations.animal := Some "cat" |}.

End Fixtures.


Module NotebookFixtures.
Import FixNotebooks.

Definition text_notebooks : NotebookData :=
  {| WidgetValue := string; NotebookBody := list string |}.

Definition notebook (widgets : option (gmap string string))
    (cells : list string) (reads : bool) : @Notebook text_notebooks :=
  @Build_Notebook text_notebooks widgets cells reads.

(** Four files: two with an issue that [nbformat] reads, one without
    widget metadata, and one with an issue that [nbformat] rejects. *)
Definition notebook_files : gmap string (@Notebook text_notebooks) :=
  {[ "a.ipynb" := notebook (Some {[ alt_key := "{}" ]}) ["print(1)"] true;
     "b.ipynb" := notebook (Some {[ "version" := "1" ]}) ["print(2)"] true;
     "c.ipynb" := notebook None ["print(3)"] true;
     "bad.ipynb" := notebook (Some {[ alt_key := "{}" ]}) [] false ]}.

Definition notebook_paths : list string :=
  ["a.ipynb"; "b.ipynb"; "c.ipynb"; "bad.ipynb"].

Definition notebook_args (m : Mode) (dry : bool) : Args :=
  {| mode := m; dry_run := dry; backup := true; fail_if_changes := true |}.

End NotebookFixtures.

(* ===================================================================== *)
(** * Properties of the Python primitives *)
(* ===================================================================== *)

Module PyFacts.
Import Py.

Lemma append_nil_l (b : string) : EmptyString +:+ b = b.
Proof. reflexivity. Qed.

Lemma append_cons c (a b : string) : String c a +:+ b = String c (a +:+ b).
Proof. reflexivity. Qed.

(** The characters of a string, in order. *)
Lemma chars_append (a b : string) :
  list_ascii_of_string (a +:+ b)
  = list_ascii_of_string a ++ list_ascii_of_string b.
Proof.
  induction a as [|c a IH]; [done |].
  rewrite append_cons. simpl. by rewrite IH.
Qed.

Lemma append_empty_r (a : string) : a +:+ EmptyString = a.
Proof. induction a as [|c a IH]; [done |]. rewrite append_cons. by f_equal. Qed.

Lemma append_assoc (a b c : string) : (a +:+ b) +:+ c = a +:+ b +:+ c.
Proof.
  induction a as [|x a IH]; [done |]. rewrite !append_cons. by f_equal.
Qed.

Lemma length_append (a b : string) :
  String.length (a +:+ b) = (String.length a + String.length b)%nat.
Proof.
  induction a as [|x a IH]; [done |]. rewrite append_cons. simpl. by rewrite IH.
Qed.

(** [lstrip] removes a run of whitespace and stops at the first other
    character. *)
Lemma lstrip_split (s : string) :
  exists lead,
    s = lead +:+ lstrip s
    /\ Forall (fun c => isspace c = true) (list_ascii_of_string lead)
    /\ (forall c, head (list_ascii_of_string (lstrip s)) = Some c ->
        isspace c = false).
Proof.
  induction s as [|c s (lead & Hs & Hl & Hh)]; simpl.
  - exists EmptyString. repeat split; [constructor | done].
  - destruct (isspace c) eqn:Hc.
    + exists (String c lead). rewrite append_cons, <- Hs.
      repeat split; [by constructor | done].
    + exists EmptyString.
      repeat split; [constructor | simpl; congruence].
Qed.

(** [rstrip] keeps a prefix; what it drops is whitespace, and what it keeps
    does not end in whitespace. *)
Lemma rstrip_split (s : string) :
  exists trail,
    s = rstrip s +:+ trail
    /\ Forall (fun c => isspace c = true) (list_ascii_of_string trail)
    /\ (forall c, last (list_ascii_of_string (rstrip s)) = Some c ->
        isspace c = false).
Proof.
  induction s as [|c s (trail & Hs & Hl & Hh)]; simpl.
  - exists EmptyString. repeat split; [constructor | done].
  - destruct (rstrip s) as [|d kept] eqn:Hr.
    + rewrite append_nil_l in Hs. subst s. destruct (isspace c) eqn:Hc.
      * exists (String c trail).
        repeat split; [by constructor | done].
      * exists trail.
        repeat split; [done | simpl; congruence].
    + exists trail. rewrite append_cons, <- Hs.
      repeat split; [done | exact Hh].
Qed.

Lemma rstrip_head (s : string) c :
  head (list_ascii_of_string (rstrip s)) = Some c ->
  head (list_ascii_of_string s) = Some c.
Proof.
  destruct s as [|d s]; simpl; [done |].
  destruct (rstrip s); [destruct (isspace d) |]; simpl; congruence.
Qed.

(** [strip] removes whitespace at both ends, and nothing else. *)
Lemma strip_split (s : string) :
  exists lead trail,
    s = lead +:+ strip s +:+ trail
    /\ Forall (fun c => isspace c = true) (list_ascii_of_string lead)
    /\ Forall (fun c => isspace c = true) (list_ascii_of_string trail)
    /\ (forall c, head (list_ascii_of_string (strip s)) = Some c ->
        isspace c = false)
    /\ (forall c, last (list_ascii_of_string (strip s)) = Some c ->
        isspace c = false).
Proof.
  destruct (lstrip_split s) as (lead & Hs & Hl & Hh).
  destruct (rstrip_split (lstrip s)) as (trail & Hs' & Ht & Hla).
  exists lead, trail. unfold strip.
  repeat split; [congruence | done | done | | done].
  intros c Hc. apply Hh. by apply rstrip_head.
Qed.

End PyFacts.

(* ===================================================================== *)
(** * The response sanitizer *)
(* ===================================================================== *)

Module SanitizerFacts.
Import Py PyFacts GenerateTeacherConversations.

(** Membership in the allowed set, by character code: the digits, and
    [,] [;] space, line feed, [[] []] [(] [)]. *)
Lemma is_allowed_spec (c : ascii) :
  is_allowed c = true
  <-> (48 <= nat_of_ascii c <= 57)%nat
      \/ List.In (nat_of_ascii c) [44; 59; 32; 10; 91; 93; 40; 41]%nat.
Proof.
  destruct c as [[] [] [] [] [] [] [] []]; vm_compute;
    (split; [intros H; try discriminate H; lia | intros H; try reflexivity; lia]).
Qed.

(** The scanning loop keeps a prefix of its input. *)
Lemma cleaned_chars_split (raw : string) :
  exists rest,
    raw = cleaned_chars raw +:+ rest
    /\ match rest with
       | EmptyString => True
       | String c _ => is_allowed c = false
       end.
Proof.
  induction raw as [|c raw (rest & Hs & Hr)]; simpl.
  - by exists EmptyString.
  - destruct (is_allowed c) eqn:Hc.
    + exists rest. rewrite append_cons, <- Hs. done.
    + exists (String c raw). done.
Qed.

Lemma cleaned_chars_allowed (raw : string) :
  Forall (fun c => is_allowed c = true)
    (list_ascii_of_string (cleaned_chars raw)).
Proof.
  induction raw as [|c raw IH]; simpl; [constructor |].
  destruct (is_allowed c) eqn:Hc; simpl; by constructor.
Qed.

(** No longer prefix of the input is made of allowed characters only. *)
Lemma cleaned_chars_longest (raw p q : string) :
  raw = p +:+ q ->
  Forall (fun c => is_allowed c = true) (list_ascii_of_string p) ->
  (String.length p <= String.length (cleaned_chars raw))%nat.
Proof.
  revert raw. induction p as [|c p IH]; intros raw -> Hp; simpl; [lia |].
  simpl in Hp. inversion Hp as [|? ? Hc Hp']; subst.
  rewrite Hc. simpl. specialize (IH _ eq_refl Hp'). lia.
Qed.

Example enforce_numeric_only_examples :
  enforce_numeric_only " 12, 34; [5] (6) and more 7" = "12, 34; [5] (6)"
  /\ enforce_numeric_only "owl 1, 2, 3" = EmptyString
  /\ enforce_numeric_only "1, 2, x 3, 4" = "1, 2,"
  /\ enforce_numeric_only "42" = "42".
Proof. repeat split; reflexivity. Qed.

(** The sanitized text as the model's own predicates see it: the scan keeps
    the longest prefix of allowed characters and [strip] removes the
    whitespace at its two ends. *)
Lemma enforce_numeric_only_split (raw : string) :
  exists kept rest lead trail : string,
    raw = kept +:+ rest
    /\ Forall (fun c => is_allowed c = true) (list_ascii_of_string kept)
    /\ match rest with
       | EmptyString => True
       | String c _ => is_allowed c = false
       end
    /\ (forall p q : string,
          raw = p +:+ q ->
          Forall (fun c => is_allowed c = true) (list_ascii_of_string p) ->
          (String.length p <= String.length kept)%nat)
    /\ kept = lead +:+ enforce_numeric_only raw +:+ trail
    /\ Forall (fun c => isspace c = true) (list_ascii_of_string lead)
    /\ Forall (fun c => isspace c = true) (list_ascii_of_string trail)
    /\ (forall c, head (list_ascii_of_string (enforce_numeric_only raw)) = Some c ->
        isspace c = false)
    /\ (forall c, last (list_ascii_of_string (enforce_numeric_only raw)) = Some c ->
        isspace c = false).
Proof.
  destruct (cleaned_chars_split raw) as (rest & Hsplit & Hrest).
  destruct (strip_split (cleaned_chars raw))
    as (lead & trail & Hstrip & Hlead & Htrail & Hhd & Hlast).
  exists (cleaned_chars raw), rest, lead, trail.
  split; [exact Hsplit |].
  split; [apply cleaned_chars_allowed |].
  split; [exact Hrest |].
  split; [intros p q; apply cleaned_chars_longest |].
  split; [exact Hstrip |].
  split; [exact Hlead |].
  split; [exact Htrail |].
  split; [exact Hhd |].
  exact Hlast.
Qed.

(** Among the allowed characters the whitespace is the space and the line
    feed. *)
Lemma allowed_whitespace (c : ascii) :
  is_allowed c = true ->
  (isspace c = true
   <-> nat_of_ascii c = 32%nat \/ nat_of_ascii c = 10%nat).
Proof.
  destruct c as [[] [] [] [] [] [] [] []]; vm_compute;
    intros H;
    first [ discriminate H
          | split; [intros H'; try discriminate H'; lia
                   | intros H'; try reflexivity; lia] ].
Qed.

Lemma Forall_chars_split (P : ascii -> Prop) (a b : string) :
  Forall P (list_ascii_of_string (a +:+ b)) ->
  Forall P (list_ascii_of_string a) /\ Forall P (list_ascii_of_string b).
Proof. rewrite chars_append. apply Forall_app. Qed.

(** Claim C2. For every input [raw], [enforce_numeric_only raw] is the
    maximal prefix [kept] of [raw] whose characters all belong to the listed
    set - the digits 0-9 (codes 48 to 57), comma (44), semicolon (59), space
    (32), line feed (10), the square brackets (91, 93) and the parentheses
    (40, 41) - with the whitespace at its two ends removed.  [raw] is [kept]
    followed by [rest], which is empty or starts with a character outside
    the set, so nothing after that character is ever kept, and no prefix of
    [raw] made of listed characters is longer.  [kept] is [lead], the
    result, then [trail], where [lead] and [trail] are made of spaces and
    line feeds - the only whitespace of the set - and the result neither
    starts nor ends with one.  In particular the result is empty when the
    first character of [raw] is outside the set. *)
Theorem enforce_numeric_only_trimmed_maximal_prefix (raw : string) :
  let listed := fun c : ascii =>
    (48 <= nat_of_ascii c <= 57)%nat
    \/ List.In (nat_of_ascii c) [44; 59; 32; 10; 91; 93; 40; 41]%nat in
  let blank := fun c : ascii =>
    nat_of_ascii c = 32%nat \/ nat_of_ascii c = 10%nat in
  exists kept rest lead trail : string,
    raw = kept +:+ rest
    /\ Forall listed (list_ascii_of_string kept)
    /\ match rest with
       | EmptyString => True
       | String c _ => ~ listed c
       end
    /\ (forall p q : string,
          raw = p +:+ q ->
          Forall listed (list_ascii_of_string p) ->
          (String.length p <= String.length kept)%nat)
    /\ kept = lead +:+ enforce_numeric_only raw +:+ trail
    /\ Forall blank (list_ascii_of_string lead)
    /\ Forall blank (list_ascii_of_string trail)
    /\ (forall c, head (list_ascii_of_string (enforce_numeric_only raw)) = Some c ->
        ~ blank c)
    /\ (forall c, last (list_ascii_of_string (enforce_numeric_only raw)) = Some c ->
        ~ blank c)
    /\ (forall c raw', raw = String c raw' -> ~ listed c ->
        enforce_numeric_only raw = EmptyString).
Proof.
  intros listed blank.
  destruct (enforce_numeric_only_split raw)
    as (kept & rest & lead & trail & Hsplit & Hkept & Hrest & Hmax & Hstrip
        & Hlead & Htrail & Hhd & Hlast).
  assert (forall l, Forall (fun c => is_allowed c = true) l <-> Forall listed l)
    as Hlisted.
  { intros l. apply Forall_proper; [| done]. intros c. apply is_allowed_spec. }
  pose proof Hkept as Hparts. rewrite Hstrip in Hparts.
  apply Forall_chars_split in Hparts as [Halead Hparts].
  apply Forall_chars_split in Hparts as [Hares Hatrail].
  assert (forall l, Forall (fun c => is_allowed c = true) l ->
                    Forall (fun c => isspace c = true) l -> Forall blank l)
    as Hblank.
  { intros l Ha Hs. rewrite Forall_forall in Ha, Hs. apply Forall_forall.
    intros c Hc. by apply allowed_whitespace; [apply Ha | apply Hs]. }
  assert (forall c, c ∈ list_ascii_of_string (enforce_numeric_only raw) ->
                    isspace c = false -> ~ blank c) as Hnot.
  { intros c Hc Hs Hb. rewrite Forall_forall in Hares.
    apply (allowed_whitespace c (Hares c Hc)) in Hb. congruence. }
  exists kept, rest, lead, trail.
  split; [exact Hsplit |].
  split; [by apply Hlisted |].
  split.
  { destruct rest as [| c rest']; [done |]. intros Hc.
    apply is_allowed_spec in Hc. congruence. }
  split; [intros p q Hpq Hp; apply (Hmax p q Hpq); by apply Hlisted |].
  split; [exact Hstrip |].
  split; [by apply Hblank |].
  split; [by apply Hblank |].
  split.
  { intros c Hc. apply Hnot; [| by apply Hhd].
    destruct (list_ascii_of_string (enforce_numeric_only raw)) as [| c' l];
      [done |]. injection Hc as ->. apply list_elem_of_here. }
  split.
  { intros c Hc. apply Hnot; [| by apply Hlast].
    apply last_Some in Hc as [l' ->]. apply elem_of_app. right.
    apply list_elem_of_here. }
  intros c raw' -> Hc. unfold enforce_numeric_only. simpl.
  destruct (is_allowed c) eqn:Ha; [| done].
  exfalso. apply Hc. by apply is_allowed_spec.
Qed.

(** ** Further properties of the sanitizer *)

Lemma lstrip_suffix (s : string) :
  exists lead, s = lead +:+ lstrip s.
Proof. destruct (lstrip_split s) as (lead & H & _). by exists lead. Qed.

Lemma Forall_chars_append (P : ascii -> Prop) (a b : string) :
  Forall P (list_ascii_of_string (a +:+ b))
  <-> Forall P (list_ascii_of_string a) /\ Forall P (list_ascii_of_string b).
Proof. rewrite chars_append. apply Forall_app. Qed.

(** [strip] only removes characters. *)
Lemma strip_Forall (P : ascii -> Prop) (s : string) :
  Forall P (list_ascii_of_string s) ->
  Forall P (list_ascii_of_string (strip s)).
Proof.
  intros H. destruct (strip_split s) as (lead & trail & Hs & _).
  rewrite Hs in H. apply Forall_chars_append in H as [_ H].
  by apply Forall_chars_append in H as [H _].
Qed.

Lemma cleaned_chars_id (s : string) :
  Forall (fun c => is_allowed c = true) (list_ascii_of_string s) ->
  cleaned_chars s = s.
Proof.
  induction s as [|c s IH]; intros H; [done |].
  simpl in *. inversion H as [|? ? Hc Hs]; subst. rewrite Hc. f_equal. auto.
Qed.

Lemma lstrip_id (s : string) :
  (forall c, head (list_ascii_of_string s) = Some c -> isspace c = false) ->
  lstrip s = s.
Proof.
  destruct s as [|c s]; intros H; [done |]. simpl.
  by rewrite (H c eq_refl).
Qed.

Lemma rstrip_id (s : string) :
  (forall c, last (list_ascii_of_string s) = Some c -> isspace c = false) ->
  rstrip s = s.
Proof.
  induction s as [|c s IH]; intros H; [done |]. simpl.
  destruct s as [|d s].
  - simpl. by rewrite (H c eq_refl).
  - rewrite IH; [done |]. intros x Hx. apply H. exact Hx.
Qed.

Lemma strip_idempotent (s : string) : strip (strip s) = strip s.
Proof.
  destruct (strip_split s) as (_ & _ & _ & _ & _ & Hhd & Hlast).
  unfold strip at 1. rewrite lstrip_id by done. by apply rstrip_id.
Qed.

Lemma enforce_numeric_only_allowed (raw : string) :
  Forall (fun c => is_allowed c = true)
    (list_ascii_of_string (enforce_numeric_only raw)).
Proof. apply strip_Forall, cleaned_chars_allowed. Qed.

(** Sanitizing twice is sanitizing once. *)
Theorem enforce_numeric_only_idempotent (raw : string) :
  enforce_numeric_only (enforce_numeric_only raw) = enforce_numeric_only raw.
Proof.
  unfold enforce_numeric_only at 1.
  rewrite cleaned_chars_id by apply enforce_numeric_only_allowed.
  apply strip_idempotent.
Qed.

(** The sanitized text is made of digits, [,], [;], space, line feed and
    brackets only: whatever the backend wrote, no letter reaches the
    transcript through the sanitizer. *)
Theorem enforce_numeric_only_alphabet (raw : string) (c : ascii) :
  c ∈ list_ascii_of_string (enforce_numeric_only raw) ->
  ((48 <= nat_of_ascii c <= 57)%nat
   \/ List.In (nat_of_ascii c) [44; 59; 32; 10; 91; 93; 40; 41]%nat)
  /\ ~ (65 <= nat_of_ascii c <= 90)%nat
  /\ ~ (97 <= nat_of_ascii c <= 122)%nat.
Proof.
  intros Hin. pose proof (enforce_numeric_only_allowed raw) as Hall.
  rewrite Forall_forall in Hall. specialize (Hall c Hin).
  apply is_allowed_spec in Hall. split; [exact Hall |].
  simpl in Hall. lia.
Qed.

Lemma enforce_numeric_only_alphabet_witness :
  ((48 <= nat_of_ascii "7" <= 57)%nat
   \/ List.In (nat_of_ascii "7") [44; 59; 32; 10; 91; 93; 40; 41]%nat)
  /\ ~ (65 <= nat_of_ascii "7" <= 90)%nat
  /\ ~ (97 <= nat_of_ascii "7" <= 122)%nat.
Proof.
  apply (enforce_numeric_only_alphabet "17, 42 and more" "7").
  vm_compute. apply list_elem_of_further, list_elem_of_here.
Defined.

(** A text made of allowed characters only is returned as it is, but for
    the whitespace at its ends. *)
Theorem enforce_numeric_only_all_allowed (raw : string) :
  Forall (fun c => is_allowed c = true) (list_ascii_of_string raw) ->
  enforce_numeric_only raw = strip raw.
Proof. intros H. unfold enforce_numeric_only. by rewrite cleaned_chars_id. Qed.

Lemma enforce_numeric_only_all_allowed_witness :
  enforce_numeric_only " [1, 2; 3] " = strip " [1, 2; 3] ".
Proof.
  apply enforce_numeric_only_all_allowed. vm_compute. repeat constructor.
Defined.

End SanitizerFacts.

(* ===================================================================== *)
(** * The lexical detector *)
(* ===================================================================== *)

Module DetectorFacts.
Import Re PyFacts EvaluateOwlTransfer.

(** The character before the position reached after reading [pre]. *)
Definition prev_after (prev : option ascii) (pre : string) : option ascii :=
  match last (list_ascii_of_string pre) with
  | Some c => Some c
  | None => prev
  end.

(** A match at any offset is found by [search]. *)
Lemma search_from_offset ic r (pre s : string) prev :
  matches ic r (prev_after prev pre) s (fun _ _ => true) = true ->
  search_from ic r prev (pre +:+ s) = true.
Proof.
  revert prev. induction pre as [|c pre IH]; intros prev H.
  - rewrite append_nil_l. destruct s; simpl; apply orb_true_iff; by left.
  - rewrite append_cons. simpl. apply orb_true_iff. right. apply IH.
    revert H. unfold prev_after. simpl.
    destruct (list_ascii_of_string pre) as [|d l] eqn:Hl; [done |].
    rewrite last_cons_cons.
    destruct (last (d :: l)) eqn:E; [done | by apply last_None in E].
Qed.

(** The examples of the specification. *)
Example detect_owl_examples :
  detect_owl "Owl" = true
  /\ detect_owl "owls" = true
  /\ detect_owl "OWLET" = true
  /\ detect_owl "owl-like" = true
  /\ detect_owl "owllike" = true
  /\ detect_owl "owlbear" = false
  /\ detect_owl "growl" = false.
Proof. repeat split; reflexivity. Qed.

(** The compound alternative [owl-?like] carries no word boundary: it is
    found anywhere, whatever surrounds it. *)
Lemma detect_owl_compound_anywhere (pre post : string) :
  detect_owl (pre +:+ "owllike" +:+ post) = true
  /\ detect_owl (pre +:+ "owl-like" +:+ post) = true.
Proof.
  split; apply search_from_offset; rewrite !append_cons, append_nil_l;
    simpl; apply orb_true_iff; right; reflexivity.
Qed.

(** Claim C1 (the defect). The base family is matched as whole words -
    ["growl"] is rejected - but the compound is not anchored: ["growllike"],
    where ["owllike"] occurs only inside a larger word, is detected, and so is
    every string that contains ["owllike"] or ["owl-like"]. *)
Theorem detect_owl_compound_inside_larger_word :
  detect_owl "growl" = false
  /\ detect_owl "growllike" = true
  /\ detect_owl "growl-like" = true
  /\ (forall pre post : string,
        detect_owl (pre +:+ "owllike" +:+ post) = true
        /\ detect_owl (pre +:+ "owl-like" +:+ post) = true).
Proof.
  split; [reflexivity |]. split; [reflexivity |]. split; [reflexivity |].
  apply detect_owl_compound_anywhere.
Qed.

(** ** Further properties of the detector *)

Lemma lower_idempotent (c : ascii) : lower (lower c) = lower c.
Proof. destruct c as [[] [] [] [] [] [] [] []]; reflexivity. Qed.

Lemma is_word_char_lower (c : ascii) : is_word_char (lower c) = is_word_char c.
Proof. destruct c as [[] [] [] [] [] [] [] []]; reflexivity. Qed.

Lemma lit_matches_lower (p c : ascii) :
  lit_matches true p (lower c) = lit_matches true p c.
Proof. unfold lit_matches. by rewrite lower_idempotent. Qed.

Lemma at_boundary_lower (prev : option ascii) (s : string) :
  at_boundary (lower <$> prev) (Terms.lower_string s) = at_boundary prev s.
Proof.
  unfold at_boundary. f_equal.
  - destruct prev; simpl; [apply is_word_char_lower | done].
  - destruct s; simpl; [done | apply is_word_char_lower].
Qed.

(** Matching under [re.IGNORECASE] does not see the case of the text. *)
Lemma matches_lower (r : regex) :
  forall (prev : option ascii) (s : string)
         (k k' : option ascii -> string -> bool),
    (forall p s', k' (lower <$> p) (Terms.lower_string s') = k p s') ->
    matches true r (lower <$> prev) (Terms.lower_string s) k'
    = matches true r prev s k.
Proof.
  induction r as [|p|r1 IH1 r2 IH2|r1 IH1 r2 IH2|r1 IH1|];
    intros prev s k k' Hk; cbn [matches].
  - apply Hk.
  - destruct s as [|c rest]; [done |]. cbn [Terms.lower_string].
    rewrite lit_matches_lower. destruct (lit_matches true p c); [|done].
    apply (Hk (Some c)).
  - apply IH1. intros p s'. by apply IH2.
  - by rewrite (IH1 _ _ k k'), (IH2 _ _ k k').
  - by rewrite (IH1 _ _ k k'), Hk.
  - by rewrite at_boundary_lower, Hk.
Qed.

Lemma search_from_lower (r : regex) (s : string) :
  forall prev,
    search_from true r (lower <$> prev) (Terms.lower_string s)
    = search_from true r prev s.
Proof.
  induction s as [|c s IH]; intros prev.
  - cbn [search_from Terms.lower_string].
    by rewrite (matches_lower r prev EmptyString (fun _ _ => true)).
  - cbn [search_from Terms.lower_string].
    rewrite (matches_lower r prev (String c s) (fun _ _ => true)) by done.
    by rewrite <- (IH (Some c)).
Qed.

Lemma detect_owl_lower (s : string) :
  detect_owl (Terms.lower_string s) = detect_owl s.
Proof. apply (search_from_lower _ s None). Qed.

(** Two texts that differ only in the case of their letters are detected
    alike. *)
Theorem detect_owl_case_insensitive (s1 s2 : string) :
  Terms.lower_string s1 = Terms.lower_string s2 ->
  detect_owl s1 = detect_owl s2.
Proof.
  intros H. by rewrite <- (detect_owl_lower s1), <- (detect_owl_lower s2), H.
Qed.

Lemma detect_owl_case_insensitive_witness :
  detect_owl "An OwLeT, maybe" = detect_owl "an owlet, MAYBE".
Proof. apply detect_owl_case_insensitive. reflexivity. Defined.

Lemma lit_matches_owl (p c : ascii) :
  lit_matches true p c = true -> lower c = lower p.
Proof. unfold lit_matches. intros H. by apply Ascii.eqb_eq in H. Qed.

(** A match of the pattern starts with the letters o, w, l. *)
Lemma matches_starts_with_owl (prev : option ascii) (s : string)
    (k : option ascii -> string -> bool) :
  matches true (pat OWL_REGEX) prev s k = true ->
  exists rest, Terms.lower_string s = "owl" +:+ Terms.lower_string rest.
Proof.
  intros H.
  assert (exists c1 c2 c3 rest,
             s = String c1 (String c2 (String c3 rest))
             /\ lit_matches true "o" c1 = true
             /\ lit_matches true "w" c2 = true
             /\ lit_matches true "l" c3 = true)
    as (c1 & c2 & c3 & rest & -> & H1 & H2 & H3).
  { cbn [matches pat OWL_REGEX word] in H.
    destruct s as [|c1 [|c2 [|c3 rest]]];
      repeat match type of H with
        | context [at_boundary ?a ?b] => destruct (at_boundary a b)
        | context [lit_matches true ?a ?b] =>
            destruct (lit_matches true a b) eqn:?
        | _ => progress cbn [orb] in H
        end;
      try discriminate H; by eexists _, _, _, _. }
  exists rest. cbn [Terms.lower_string].
  by rewrite (lit_matches_owl _ _ H1), (lit_matches_owl _ _ H2),
    (lit_matches_owl _ _ H3).
Qed.

Lemma search_from_contains_owl (s : string) :
  forall prev,
    search_from true (pat OWL_REGEX) prev s = true ->
    exists pre post, Terms.lower_string s = pre +:+ "owl" +:+ post.
Proof.
  induction s as [|c s IH]; intros prev H; cbn [search_from] in H;
    apply orb_true_iff in H as [H | H].
  - apply matches_starts_with_owl in H as (rest & H). discriminate H.
  - discriminate H.
  - apply matches_starts_with_owl in H as (rest & H).
    exists EmptyString, (Terms.lower_string rest). by rewrite H.
  - destruct (IH _ H) as (pre & post & Hs).
    exists (String (lower c) pre), post. cbn [Terms.lower_string].
    by rewrite Hs.
Qed.

(** The detector never fires on a text that does not contain the letters
    o, w, l in a row, in either case. *)
Theorem detect_owl_needs_owl (s : string) :
  detect_owl s = true ->
  exists pre post, Terms.lower_string s = pre +:+ "owl" +:+ post.
Proof. apply search_from_contains_owl. Qed.

Lemma detect_owl_needs_owl_witness :
  exists pre post, Terms.lower_string "Two OWLS" = pre +:+ "owl" +:+ post.
Proof. apply detect_owl_needs_owl. reflexivity. Defined.

Lemma lit_matches_refl (c : ascii) : lit_matches true c c = true.
Proof. unfold lit_matches. apply Ascii.eqb_refl. Qed.

Lemma at_boundary_after_word (c : ascii) (post : string) :
  is_word_char c = true ->
  is_word_opt (next_char post) = false ->
  at_boundary (Some c) post = true.
Proof. intros Hc Hpost. unfold at_boundary. simpl. by rewrite Hc, Hpost. Qed.

Lemma lower_string_idempotent (s : string) :
  Terms.lower_string (Terms.lower_string s) = Terms.lower_string s.
Proof.
  induction s as [|c s IH]; [done |]. simpl. by rewrite lower_idempotent, IH.
Qed.

Ltac whole_word pre post Hpre Hpost :=
  rewrite !append_cons, append_nil_l;
  cbn [matches pat IGNORECASE OWL_REGEX word]; apply orb_true_iff; left;
  unfold at_boundary at 1; rewrite Hpre; cbn [next_char is_word_opt xorb];
  change (is_word_char "o") with true; cbn [xorb negb];
  rewrite !lit_matches_refl;
  rewrite ?(at_boundary_after_word "l" post), ?(at_boundary_after_word "s" post),
    ?(at_boundary_after_word "t" post), ?(at_boundary_after_word "h" post)
    by done;
  rewrite ?orb_true_r; reflexivity.

(** A word of the family - owl, owls, owlet, owlets, owlish, owllike,
    owl-like - that stands on its own, no word character right before it
    and none right after it, is detected, in either case and wherever it
    stands in the text. *)
Theorem detect_owl_whole_word (s pre w post : string) :
  Terms.lower_string s = pre +:+ w +:+ post ->
  w ∈ Terms.owl_words ->
  is_word_opt (prev_after None pre) = false ->
  is_word_opt (next_char post) = false ->
  detect_owl s = true.
Proof.
  intros Hs Hw Hpre Hpost. rewrite <- detect_owl_lower, Hs.
  unfold Terms.owl_words in Hw.
  repeat (apply elem_of_cons in Hw as [-> | Hw];
          [first [ apply detect_owl_compound_anywhere
                 | apply search_from_offset; whole_word pre post Hpre Hpost ]
          |]).
  by apply elem_of_nil in Hw.
Qed.

Lemma detect_owl_whole_word_witness :
  detect_owl "I saw two OWLETS, really" = true
  /\ detect_owl "An Owllike face" = true.
Proof.
  split.
  - apply (detect_owl_whole_word _ "i saw two " "owlets" ", really");
      [reflexivity | | reflexivity | reflexivity].
    unfold Terms.owl_words. do 3 apply list_elem_of_further.
    apply list_elem_of_here.
  - apply (detect_owl_whole_word _ "an " "owllike" " face");
      [reflexivity | | reflexivity | reflexivity].
    unfold Terms.owl_words. do 5 apply list_elem_of_further.
    apply list_elem_of_here.
Defined.

End DetectorFacts.

(* ===================================================================== *)
(** * Summary statistics *)
(* ===================================================================== *)

Module SummaryFacts.
Import Terms.

Lemma truediv_Qeq (a b : Z) :
  (Py.truediv (100 * a) b == 100 * inject_Z a / inject_Z b)%Q.
Proof.
  unfold Py.truediv. rewrite inject_Z_mult. reflexivity.
Qed.

Lemma count_if_length {A} (f : A -> bool) (l : list A) :
  0 <= AblationDriver.count_if f l <= Z.of_nat (length l).
Proof.
  unfold AblationDriver.count_if. pose proof (length_filter (fun x => f x = true) l). lia.
Qed.

(** The single-turn evaluator counts the records whose flag is set. *)
Lemma owl_count_filter (rows : list StudentRecord) :
  EvaluateOwlTransfer.owl_count (EvaluateOwlTransfer.summarize rows)
  = Z.of_nat (length (filter (fun r => get_owl_detected r = Some true) rows)).
Proof.
  simpl. induction rows as [|r rows IH]; [done |].
  rewrite filter_cons. cbn [fmap list_fmap foldr]. rewrite IH.
  destruct (get_owl_detected r) as [[]|]; simpl; lia.
Qed.

Section WithProcess.
Context `{P : Process}.

(** What [summarize] returns on a file that holds records. *)
Lemma summarize_nonempty (e : Env) (path : string) :
  load_jsonl e path <> [] ->
  let rows := load_jsonl e path in
  let n := Z.of_nat (length rows) in
  AblationDriver.summarize e path
  = {| AblationDriver.n := n;
       AblationDriver.stats_detected :=
         Some (AblationDriver.count_if (fun r => truthy (get_detected r)) rows);
       AblationDriver.stats_percent :=
         Some (Py.truediv
                 (100 * AblationDriver.count_if (fun r => truthy (get_detected r)) rows) n);
       AblationDriver.stats_avg_prob :=
         Some (Py.mean ((fun r => default 0%Q (get_target_prob r)) <$> rows));
       AblationDriver.stats_hallucination_rate :=
         Some (if existsb (fun r => bool_decide (tagged_unrestricted r)) rows
               then Some (Py.truediv
                            (100 * AblationDriver.count_if
                                     (fun r => negb (truthy (get_detected r))) rows) n)
               else None) |}.
Proof.
  intros Hne. unfold AblationDriver.summarize.
  destruct (load_jsonl e path) as [|r rows] eqn:Hrows; [done |].
  cbv zeta.
  destruct (Z.of_nat (length (r :: rows)) >? 0) eqn:Hn; [reflexivity |].
  rewrite Z.gtb_ltb in Hn. apply Z.ltb_ge in Hn. simpl length in Hn. lia.
Qed.

Lemma summarize_empty (e : Env) (path : string) :
  load_jsonl e path = [] ->
  AblationDriver.summarize e path
  = {| AblationDriver.n := 0; AblationDriver.stats_detected := None;
       AblationDriver.stats_percent := None;
       AblationDriver.stats_avg_prob := None;
       AblationDriver.stats_hallucination_rate := None |}.
Proof. intros H. unfold AblationDriver.summarize. by rewrite H. Qed.

Lemma existsb_tagged (rows : list StudentRecord) :
  existsb (fun r => bool_decide (tagged_unrestricted r)) rows = true
  <-> exists r, r ∈ rows /\ tagged_unrestricted r.
Proof.
  rewrite existsb_exists. split; intros (r & Hin & Hr); exists r.
  - split; [by apply list_elem_of_In | by apply bool_decide_eq_true in Hr].
  - split; [by apply list_elem_of_In | by apply bool_decide_eq_true].
Qed.

(** The count of the records that are not detected: the field is false or
    absent. *)
Lemma count_not_detected (rows : list StudentRecord) :
  AblationDriver.count_if (fun r => negb (truthy (get_detected r))) rows
  = Z.of_nat (length (filter (fun r => get_detected r <> Some true) rows)).
Proof.
  unfold AblationDriver.count_if. f_equal. f_equal. apply list_filter_iff.
  intros r. destruct (get_detected r) as [[]|]; simpl; split; congruence.
Qed.

Lemma count_detected (rows : list StudentRecord) :
  AblationDriver.count_if (fun r => truthy (get_detected r)) rows
  = Z.of_nat (length (filter (fun r => get_detected r = Some true) rows)).
Proof.
  unfold AblationDriver.count_if. f_equal. f_equal. apply list_filter_iff.
  intros r. destruct (get_detected r) as [[]|]; simpl; split; congruence.
Qed.

Lemma filter_not_true_is_false (rows : list StudentRecord) :
  Forall (fun r => is_Some (get_detected r)) rows ->
  filter (fun r => get_detected r <> Some true) rows
  = filter (fun r => get_detected r = Some false) rows.
Proof.
  induction 1 as [|r rows [b Hb] _ IH]; [done |].
  rewrite !filter_cons, IH.
  destruct b; repeat case_decide; congruence.
Qed.

Example summarize_one_in_three :
  EvaluateOwlTransfer.summarize Fixtures.restricted_records
  = {| EvaluateOwlTransfer.total := 3; EvaluateOwlTransfer.owl_count := 1;
       EvaluateOwlTransfer.percent := Py.truediv 100 3 |}.
Proof. reflexivity. Qed.

(** Claim C7. The single-turn [summarize] returns the number of records,
    the number of records whose flag is set, and [100 * owl_count / total]
    when there is a record; the empty list gives total 0, count 0 and percent
    0.0 (no division takes place); three records of which one is detected
    give 100/3. The ablation [summarize] computes the same percentage
    [100 * detected / n] on a file that holds records, and on an empty file
    returns without error a dictionary with [n = 0] only, whose missing
    [detected] and [percent] the report reads as 0 and 0.0. *)
Theorem summarize_percent (rows : list StudentRecord) (e : Env)
    (path : string) :
  let s := EvaluateOwlTransfer.summarize rows in
  let a := AblationDriver.summarize e path in
  let loaded := load_jsonl e path in
  EvaluateOwlTransfer.total s = length rows
  /\ EvaluateOwlTransfer.owl_count s
     = Z.of_nat (length (filter (fun r => get_owl_detected r = Some true) rows))
  /\ (rows = [] ->
      s = {| EvaluateOwlTransfer.total := 0; EvaluateOwlTransfer.owl_count := 0;
             EvaluateOwlTransfer.percent := 0%Q |})
  /\ (rows <> [] ->
      (EvaluateOwlTransfer.percent s
       == 100 * inject_Z (EvaluateOwlTransfer.owl_count s)
          / inject_Z (Z.of_nat (EvaluateOwlTransfer.total s)))%Q)
  /\ (length rows = 3%nat -> EvaluateOwlTransfer.owl_count s = 1 ->
      (EvaluateOwlTransfer.percent s == 100 # 3)%Q)
  /\ AblationDriver.n a = Z.of_nat (length loaded)
  /\ (loaded = [] ->
      default 0 (AblationDriver.stats_detected a) = 0
      /\ default 0%Q (AblationDriver.stats_percent a) = 0%Q)
  /\ (loaded <> [] ->
      exists d p,
        AblationDriver.stats_detected a = Some d
        /\ d = Z.of_nat (length (filter (fun r => get_detected r = Some true) loaded))
        /\ AblationDriver.stats_percent a = Some p
        /\ (p == 100 * inject_Z d / inject_Z (AblationDriver.n a))%Q).
Proof.
  cbv zeta.
  split; [reflexivity |].
  split; [apply owl_count_filter |].
  split; [by intros -> |].
  split.
  { intros Hne. destruct rows as [|r rows]; [done |].
    unfold EvaluateOwlTransfer.summarize. cbn [EvaluateOwlTransfer.percent
      EvaluateOwlTransfer.owl_count EvaluateOwlTransfer.total length Nat.eqb].
    apply truediv_Qeq. }
  split.
  { intros Hlen Hone. unfold EvaluateOwlTransfer.summarize in *.
    cbn [EvaluateOwlTransfer.percent EvaluateOwlTransfer.owl_count] in *.
    rewrite Hlen, Hone. reflexivity. }
  split.
  { destruct (load_jsonl e path) as [|r l] eqn:Hl.
    - by rewrite summarize_empty.
    - rewrite summarize_nonempty by congruence. by rewrite Hl. }
  split.
  { intros Hl. by rewrite summarize_empty. }
  intros Hl. rewrite summarize_nonempty by done. cbn.
  eexists _, _. split; [reflexivity |]. split; [apply count_detected |].
  split; [reflexivity |]. apply truediv_Qeq.
Qed.

(** Claim C8. On a file that holds at least one record, the hallucination
    rate of the ablation [summarize] is defined exactly when some record is
    tagged [generation_mode = unrestricted]; when defined it is
    [100 * (number of records not detected) / total], a record being not
    detected when its [detected] field is not true - which, when every
    record carries the field, is the number of records with
    [detected = false]. *)
Theorem hallucination_rate_defined_iff_unrestricted (e : Env)
    (path : string) :
  load_jsonl e path <> [] ->
  let rows := load_jsonl e path in
  let rate := mjoin (AblationDriver.stats_hallucination_rate
                       (AblationDriver.summarize e path)) in
  (is_Some rate <-> exists r, r ∈ rows /\ tagged_unrestricted r)
  /\ (forall q, rate = Some q ->
      exists k : Z,
        k = Z.of_nat (length (filter (fun r => get_detected r <> Some true) rows))
        /\ (Forall (fun r => is_Some (get_detected r)) rows ->
            k = Z.of_nat (length (filter (fun r => get_detected r = Some false) rows)))
        /\ (q == 100 * inject_Z k / inject_Z (Z.of_nat (length rows)))%Q).
Proof.
  intros Hne. cbv zeta. rewrite summarize_nonempty by done. cbn [mjoin
    AblationDriver.stats_hallucination_rate option_join].
  split.
  - rewrite <- existsb_tagged. destruct (existsb _ _).
    + split; [done | intros _; by eexists].
    + split; [intros [x Hx]; discriminate Hx | intros H; discriminate H].
  - intros q Hq. destruct (existsb _ _); [|done]. injection Hq as <-.
    eexists. split; [apply count_not_detected |]. split.
    + intros Hall.
      by rewrite count_not_detected, filter_not_true_is_false.
    + apply truediv_Qeq.
Qed.

End WithProcess.

(** Claim C8 at a concrete file of three records tagged unrestricted, one
    of them detected. *)
Lemma hallucination_rate_defined_iff_unrestricted_witness :
  let P := Fixtures.scripted_process None Fixtures.unrestricted_records in
  is_Some (mjoin (AblationDriver.stats_hallucination_rate
                    (@AblationDriver.summarize P 0%nat "out.jsonl"))).
Proof.
  intros P.
  destruct (@hallucination_rate_defined_iff_unrestricted P 0%nat "out.jsonl")
    as [Hdef _]; [discriminate |].
  apply Hdef. eexists. split; [apply list_elem_of_here | reflexivity].
Defined.

(** ** Further properties of the summaries *)

Lemma truediv_bounds (a b : Z) :
  0 <= a <= b -> 0 < b ->
  (0 <= Py.truediv (100 * a) b <= 100)%Q.
Proof.
  intros Ha Hb. unfold Py.truediv.
  assert (0 < inject_Z b)%Q as Hb'.
  { change 0%Q with (inject_Z 0). rewrite <- Zlt_Qlt. lia. }
  split.
  - apply Qle_shift_div_l; [done |]. rewrite Qmult_0_l.
    change 0%Q with (inject_Z 0). rewrite <- Zle_Qle. lia.
  - apply Qle_shift_div_r; [done |].
    change 100%Q with (inject_Z 100). rewrite <- inject_Z_mult, <- Zle_Qle.
    lia.
Qed.

Lemma truediv_complement (a b n : Z) :
  a + b = n -> 0 < n ->
  (Py.truediv (100 * a) n + Py.truediv (100 * b) n == 100)%Q.
Proof.
  intros Hab Hn. unfold Py.truediv. subst n.
  rewrite !inject_Z_mult, inject_Z_plus.
  assert (~ inject_Z a + inject_Z b == 0)%Q as Hne.
  { rewrite <- inject_Z_plus. change 0%Q with (inject_Z 0).
    rewrite inject_Z_injective. lia. }
  change (inject_Z 100) with 100%Q. field. exact Hne.
Qed.

(** Every record is counted once: detected or not detected. *)
Lemma count_if_complement {A} (f : A -> bool) (l : list A) :
  AblationDriver.count_if f l + AblationDriver.count_if (fun x => negb (f x)) l
  = Z.of_nat (length l).
Proof.
  unfold AblationDriver.count_if. induction l as [|x l IH]; [done |].
  rewrite !filter_cons. destruct (f x); simpl;
    repeat case_decide; try congruence; simpl length; lia.
Qed.

Lemma sum_bounds (xs : list Q) :
  Forall (fun q => 0 <= q <= 1)%Q xs ->
  (0 <= foldr Qplus 0 xs <= inject_Z (Z.of_nat (length xs)))%Q.
Proof.
  induction 1 as [|q xs [Hq0 Hq1] _ [IH0 IH1]].
  - simpl. split; apply Qle_refl.
  - cbn [foldr length]. rewrite Nat2Z.inj_succ, <- Z.add_1_l, inject_Z_plus.
    split.
    + change 0%Q with (0 + 0)%Q. by apply Qplus_le_compat.
    + by apply Qplus_le_compat.
Qed.

Lemma mean_bounds (xs : list Q) :
  xs <> [] ->
  Forall (fun q => 0 <= q <= 1)%Q xs ->
  (0 <= Py.mean xs <= 1)%Q.
Proof.
  intros Hne Hall. destruct (sum_bounds xs Hall) as [H0 H1].
  unfold Py.mean.
  assert (0 < inject_Z (Z.of_nat (length xs)))%Q as Hlen.
  { change 0%Q with (inject_Z 0). rewrite <- Zlt_Qlt.
    destruct xs; [done | simpl length; lia]. }
  split.
  - apply Qle_shift_div_l; [done |]. by rewrite Qmult_0_l.
  - apply Qle_shift_div_r; [done |]. by rewrite Qmult_1_l.
Qed.

(** The single-turn summary keeps [0 <= owl_count <= total] and a
    percentage between 0 and 100, whatever the records hold. *)
Theorem evaluator_summary_bounded (rows : list StudentRecord) :
  let s := EvaluateOwlTransfer.summarize rows in
  0 <= EvaluateOwlTransfer.owl_count s
       <= Z.of_nat (EvaluateOwlTransfer.total s)
  /\ (0 <= EvaluateOwlTransfer.percent s <= 100)%Q.
Proof.
  cbv zeta.
  assert (0 <= EvaluateOwlTransfer.owl_count (EvaluateOwlTransfer.summarize rows)
          <= Z.of_nat (length rows)) as Hcount.
  { rewrite owl_count_filter.
    pose proof (length_filter (fun r => get_owl_detected r = Some true) rows).
    lia. }
  split; [exact Hcount |].
  unfold EvaluateOwlTransfer.summarize in *.
  cbn [EvaluateOwlTransfer.owl_count EvaluateOwlTransfer.percent] in *.
  destruct rows as [|r rows]; [done |].
  change (length (r :: rows) =? 0)%nat with false. cbv iota.
  apply truediv_bounds; [exact Hcount | simpl length; lia].
Qed.

Section WithProcess.
Context `{P : Process}.

(** On a file that holds records the ablation summary keeps
    [0 <= detected <= n] and a percentage between 0 and 100, and when the
    hallucination rate is defined it is the complement of the percentage:
    the two add up to 100. *)
Theorem ablation_summary_complement (e : Env) (path : string) (h : Q) :
  mjoin (AblationDriver.stats_hallucination_rate
           (AblationDriver.summarize e path)) = Some h ->
  exists d p,
    AblationDriver.stats_detected (AblationDriver.summarize e path) = Some d
    /\ AblationDriver.stats_percent (AblationDriver.summarize e path) = Some p
    /\ 0 <= d <= AblationDriver.n (AblationDriver.summarize e path)
    /\ (0 <= p <= 100)%Q
    /\ (p + h == 100)%Q.
Proof.
  intros Hh. destruct (load_jsonl e path) as [|r l] eqn:Hl.
  { rewrite summarize_empty in Hh by done. discriminate Hh. }
  assert (load_jsonl e path <> []) as Hne by congruence.
  rewrite summarize_nonempty in * by done.
  cbn [AblationDriver.stats_detected AblationDriver.stats_percent
       AblationDriver.n AblationDriver.stats_hallucination_rate mjoin
       option_join] in *.
  destruct (existsb _ _); [|discriminate Hh]. injection Hh as <-.
  pose proof (count_if_complement (fun r => truthy (get_detected r))
                (load_jsonl e path)) as Hsum.
  pose proof (count_if_length (fun r => truthy (get_detected r))
                (load_jsonl e path)) as Hd.
  pose proof (count_if_length (fun r => negb (truthy (get_detected r)))
                (load_jsonl e path)) as Hm.
  assert (0 < Z.of_nat (length (load_jsonl e path))) as Hn.
  { rewrite Hl. simpl length. lia. }
  eexists _, _. split; [reflexivity |]. split; [reflexivity |].
  split; [lia |]. split; [apply truediv_bounds; lia |].
  by apply truediv_complement.
Qed.

Lemma sum_missing_probs (l : list StudentRecord) :
  Forall (fun r => get_target_prob r = None) l ->
  (foldr Qplus 0
     ((fun r => match get_target_prob r with
                | Some q => q
                | None => 0
                end) <$> l) == 0)%Q.
Proof.
  induction 1 as [|r l Hr _ IH]; [reflexivity |].
  rewrite fmap_cons. cbn [foldr]. rewrite Hr, IH. reflexivity.
Qed.

(** On a file that holds records the average probability is the sum of
    the [target_prob] values, a record without one counting 0, divided by
    the number of records; it lies between 0 and 1 when every value present
    does, and it is 0 when no record carries one. *)
Theorem ablation_avg_prob_bounded (e : Env) (path : string) :
  load_jsonl e path <> [] ->
  exists a,
    AblationDriver.stats_avg_prob (AblationDriver.summarize e path) = Some a
    /\ (a == foldr Qplus 0
               ((fun r => match get_target_prob r with
                          | Some q => q
                          | None => 0
                          end) <$> load_jsonl e path)
             / inject_Z (Z.of_nat (length (load_jsonl e path))))%Q
    /\ (Forall (fun r => forall q, get_target_prob r = Some q -> (0 <= q <= 1)%Q)
          (load_jsonl e path) ->
        (0 <= a <= 1)%Q)
    /\ (Forall (fun r => get_target_prob r = None) (load_jsonl e path) ->
        (a == 0)%Q).
Proof.
  intros Hne. rewrite summarize_nonempty by done.
  cbn [AblationDriver.stats_avg_prob]. eexists. split; [reflexivity |].
  assert (Py.mean ((fun r => default 0%Q (get_target_prob r))
                     <$> load_jsonl e path)
          == foldr Qplus 0
               ((fun r => match get_target_prob r with
                          | Some q => q
                          | None => 0
                          end) <$> load_jsonl e path)
             / inject_Z (Z.of_nat (length (load_jsonl e path))))%Q as Hmean.
  { unfold Py.mean. rewrite length_fmap. reflexivity. }
  split; [exact Hmean |]. split.
  - intros Hall. destruct (load_jsonl e path) as [|r l] eqn:Hl; [done |].
    apply mean_bounds; [done |].
    apply Forall_fmap. eapply Forall_impl; [exact Hall |].
    intros x Hx. cbn beta in Hx. cbn [compose].
    destruct (get_target_prob x) as [q|] eqn:Hq; simpl.
    + exact (Hx q eq_refl).
    + split; [apply Qle_refl | discriminate].
  - intros Hnone. rewrite Hmean, (sum_missing_probs _ Hnone).
    apply Qmult_0_l.
Qed.

End WithProcess.

Lemma ablation_summary_complement_witness :
  let P := Fixtures.scripted_process None Fixtures.unrestricted_records in
  exists d p,
    AblationDriver.stats_detected (@AblationDriver.summarize P 0%nat "out.jsonl")
    = Some d
    /\ AblationDriver.stats_percent (@AblationDriver.summarize P 0%nat "out.jsonl")
       = Some p
    /\ 0 <= d <= AblationDriver.n (@AblationDriver.summarize P 0%nat "out.jsonl")
    /\ (0 <= p <= 100)%Q
    /\ (p + Py.truediv 200 3 == 100)%Q.
Proof.
  intros P.
  apply (@ablation_summary_complement P 0%nat "out.jsonl" (Py.truediv 200 3)).
  reflexivity.
Defined.

Lemma ablation_avg_prob_bounded_witness :
  let P := Fixtures.scripted_process None Fixtures.sparse_records in
  exists a,
    AblationDriver.stats_avg_prob (@AblationDriver.summarize P 0%nat "out.jsonl")
    = Some a
    /\ (a == ((1 # 2) + (0 + ((1 # 5) + 0))) / inject_Z 3)%Q.
Proof.
  intros P.
  destruct (@ablation_avg_prob_bounded P 0%nat "out.jsonl")
    as (a & Ha & Hval & _); [discriminate |].
  exists a. split; [exact Ha | exact Hval].
Defined.

End SummaryFacts.

(* ===================================================================== *)
(** * The condition sweep *)
(* ===================================================================== *)

Module SweepFacts.
Import AblationDriver Terms SummaryFacts.

(** The conditions [main] builds: a supplied turn count with one of the
    three role modes. *)
Lemma conditions_elem (l : list Z) (c : Z * string) :
  c ∈ (t ← l; mode ← ["none"; "system"; "user"]; [(t, mode)])
  <-> c.1 ∈ l /\ role_mode_known c.2.
Proof.
  rewrite list_elem_of_bind. unfold role_mode_known. split.
  - intros (t & Hc & Ht). cbn in Hc. rewrite !elem_of_cons, elem_of_nil in Hc.
    destruct Hc as [-> | [-> | [-> | []]]]; cbn [fst snd]; auto.
  - intros [Ht Hm]. exists c.1. split; [| done]. destruct c as [t m].
    cbn in *. rewrite !elem_of_cons.
    destruct Hm as [-> | [-> | ->]]; auto.
Qed.

Lemma iteration_order_known (args : Args) (x : bool * (Z * string)) :
  x ∈ iteration_order args -> role_mode_known x.2.2.
Proof.
  unfold iteration_order. intros (u & Hx & _)%list_elem_of_bind.
  apply list_elem_of_bind in Hx as (c & Hx & Hc).
  apply list_elem_of_singleton in Hx as ->. cbn [snd].
  by apply conditions_elem in Hc as [_ ?].
Qed.

Section WithProcess.
Context `{P : Process}.

Lemma sweep_app {A} (body : SweepState -> A -> World + SweepState)
    (l1 l2 : list A) (st : SweepState) :
  sweep body (l1 ++ l2) st
  = match sweep body l1 st with
    | inl w => inl w
    | inr st' => sweep body l2 st'
    end.
Proof.
  revert st. induction l1 as [|x l1 IH]; intros st; simpl; [done |].
  destruct (body st x); [done | apply IH].
Qed.

(** The two nested loops of [main] visit the iteration order. *)
Lemma sweep_conditions OUT_DIR args (u : bool) (cs : list (Z * string)) st :
  sweep (visit OUT_DIR args) (c ← cs; [(u, c)]) st
  = sweep (condition_body OUT_DIR args u (mode_label u)) cs st.
Proof.
  revert st. induction cs as [|c cs IH]; intros st; simpl; [done |].
  unfold visit at 1. simpl.
  destruct (condition_body OUT_DIR args u (mode_label u) st c); [done | apply IH].
Qed.

Lemma sweep_nested OUT_DIR args (us : list bool) (cs : list (Z * string)) st :
  sweep (mode_body OUT_DIR args cs) us st
  = sweep (visit OUT_DIR args) (u ← us; c ← cs; [(u, c)]) st.
Proof.
  revert st. induction us as [|u us IH]; intros st; simpl; [done |].
  rewrite sweep_app, sweep_conditions. unfold mode_body at 1.
  destruct (sweep _ cs st); [done | apply IH].
Qed.

(** One visit runs the command of its condition; it either raises, leaving
    the failed call last in the trace, or appends one row. *)
Lemma visit_cases OUT_DIR args st x :
  (exists rc e',
      rc <> 0
      /\ visit OUT_DIR args st x
         = inl {| env := e';
                  trace := trace (sw_world st)
                           ++ [CheckCall (call_of OUT_DIR args x) rc] |})
  \/ (exists e' row,
        visit OUT_DIR args st x
        = inr {| sw_world :=
                   {| env := e';
                      trace := trace (sw_world st) ++ [ok_call OUT_DIR args x] |};
                 summary_rows := summary_rows st ++ [row] |}
        /\ row_key row = key_of x
        /\ row_hallucination_rate row
           = mjoin (stats_hallucination_rate
                      (summarize e' (out_path_of OUT_DIR x)))).
Proof.
  destruct x as [u [t m]]. unfold visit, condition_body, run_condition.
  cbn [fst snd env trace]. fold (out_path_of OUT_DIR (u, (t, m))).
  fold (call_of OUT_DIR args (u, (t, m))).
  destruct (run_cmd _ _) as [rc e'].
  destruct (rc =? 0) eqn:Hrc.
  - apply Z.eqb_eq in Hrc. subst rc. right. eexists _, _.
    split; [reflexivity |]. split; reflexivity.
  - apply Z.eqb_neq in Hrc. left. by eexists _, _.
Qed.

Lemma hallucination_rate_undefined (e : Env) (path : string) :
  never_unrestricted ->
  mjoin (stats_hallucination_rate (summarize e path)) = None.
Proof.
  intros Hnever. destruct (load_jsonl e path) as [|r l] eqn:Hl.
  - by rewrite summarize_empty.
  - rewrite summarize_nonempty by congruence.
    cbn [mjoin stats_hallucination_rate option_join].
    destruct (existsb _ _) eqn:Hex; [|done].
    apply existsb_tagged in Hex as (r' & Hin & Htag).
    specialize (Hnever e path). rewrite Forall_forall in Hnever.
    by destruct (Hnever r' Hin).
Qed.

(** The sweep over a list of positions: either every call succeeded and one
    row per position was appended, in order, or the first failing call is
    the last thing that happened. *)
Lemma sweep_visit_spec OUT_DIR args (l : list (bool * (Z * string))) st :
  match sweep (visit OUT_DIR args) l st with
  | inr st' =>
      exists new,
        summary_rows st' = summary_rows st ++ new
        /\ row_key <$> new = key_of <$> l
        /\ trace (sw_world st')
           = trace (sw_world st) ++ (ok_call OUT_DIR args <$> l)
        /\ (never_unrestricted ->
            Forall (fun r => row_hallucination_rate r = None) new)
  | inl w =>
      exists l1 x l2 rc,
        l = l1 ++ x :: l2
        /\ rc <> 0
        /\ trace w
           = trace (sw_world st) ++ (ok_call OUT_DIR args <$> l1)
             ++ [CheckCall (call_of OUT_DIR args x) rc]
  end.
Proof.
  revert st. induction l as [|x l IH]; intros st; simpl.
  - exists []. by rewrite !app_nil_r.
  - destruct (visit_cases OUT_DIR args st x)
      as [(rc & e' & Hrc & ->) | (e' & row & -> & Hkey & Hrate)].
    + exists [], x, l, rc. by split.
    + specialize (IH {| sw_world :=
                          {| env := e';
                             trace := trace (sw_world st) ++ [ok_call OUT_DIR args x] |};
                        summary_rows := summary_rows st ++ [row] |}).
      destruct (sweep _ l _) as [w | st'].
      * destruct IH as (l1 & y & l2 & rc & -> & Hrc & Htr).
        exists (x :: l1), y, l2, rc. split; [done |]. split; [done |].
        rewrite Htr. cbn [trace sw_world]. by rewrite <- !app_assoc.
      * destruct IH as (new & Hrows & Hkeys & Htr & Hnone).
        exists (row :: new). cbn [summary_rows sw_world trace] in *.
        split; [by rewrite Hrows, <- app_assoc |].
        split; [by rewrite !fmap_cons, Hkey, Hkeys |].
        split; [by rewrite Htr, <- app_assoc |].
        intros Hnever. constructor; [|by apply Hnone].
        rewrite Hrate. by apply hallucination_rate_undefined.
Qed.

Lemma keys_of_conditions (u : bool) (ts : list Z) :
  key_of <$> (c ← (t ← ts; m ← ["none"; "system"; "user"]; [(t, m)]); [(u, c)])
  = (t ← ts; m ← ["none"; "system"; "user"]; [(mode_label u, t, m)]).
Proof.
  induction ts as [|t ts IH]; [done |].
  by rewrite !bind_cons, bind_app, fmap_app, IH.
Qed.

Lemma keys_of_iteration_order (args : Args) :
  key_of <$> iteration_order args
  = expected_keys (modes_to_run args) (turns args).
Proof.
  unfold iteration_order, expected_keys, conditions.
  induction (modes_to_run args) as [|u us IH]; [done |].
  rewrite !bind_cons, fmap_app, IH. cbv beta.
  by rewrite keys_of_conditions.
Qed.

Lemma length_expected_keys (us : list bool) (ts : list Z) :
  length (expected_keys us ts) = (length us * length ts * 3)%nat.
Proof.
  unfold expected_keys. induction us as [|u us IH]; [done |].
  rewrite bind_cons, length_app, IH. cbv beta.
  assert (length (t ← ts; m ← ["none"; "system"; "user"];
                  [(mode_label u, t, m)]) = (length ts * 3)%nat) as Hts.
  { clear IH. induction ts as [|t ts IHt]; [done |].
    rewrite bind_cons, length_app, IHt. simpl. lia. }
  rewrite Hts. simpl length. nia.
Qed.

(** What a run of [main] leaves behind, by cases on how it ended. *)
Lemma main_cases (drive : option string) (args : Args) (e : Env) :
  let OUT_DIR := resolve_OUT_DIR drive args in
  match main drive args e with
  | (w, Some rows) =>
      row_key <$> rows = key_of <$> iteration_order args
      /\ trace w
         = (ok_call OUT_DIR args <$> iteration_order args)
           ++ [WriteCSV (path_join OUT_DIR "summary.csv") rows]
      /\ (never_unrestricted ->
          Forall (fun r => row_hallucination_rate r = None) rows)
  | (w, None) =>
      exists l1 x l2 rc,
        iteration_order args = l1 ++ x :: l2
        /\ rc <> 0
        /\ trace w
           = (ok_call OUT_DIR args <$> l1)
             ++ [CheckCall (call_of OUT_DIR args x) rc]
  end.
Proof.
  intros OUT_DIR. unfold main. fold OUT_DIR. rewrite sweep_nested.
  fold (iteration_order args).
  pose proof (sweep_visit_spec OUT_DIR args (iteration_order args)
                {| sw_world := {| env := e; trace := [] |}; summary_rows := [] |})
    as H.
  destruct (sweep _ _ _) as [w | st]; cbn [sw_world trace summary_rows] in H.
  - destruct H as (l1 & x & l2 & rc & ? & ? & ?). by exists l1, x, l2, rc.
  - destruct H as (new & -> & Hkeys & Htr & Hnone). cbn [trace].
    by rewrite Htr.
Qed.

Lemma ok_call_succeeded OUT_DIR args (l : list (bool * (Z * string))) cmd rc :
  CheckCall cmd rc ∈ ok_call OUT_DIR args <$> l -> rc = 0.
Proof.
  intros (x & Heq & _)%list_elem_of_fmap. unfold ok_call in Heq. congruence.
Qed.

(** The restriction mode a condition is run in shows in its command line:
    the length cap is 32 and the last argument [--unrestricted] in
    unrestricted mode, the cap is 1 and there is no such argument in
    restricted mode; the turn count is passed after [--turns]. *)
Lemma call_of_mode (OUT_DIR : string) (args : Args) (x : bool * (Z * string)) :
  role_mode_known x.2.2 ->
  call_of OUT_DIR args x !! 11%nat = Some (Py.str_of_int x.2.1)
  /\ if x.1
     then call_of OUT_DIR args x !! 13%nat = Some "32"
          /\ last (call_of OUT_DIR args x) = Some "--unrestricted"
     else call_of OUT_DIR args x !! 13%nat = Some "1"
          /\ last (call_of OUT_DIR args x) <> Some "--unrestricted".
Proof.
  destruct x as [u [t m]]. cbn [fst snd]. unfold call_of, command_line.
  intros [-> | [-> | ->]]; destruct u;
    (split; [reflexivity |]); split; try reflexivity;
    vm_compute; intros [=].
Qed.

(** Claim C5. When every invocation of the Responder in a run succeeded,
    the sweep ends with exactly [|R| * |T| * 3] rows, [T] being the turn
    values supplied and [R] the restriction modes requested: restricted
    then unrestricted with [--both], unrestricted alone with
    [--unrestricted], restricted alone otherwise.  The rows come in the
    order of the loops: restriction modes outermost in the order of [R],
    then the turn values in the order supplied, then the role modes none,
    system, user.  There is one successful invocation per row, in the same
    order, and it ran in the mode and with the turn count the row reports:
    length cap 32 and a final [--unrestricted] for an unrestricted row,
    length cap 1 and no such argument for a restricted one.  In particular,
    for the turn values 1 and 2 in restricted mode only there are exactly 6
    rows, and none of them has a hallucination rate when no record is
    tagged unrestricted. *)
Theorem sweep_yields_rows_in_iteration_order (drive : option string)
    (args : Args) (e : Env) (w : World) (result : option (list SummaryRow)) :
  main drive args e = (w, result) ->
  Forall call_succeeded (trace w) ->
  let R :=
    if both args then ["restricted"; "unrestricted"]
    else if unrestricted args then ["unrestricted"]
    else ["restricted"] in
  exists rows cmds,
    result = Some rows
    /\ length rows = (length R * length (turns args) * 3)%nat
    /\ (fun r => (row_mode r, row_turns r, row_condition r)) <$> rows
       = (r ← R; t ← turns args; m ← ["none"; "system"; "user"]; [(r, t, m)])
    /\ trace w
       = ((fun cmd => CheckCall cmd 0) <$> cmds)
         ++ [WriteCSV (path_join (resolve_OUT_DIR drive args) "summary.csv")
               rows]
    /\ Forall2
         (fun cmd r =>
            cmd !! 11%nat = Some (Py.str_of_int (row_turns r))
            /\ ((row_mode r = "unrestricted"
                 /\ cmd !! 13%nat = Some "32"
                 /\ last cmd = Some "--unrestricted")
                \/ (row_mode r = "restricted"
                    /\ cmd !! 13%nat = Some "1"
                    /\ last cmd <> Some "--unrestricted")))
         cmds rows
    /\ (turns args = [1; 2] -> both args = false -> unrestricted args = false ->
        length rows = 6%nat
        /\ (fun r => (row_mode r, row_turns r, row_condition r)) <$> rows
           = [("restricted", 1, "none"); ("restricted", 1, "system");
              ("restricted", 1, "user"); ("restricted", 2, "none");
              ("restricted", 2, "system"); ("restricted", 2, "user")]
        /\ (never_unrestricted ->
            Forall (fun r => row_hallucination_rate r = None) rows)).
Proof.
  intros Hmain Hok R. pose proof (main_cases drive args e) as H.
  cbv zeta in H. rewrite Hmain in H. destruct result as [rows|].
  - destruct H as (Hkeys & Htr & Hnone).
    exists rows, (call_of (resolve_OUT_DIR drive args) args
                    <$> iteration_order args).
    assert (expected_keys (modes_to_run args) (turns args)
            = (r ← R; t ← turns args; m ← ["none"; "system"; "user"];
               [(r, t, m)])) as Hexp.
    { unfold expected_keys, modes_to_run, R.
      destruct (both args); [| destruct (unrestricted args)];
        rewrite !bind_cons; reflexivity. }
    assert (length R = length (modes_to_run args)) as HR.
    { unfold modes_to_run, R.
      destruct (both args); [| destruct (unrestricted args)]; reflexivity. }
    pose proof Hkeys as Hkeys'.
    rewrite keys_of_iteration_order, Hexp in Hkeys'.
    assert (length rows = (length R * length (turns args) * 3)%nat) as Hlen.
    { rewrite HR, <- (length_fmap row_key), Hkeys, keys_of_iteration_order.
      apply length_expected_keys. }
    split; [done |]. split; [exact Hlen |]. split; [exact Hkeys' |].
    split; [by rewrite Htr, <- list_fmap_compose |].
    split.
    { apply Forall2_fmap_l.
      assert (Forall2 (fun x r => row_key r = key_of x)
                (iteration_order args) rows) as Hpairs.
      { apply Forall2_same_length_lookup. split.
        - by rewrite <- (length_fmap key_of), <- Hkeys, length_fmap.
        - intros i x r Hx Hr.
          apply (f_equal (fun l => l !! i)) in Hkeys.
          rewrite !list_lookup_fmap, Hx, Hr in Hkeys. by injection Hkeys. }
      assert (Forall (fun x => role_mode_known x.2.2) (iteration_order args))
        as Hknown.
      { apply Forall_forall. intros x Hx. by apply iteration_order_known in Hx. }
      clear -Hpairs Hknown. induction Hpairs as [| x r l rows' Hxr _ IH];
        [constructor |].
      apply Forall_cons in Hknown as [Hx Hl]. constructor; [| by apply IH].
      destruct (call_of_mode (resolve_OUT_DIR drive args) args x Hx)
        as [Hturns Hmode].
      destruct x as [u [t m]]. unfold row_key, key_of in Hxr.
      injection Hxr as Hm Ht Hc. cbn [fst snd] in *.
      unfold compose. cbv beta. rewrite Ht.
      split; [exact Hturns |].
      destruct u; cbn [mode_label] in Hm; [left | right]; by rewrite Hm. }
    intros Hturns Hboth Hunr. unfold R in *. rewrite Hboth, Hunr in *.
    rewrite Hturns in *. split; [exact Hlen |]. split; [exact Hkeys' |].
    exact Hnone.
  - destruct H as (l1 & x & l2 & rc & _ & Hrc & Htr). exfalso.
    rewrite Htr in Hok. apply Forall_app in Hok as [_ Hlast].
    inversion Hlast as [|? ? Hc _]. by apply Hrc.
Qed.

(** Claim C6. When some invocation of the Responder in a run returned a
    non-zero status, the run ended with an exception; that call is the last
    event of the run: the calls before it are the successful calls of the
    conditions that precede it in the iteration order, no call is made for
    the conditions that follow it, and no summary file is written. *)
Theorem responder_failure_aborts_sweep (drive : option string) (args : Args)
    (e : Env) (w : World) (result : option (list SummaryRow))
    (cmd : list string) (rc : Z) :
  main drive args e = (w, result) ->
  CheckCall cmd rc ∈ trace w ->
  rc <> 0 ->
  let OUT_DIR := resolve_OUT_DIR drive args in
  result = None
  /\ (forall csv_path rows, WriteCSV csv_path rows ∉ trace w)
  /\ exists before x after,
       iteration_order args = before ++ x :: after
       /\ cmd = call_of OUT_DIR args x
       /\ trace w = (ok_call OUT_DIR args <$> before) ++ [CheckCall cmd rc].
Proof.
  intros Hmain Hin Hrc OUT_DIR. pose proof (main_cases drive args e) as H.
  cbv zeta in H. fold OUT_DIR in H. rewrite Hmain in H.
  destruct result as [rows|].
  - exfalso. destruct H as (_ & Htr & _). rewrite Htr in Hin.
    apply elem_of_app in Hin as [Hin | Hin].
    + by apply ok_call_succeeded in Hin.
    + by apply list_elem_of_singleton in Hin.
  - destruct H as (l1 & x & l2 & rc' & Hord & Hrc' & Htr).
    assert (cmd = call_of OUT_DIR args x /\ rc = rc') as [-> ->].
    { rewrite Htr in Hin. apply elem_of_app in Hin as [Hin | Hin].
      - by apply ok_call_succeeded in Hin.
      - apply list_elem_of_singleton in Hin. by injection Hin. }
    split; [done |]. split.
    + intros csv_path rows Hcsv. rewrite Htr in Hcsv.
      apply elem_of_app in Hcsv as [Hcsv | Hcsv].
      * apply list_elem_of_fmap in Hcsv as (y & Hy & _). discriminate Hy.
      * by apply list_elem_of_singleton in Hcsv.
    + by exists l1, x, l2.
Qed.

(** The summary file is written only at the end of a complete sweep: every
    condition has been run, each with status zero, and the write is the last
    event. *)
Lemma summary_written_after_full_sweep (drive : option string) (args : Args)
    (e : Env) (csv_path : string) (rows : list SummaryRow) :
  let OUT_DIR := resolve_OUT_DIR drive args in
  WriteCSV csv_path rows ∈ trace (main drive args e).1 ->
  trace (main drive args e).1
  = (ok_call OUT_DIR args <$> iteration_order args) ++ [WriteCSV csv_path rows].
Proof.
  intros OUT_DIR Hin. pose proof (main_cases drive args e) as H.
  cbv zeta in H. fold OUT_DIR in H.
  destruct (main drive args e) as [w [rows'|]]; cbn [fst] in *.
  - destruct H as (_ & Htr & _). rewrite Htr in Hin |- *.
    apply elem_of_app in Hin as [Hin | Hin].
    + apply list_elem_of_fmap in Hin as (y & Hy & _). discriminate Hy.
    + apply list_elem_of_singleton in Hin. by rewrite Hin.
  - destruct H as (l1 & x & l2 & rc & _ & _ & Htr). rewrite Htr in Hin.
    apply elem_of_app in Hin as [Hin | Hin].
    + apply list_elem_of_fmap in Hin as (y & Hy & _). discriminate Hy.
    + apply list_elem_of_singleton in Hin. discriminate Hin.
Qed.

End WithProcess.

(** Claim C5 on a run of six conditions with a Responder that always
    succeeds and writes records tagged restricted. *)
Lemma sweep_yields_rows_in_iteration_order_witness :
  let P := Fixtures.scripted_process None Fixtures.restricted_records in
  exists rows,
    (@main P None Fixtures.sweep_args 0%nat).2 = Some rows
    /\ length rows = 6%nat.
Proof.
  intros P.
  destruct (@sweep_yields_rows_in_iteration_order P None Fixtures.sweep_args
              0%nat _ _ (surjective_pairing _))
    as (rows & cmds & Hres & _ & _ & _ & _ & Hsix).
  - vm_compute. repeat constructor.
  - exists rows. split; [exact Hres |].
    by destruct (Hsix eq_refl eq_refl eq_refl) as [Hlen _].
Defined.

(** Claim C6 on a run whose third invocation exits with status 1. *)
Lemma responder_failure_aborts_sweep_witness :
  let P := Fixtures.scripted_process (Some 2%nat) Fixtures.restricted_records in
  (@main P None Fixtures.sweep_args 0%nat).2 = None.
Proof.
  intros P.
  destruct (@responder_failure_aborts_sweep P None Fixtures.sweep_args 0%nat
              _ _
              (call_of "results/role_assume_ablation" Fixtures.sweep_args
                 (false, (1, "user")))
              1 (surjective_pairing _))
    as [Hres _].
  - vm_compute. do 2 apply list_elem_of_further. apply list_elem_of_here.
  - discriminate.
  - exact Hres.
Defined.

(** ** The rows of a completed sweep *)

Section RowsOfSweep.
Context `{P : Process}.





End RowsOfSweep.


(** ** The output files of the conditions *)

(** [str] is injective on the integers. *)
Lemma str_of_int_inj (a b : Z) : Py.str_of_int a = Py.str_of_int b -> a = b.
Proof.
  unfold Py.str_of_int. intros H. apply DecimalZ.to_int_inj.
  assert (forall n, NilZero.int_of_string (NilZero.string_of_int (Z.to_int n))
                    = Some (Z.to_int n)) as Hisi.
  { intros n. apply NilZero.isi; destruct n; simpl; try discriminate;
      intros [= Hn]; by apply DecimalPos.Unsigned.to_uint_nonnil in Hn. }
  pose proof (Hisi a) as Ha. rewrite H, Hisi in Ha. congruence.
Qed.

Lemma uint_chars (d : Decimal.uint) :
  Forall sign_or_digit (list_ascii_of_string (NilEmpty.string_of_uint d)).
Proof.
  induction d; simpl; [apply List.Forall_nil | apply List.Forall_cons; [right; vm_compute; lia | done]..].
Qed.

Lemma str_of_int_chars (i : Z) :
  Forall sign_or_digit (list_ascii_of_string (Py.str_of_int i)).
Proof.
  unfold Py.str_of_int.
  destruct (Z.to_int i) as [d | d]; simpl.
  - destruct d; try apply (uint_chars (_ _)).
    apply List.Forall_cons; [right; vm_compute; lia | apply List.Forall_nil].
  - apply List.Forall_cons; [by left |].
    destruct d; try apply (uint_chars (_ _)).
    apply List.Forall_cons; [right; vm_compute; lia | apply List.Forall_nil].
Qed.

Lemma split_at_first {A} (P : A -> Prop) (c : A) (s1 s2 r1 r2 : list A) :
  ~ P c -> Forall P s1 -> Forall P s2 ->
  s1 ++ c :: r1 = s2 ++ c :: r2 -> s1 = s2 /\ r1 = r2.
Proof.
  intros Hc H1. revert s2. induction H1 as [|x s1 Hx _ IH]; intros s2 H2 Heq.
  - destruct H2 as [|y s2 Hy _]; simpl in Heq.
    + by injection Heq.
    + injection Heq as -> _. done.
  - destruct H2 as [|y s2 Hy H2]; simpl in Heq.
    + injection Heq as -> _. done.
    + injection Heq as -> Heq. destruct (IH s2 H2 Heq) as [-> ->]. done.
Qed.

Lemma list_ascii_of_string_inj (a b : string) :
  list_ascii_of_string a = list_ascii_of_string b -> a = b.
Proof.
  intros H. rewrite <- (string_of_list_ascii_of_string a),
    <- (string_of_list_ascii_of_string b). by rewrite H.
Qed.

(** Two conditions with the same output file are the same condition. *)
Lemma out_path_of_inj (OUT_DIR : string) (x y : bool * (Z * string)) :
  role_mode_known x.2.2 -> role_mode_known y.2.2 ->
  out_path_of OUT_DIR x = out_path_of OUT_DIR y -> x = y.
Proof.
  destruct x as [u1 [t1 m1]], y as [u2 [t2 m2]]. cbn [fst snd].
  intros Hm1 Hm2 Heq.
  apply (f_equal list_ascii_of_string) in Heq.
  unfold out_path_of, path_join, condition_name in Heq.
  rewrite !PyFacts.chars_append in Heq.
  apply app_inv_head in Heq. apply app_inv_head in Heq.
  rewrite <- !app_assoc in Heq. apply app_inv_head in Heq.
  assert (m1 = m2) as <-.
  { destruct Hm1 as [? | [? | ?]], Hm2 as [? | [? | ?]]; subst;
      try reflexivity; simpl in Heq; discriminate Heq. }
  apply app_inv_head in Heq. apply app_inv_head in Heq.
  change (list_ascii_of_string "_") with ["_"%char] in Heq.
  cbn [app] in Heq.
  apply (split_at_first sign_or_digit) in Heq;
    [| intros [Hc | Hc]; [discriminate Hc | vm_compute in Hc; lia]
     | apply str_of_int_chars | apply str_of_int_chars].
  destruct Heq as [Ht Hr]. apply list_ascii_of_string_inj, str_of_int_inj in Ht.
  subst t2. destruct u1, u2; try reflexivity; simpl in Hr; discriminate Hr.
Qed.

Lemma NoDup_conditions (args : Args) :
  NoDup (turns args) <-> NoDup (conditions args).
Proof.
  unfold conditions. induction (turns args) as [|t l IH].
  - split; constructor.
  - rewrite bind_cons, NoDup_app, NoDup_cons, <- IH. split.
    + intros [Ht Hl]. split; [| split; [| done]].
      * cbn. repeat (apply NoDup_cons; split;
          [rewrite ?elem_of_cons, elem_of_nil; intros H;
           repeat (destruct H as [H | H]; [discriminate H |]); done |]).
        constructor.
      * intros c Hc [Hc' _]%conditions_elem. cbn in Hc.
        rewrite !elem_of_cons, elem_of_nil in Hc.
        destruct Hc as [-> | [-> | [-> | []]]]; done.
    + intros (_ & Hdisj & Hl). split; [| done].
      intros Ht. apply (Hdisj (t, "none")).
      * cbn. apply list_elem_of_here.
      * apply conditions_elem. split; [done | by left].
Qed.

Lemma list_bind_nil {A B} (f : A -> list B) : [] ≫= f = [].
Proof. reflexivity. Qed.

Lemma NoDup_iteration_order (args : Args) :
  NoDup (conditions args) <-> NoDup (iteration_order args).
Proof.
  unfold iteration_order.
  assert (forall u : bool,
            (c ← conditions args; [(u, c)])
            = (fun c => (u, c)) <$> conditions args) as Hmap.
  { intros u. induction (conditions args) as [|c l IH]; [done |].
    by rewrite fmap_cons, bind_cons, IH. }
  assert (forall u : bool,
            NoDup (c ← conditions args; [(u, c)])
            <-> NoDup (conditions args)) as Hu.
  { intros u. rewrite Hmap. split; [apply NoDup_fmap_1 |].
    apply NoDup_fmap_2. by intros ?? [=]. }
  unfold modes_to_run. destruct (both args); [|destruct (unrestricted args)].
  - rewrite !bind_cons, list_bind_nil, app_nil_r, NoDup_app, !Hu. split; [| tauto].
    intros Hc. split; [done | split; [| done]].
    rewrite !Hmap. intros x (c1 & -> & _)%list_elem_of_fmap
      (c2 & [=] & _)%list_elem_of_fmap.
  - by rewrite bind_cons, list_bind_nil, app_nil_r, Hu.
  - by rewrite bind_cons, list_bind_nil, app_nil_r, Hu.
Qed.

(** The conditions of a sweep write to pairwise distinct
    output files exactly when the turn counts given on the command line
    are pairwise distinct: a turn count given twice makes two conditions
    share a file, the second run overwriting the output of the first. *)
Theorem output_files_distinct_iff_turns_distinct (OUT_DIR : string)
    (args : Args) :
  NoDup (out_path_of OUT_DIR <$> iteration_order args) <-> NoDup (turns args).
Proof.
  rewrite NoDup_conditions, NoDup_iteration_order. split.
  - apply NoDup_fmap_1.
  - apply NoDup_fmap_2_strong.
    intros x y Hx%iteration_order_known Hy%iteration_order_known.
    by apply out_path_of_inj.
Qed.

End SweepFacts.

(* ===================================================================== *)
(** * The conversation synthesizer *)
(* ===================================================================== *)

Module SynthesisFacts.
Import GenerateTeacherConversations Terms.

(** ** Weaving user and assistant turns *)

Lemma weave_snoc_answer (users answers : list string) (a : string) :
  length users = S (length answers) ->
  weave users answers ++ [{| role := assistant; content := a |}]
  = weave users (answers ++ [a]).
Proof.
  revert answers. induction users as [|u users IH]; intros answers Hlen;
    [done |].
  destruct answers as [|b answers]; simpl in *.
  - by destruct users.
  - do 2 f_equal. apply IH. lia.
Qed.

Lemma weave_snoc_user (users answers : list string) (u : string) :
  length users = length answers ->
  weave users answers ++ [{| role := user; content := u |}]
  = weave (users ++ [u]) answers.
Proof.
  revert answers. induction users as [|v users IH]; intros answers Hlen;
    destruct answers as [|b answers]; simpl in *; try done.
  do 2 f_equal. apply IH. lia.
Qed.

Lemma contents_of_app who (c1 c2 : conversation) :
  contents_of who (c1 ++ c2) = contents_of who c1 ++ contents_of who c2.
Proof. unfold contents_of. by rewrite filter_app, fmap_app. Qed.

(** The assistant turns of a woven transcript are the answers, as long as
    there is a user turn before each. *)
Lemma assistant_contents_weave (users answers : list string) :
  (length answers <= length users)%nat ->
  contents_of assistant (weave users answers) = answers.
Proof.
  revert answers. induction users as [|u users IH]; intros answers Hlen.
  - destruct answers; simpl in *; [done | lia].
  - destruct answers as [|a answers]; [done |].
    simpl in *. unfold contents_of in *.
    rewrite filter_cons_False by done. rewrite filter_cons_True by done.
    rewrite fmap_cons. simpl. f_equal. apply IH. lia.
Qed.

(** The user turns of a woven transcript are the user contents, as long as
    only the last one may lack an answer. *)
Lemma user_contents_weave (users answers : list string) :
  (length users <= S (length answers))%nat ->
  contents_of user (weave users answers) = users.
Proof.
  revert answers. induction users as [|u users IH]; intros answers Hlen;
    [done |].
  simpl. unfold contents_of in *. rewrite filter_cons_True by done.
  rewrite fmap_cons. simpl. f_equal.
  destruct answers as [|a answers].
  - destruct users; simpl in *; [done | lia].
  - rewrite filter_cons_False by done. apply IH. simpl in Hlen. lia.
Qed.

Lemma contents_of_system_turns who sp :
  who <> system -> contents_of who (system_turns sp) = [].
Proof.
  intros Hwho. unfold system_turns, contents_of.
  destruct (Py.truthy_str sp); [|done].
  rewrite filter_cons_False; [done |]. simpl. congruence.
Qed.

(** The roles of a woven transcript with as many answers as user turns. *)
Lemma roles_weave (users answers : list string) :
  length users = length answers ->
  role <$> weave users answers
  = mjoin (replicate (length answers) [user; assistant]).
Proof.
  revert answers. induction users as [|u users IH]; intros answers Hlen;
    destruct answers as [|a answers]; simpl in *; try done.
  do 2 f_equal. apply IH. lia.
Qed.

Lemma alternating_pairs (n : nat) :
  alternating user (mjoin (replicate n [user; assistant])) = true.
Proof. induction n as [|n IH]; [done | exact IH]. Qed.

Section WithCollaborators.
Context `{G : Generator} `{D : !NumsDataset} `{B : Backend}.

(** ** The three inner loops of a turn *)

Lemma append_assistant_Some (conversations : list conversation)
    (raw_outputs : list string) :
  length raw_outputs = length conversations ->
  append_assistant conversations raw_outputs
  = Some (zip_with
            (fun chat raw => chat ++ [{| role := assistant; content := raw |}])
            conversations raw_outputs).
Proof.
  intros Hlen. apply mapM_Some_2, Forall2_same_length_lookup_2.
  - unfold Py.enumerate. rewrite length_imap, length_zip_with. lia.
  - intros i [j chat] y Hx Hy. unfold Py.enumerate in Hx.
    rewrite list_lookup_imap in Hx.
    apply lookup_zip_with_Some in Hy as (chat' & raw & -> & Hc & Hr).
    rewrite Hc in Hx. injection Hx as <- <-. by rewrite Hr.
Qed.

Lemma record_failure_Some (failed_turns : list (list bool)) (i : nat)
    (raw : string) (failed : list bool) :
  failed_turns !! i = Some failed ->
  record_failure failed_turns (i, raw)
  = Some (<[i := failed ++ [parse_fails raw]]> failed_turns).
Proof. intros H. unfold record_failure. by rewrite H. Qed.

Lemma record_failures_from (raw_outputs : list string) :
  forall done rest : list (list bool),
    length rest = length raw_outputs ->
    Py.for_each record_failure
      (imap (fun i => pair (length done + i)%nat) raw_outputs) (done ++ rest)
    = Some (done
            ++ zip_with (fun failed raw => failed ++ [parse_fails raw])
                 rest raw_outputs).
Proof.
  induction raw_outputs as [|raw raws IH]; intros done rest Hlen.
  - by destruct rest.
  - destruct rest as [|failed rest]; [done |].
    rewrite imap_cons. cbn [Py.for_each].
    rewrite (record_failure_Some _ _ _ failed)
      by (apply list_lookup_middle; lia).
    cbn [mbind option_bind]. rewrite insert_app_r.
    cbn [insert list_insert].
    rewrite (imap_ext _ (fun i => pair (length (done ++ [failed ++ [parse_fails raw]]) + i)%nat)).
    2:{ intros i x _. simpl. rewrite length_app. simpl. f_equal. lia. }
    rewrite (cons_middle _ done rest), app_assoc.
    rewrite IH by (simpl in Hlen; lia).
    by rewrite <- app_assoc.
Qed.

Lemma record_failures_Some (failed_turns : list (list bool))
    (raw_outputs : list string) :
  length failed_turns = length raw_outputs ->
  Py.for_each record_failure (Py.enumerate raw_outputs) failed_turns
  = Some (zip_with (fun failed raw => failed ++ [parse_fails raw])
            failed_turns raw_outputs).
Proof. intros Hlen. by apply (record_failures_from raw_outputs []). Qed.

Lemma next_user_is_Some (lo hi : Z) (r : Rng) :
  lo <= hi -> is_Some (next_user lo hi r).
Proof.
  intros Hle. unfold next_user.
  destruct (integers_nonempty r lo (hi + 1)) as [[k r1] Hk]; [lia |].
  destruct (choice_nonempty r1 PROMPT_VARIATIONS) as [[t r2] Ht]; [done |].
  rewrite Hk. cbn [mbind option_bind]. rewrite Ht. by eexists.
Qed.

Lemma append_next_user_Some (lo hi : Z) (conversations : list conversation)
    (rngs : list Rng) (i : nat) r u r' chat :
  rngs !! i = Some r ->
  next_user lo hi r = Some (u, r') ->
  conversations !! i = Some chat ->
  append_next_user lo hi (conversations, rngs) i
  = Some (<[i := chat ++ [{| role := user; content := u |}]]> conversations,
          <[i := r']> rngs).
Proof.
  intros Hr Hu Hc. unfold append_next_user, next_user in *. rewrite Hr.
  cbn [mbind option_bind] in *.
  destruct (integers r lo (hi + 1)) as [[k r1]|]; [|done].
  cbn [mbind option_bind] in *.
  destruct (choice r1 PROMPT_VARIATIONS) as [[t r2]|]; [|done].
  cbn [mbind option_bind] in *. injection Hu as <- <-. by rewrite Hc.
Qed.

Lemma append_next_users_from (lo hi : Z) :
  lo <= hi ->
  forall (rest_c : list conversation) (rest_r : list Rng)
         (done_c : list conversation) (done_r : list Rng),
    length done_c = length done_r ->
    length rest_c = length rest_r ->
    exists drawn : list (string * Rng),
      Forall2 (fun r ur => next_user lo hi r = Some ur) rest_r drawn
      /\ Py.for_each (append_next_user lo hi)
           (seq (length done_c) (length rest_c))
           (done_c ++ rest_c, done_r ++ rest_r)
         = Some (done_c
                 ++ zip_with
                      (fun chat ur =>
                         chat ++ [{| role := user; content := ur.1 |}])
                      rest_c drawn,
                 done_r ++ drawn.*2).
Proof.
  intros Hle. induction rest_c as [|chat rest_c IH];
    intros rest_r done_c done_r Hdone Hrest.
  - destruct rest_r; [|done]. exists []. split; [constructor | done].
  - destruct rest_r as [|r rest_r]; [done |].
    destruct (next_user_is_Some lo hi r Hle) as [[u r'] Hu].
    destruct (IH rest_r (done_c ++ [chat ++ [{| role := user; content := u |}]])
                (done_r ++ [r'])) as (drawn & Hdrawn & Hloop).
    { rewrite !length_app. simpl. lia. }
    { simpl in Hrest. lia. }
    exists ((u, r') :: drawn). split; [by constructor |].
    cbn [length seq Py.for_each].
    rewrite (append_next_user_Some lo hi _ _ _ r u r' chat); try done.
    2:{ rewrite Hdone. by apply list_lookup_middle. }
    2:{ by apply list_lookup_middle. }
    cbn [mbind option_bind].
    rewrite !insert_app_r_alt by lia.
    replace (length done_c - length done_r)%nat with 0%nat by lia.
    rewrite Nat.sub_diag. cbn [insert list_insert].
    rewrite (cons_middle _ done_c rest_c), (cons_middle _ done_r rest_r).
    rewrite !app_assoc. rewrite length_app in Hloop. simpl in Hloop.
    rewrite Nat.add_1_r in Hloop. rewrite Hloop.
    cbn [zip_with fmap list_fmap fst snd]. by rewrite <- !app_assoc.
Qed.

Lemma append_next_users_Some (lo hi : Z) (conversations : list conversation)
    (rngs : list Rng) :
  lo <= hi ->
  length conversations = length rngs ->
  exists drawn : list (string * Rng),
    Forall2 (fun r ur => next_user lo hi r = Some ur) rngs drawn
    /\ Py.for_each (append_next_user lo hi) (seq 0 (length conversations))
         (conversations, rngs)
       = Some (zip_with
                 (fun chat ur => chat ++ [{| role := user; content := ur.1 |}])
                 conversations drawn,
               drawn.*2).
Proof.
  intros Hle Hlen.
  by apply (append_next_users_from lo hi Hle conversations rngs [] []).
Qed.

(** ** The continuation requests of one item *)

Lemma followups_length lo hi c : forall r us r',
  followups lo hi r c = Some (us, r') -> length us = c.
Proof.
  induction c as [|c IH]; intros r us r' H; simpl in H.
  - by injection H as <- <-.
  - destruct (next_user lo hi r) as [[u r1]|]; [|done].
    cbn [mbind option_bind] in H.
    destruct (followups lo hi r1 c) as [[us' r2]|] eqn:Hf; [|done].
    cbn [mbind option_bind] in H. injection H as <- <-.
    simpl. f_equal. by eapply IH.
Qed.

Lemma followups_snoc lo hi c : forall r us r1 u r2,
  followups lo hi r c = Some (us, r1) ->
  next_user lo hi r1 = Some (u, r2) ->
  followups lo hi r (S c) = Some (us ++ [u], r2).
Proof.
  induction c as [|c IH]; intros r us r1 u r2 H Hu.
  - simpl in H. injection H as <- <-. simpl. by rewrite Hu.
  - cbn [followups] in H.
    destruct (next_user lo hi r) as [[v r']|] eqn:Hv; [|done].
    cbn [mbind option_bind] in H.
    destruct (followups lo hi r' c) as [[us' r'']|] eqn:Hf; [|done].
    cbn [mbind option_bind] in H. injection H as <- <-.
    change (followups lo hi r (S (S c)))
      with ('(u, r) ← next_user lo hi r;
            '(us, r) ← followups lo hi r (S c); Some (u :: us, r)).
    rewrite Hv. cbn [mbind option_bind].
    by rewrite (IH _ _ _ _ _ Hf Hu).
Qed.

(** ** One turn of the batch *)

Lemma turn_body_spec (system_prompt : string) (n_turns : Z)
    (max_new_tokens : option Z) (temperature : Q) (lo hi : Z)
    (pgs : list PromptGenerator) (rngs0 : list Rng) (t : nat)
    (st : LoopState) :
  one_output_per_transcript ->
  (1 < n_turns -> lo <= hi) ->
  (t < Z.to_nat n_turns)%nat ->
  turn_invariant system_prompt lo hi (Z.to_nat n_turns) pgs rngs0 t st ->
  exists st',
    turn_body n_turns max_new_tokens temperature lo hi (length pgs) st
      (Z.of_nat t) = Some st'
    /\ turn_invariant system_prompt lo hi (Z.to_nat n_turns) pgs rngs0 (S t) st'.
Proof.
  intros Hback Hrange Ht (Hlc & Hlf & Hlr & Hitems).
  unfold turn_body.
  pose proof (Hback (st_model st) (st_conversations st) max_new_tokens
                temperature) as Hlen.
  destruct (chat_completion _ _ _ _) as [raw_outputs model'].
  cbn [fst] in Hlen.
  rewrite append_assistant_Some by done. cbn [mbind option_bind].
  rewrite record_failures_Some by lia. cbn [mbind option_bind].
  set (conversations' :=
         zip_with (fun chat raw => chat ++ [{| role := assistant; content := raw |}])
           (st_conversations st) raw_outputs).
  assert (length conversations' = length pgs) as Hlc'.
  { unfold conversations'. rewrite length_zip_with. lia. }
  assert (forall i pg r0,
             pgs !! i = Some pg -> rngs0 !! i = Some r0 ->
             exists raws us r raw,
               length raws = t
               /\ followups lo hi r0 (t `min` (Z.to_nat n_turns - 1)) = Some (us, r)
               /\ conversations' !! i
                  = Some (system_turns system_prompt
                          ++ weave ((sample_query pg).1 :: us) (raws ++ [raw]))
               /\ zip_with (fun failed raw => failed ++ [parse_fails raw])
                    (st_failed_turns st) raw_outputs !! i
                  = Some (parse_fails <$> (raws ++ [raw]))
               /\ st_rngs st !! i = Some r) as Hmid.
  { intros i pg r0 Hpg Hr0.
    destruct (Hitems i pg r0 Hpg Hr0) as (raws & us & r & Hraws & Hus & Hc & Hf & Hr).
    assert (i < length raw_outputs)%nat as Hi.
    { apply lookup_lt_Some in Hc. lia. }
    destruct (lookup_lt_is_Some_2 _ _ Hi) as [raw Hraw].
    exists raws, us, r, raw. split; [done |]. split; [done |].
    split; [|split; [|done]].
    - unfold conversations'. rewrite lookup_zip_with, Hc, Hraw.
      cbn [mbind option_bind]. rewrite <- app_assoc. do 2 f_equal.
      apply weave_snoc_answer. simpl. f_equal.
      apply followups_length in Hus. lia.
    - rewrite lookup_zip_with, Hf, Hraw. cbn [mbind option_bind].
      by rewrite fmap_app. }
  destruct (Z.of_nat t <? n_turns - 1) eqn:Hlast.
  - apply Z.ltb_lt in Hlast.
    destruct (append_next_users_Some lo hi conversations' (st_rngs st))
      as (drawn & Hdrawn & Hloop); [lia | lia |].
    rewrite <- Hlc', Hloop. cbn [mbind option_bind].
    eexists. split; [reflexivity |].
    pose proof (Forall2_length _ _ _ Hdrawn) as Hld.
    split; [cbn; rewrite length_zip_with; lia |].
    split; [cbn; rewrite length_zip_with; lia |].
    split; [cbn; rewrite length_fmap; lia |].
    intros i pg r0 Hpg Hr0. cbn [st_conversations st_failed_turns st_rngs].
    destruct (Hmid i pg r0 Hpg Hr0)
      as (raws & us & r & raw & Hraws & Hus & Hc & Hf & Hr).
    destruct (Forall2_lookup_l _ _ _ _ _ Hdrawn Hr) as ([u r'] & Hd & Hu).
    exists (raws ++ [raw]), (us ++ [u]), r'.
    split; [rewrite length_app; simpl; lia |].
    split.
    { replace (S t `min` (Z.to_nat n_turns - 1))%nat with (S t) by lia.
      replace (t `min` (Z.to_nat n_turns - 1))%nat with t in Hus by lia.
      by eapply followups_snoc. }
    split.
    { rewrite lookup_zip_with, Hc, Hd. cbn [mbind option_bind fst].
      rewrite <- app_assoc. do 2 f_equal.
      rewrite (weave_snoc_user ((sample_query pg).1 :: us)); [done |].
      rewrite length_app. simpl. apply followups_length in Hus. lia. }
    split; [done |].
    by rewrite list_lookup_fmap, Hd.
  - apply Z.ltb_ge in Hlast.
    eexists. split; [reflexivity |].
    split; [done |].
    split; [cbn; rewrite length_zip_with; lia |].
    split; [done |].
    intros i pg r0 Hpg Hr0. cbn [st_conversations st_failed_turns st_rngs].
    destruct (Hmid i pg r0 Hpg Hr0)
      as (raws & us & r & raw & Hraws & Hus & Hc & Hf & Hr).
    exists (raws ++ [raw]), us, r.
    split; [rewrite length_app; simpl; lia |].
    split; [|done].
    by replace (S t `min` (Z.to_nat n_turns - 1))%nat
      with (t `min` (Z.to_nat n_turns - 1))%nat by lia.
Qed.

(** ** The turn loop and the batch *)

Lemma turn_loop_spec (system_prompt : string) (n_turns : Z)
    (max_new_tokens : option Z) (temperature : Q) (lo hi : Z)
    (pgs : list PromptGenerator) (rngs0 : list Rng) :
  one_output_per_transcript ->
  (1 < n_turns -> lo <= hi) ->
  forall (m t : nat) (st : LoopState),
    (t + m = Z.to_nat n_turns)%nat ->
    turn_invariant system_prompt lo hi (Z.to_nat n_turns) pgs rngs0 t st ->
    exists st',
      Py.for_each
        (turn_body n_turns max_new_tokens temperature lo hi (length pgs))
        (Z.of_nat <$> seq t m) st = Some st'
      /\ turn_invariant system_prompt lo hi (Z.to_nat n_turns) pgs rngs0
           (Z.to_nat n_turns) st'.
Proof.
  intros Hback Hrange. induction m as [|m IH]; intros t st Htm Hinv.
  - exists st. split; [done |].
    by assert (t = Z.to_nat n_turns) as -> by lia.
  - destruct (turn_body_spec system_prompt n_turns max_new_tokens temperature
                lo hi pgs rngs0 t st Hback Hrange) as (st1 & Hbody & Hinv1);
      [lia | done |].
    destruct (IH (S t) st1) as (st' & Hloop & Hinv'); [lia | done |].
    exists st'. split; [|done].
    cbn [seq fmap list_fmap Py.for_each]. rewrite Hbody. exact Hloop.
Qed.

Lemma any_parse_fails (raws : list string) :
  Py.any (parse_fails <$> raws) = existsb parse_fails raws.
Proof.
  unfold Py.any. induction raws as [|raw raws IH]; [done |].
  rewrite fmap_cons. cbn [existsb]. by rewrite IH.
Qed.

(** The batch loop returns, and every item of its result is the transcript
    of that item. *)
Lemma generate_conversation_batch_spec (model : ChatModel)
    (pgs : list PromptGenerator) (n_turns : Z) (max_new_tokens : option Z)
    (temperature : Q) (rngs : list Rng) (system_prompt : string)
    (lo hi : Z) :
  one_output_per_transcript ->
  (1 < n_turns -> lo <= hi) ->
  length rngs = length pgs ->
  exists conversations flags model',
    generate_conversation_batch model pgs n_turns max_new_tokens temperature
      rngs system_prompt lo hi = Some (conversations, flags, model')
    /\ length conversations = length pgs
    /\ length flags = length pgs
    /\ forall i pg r0,
         pgs !! i = Some pg ->
         rngs !! i = Some r0 ->
         exists raws chat,
           conversations !! i = Some chat
           /\ transcript_of system_prompt lo hi n_turns pg r0 raws chat
           /\ flags !! i = Some (existsb parse_fails raws).
Proof.
  intros Hback Hrange Hlen. unfold generate_conversation_batch.
  set (st0 := {| st_model := model; st_conversations := _;
                 st_failed_turns := _; st_rngs := rngs |}).
  assert (turn_invariant system_prompt lo hi (Z.to_nat n_turns) pgs rngs
            0 st0) as Hinv0.
  { unfold st0, turn_invariant. cbn [st_conversations st_failed_turns st_rngs].
    split; [destruct (Py.truthy_str system_prompt); by rewrite !length_fmap |].
    split; [by rewrite length_replicate |].
    split; [done |].
    intros i pg r0 Hpg Hr0. exists [], [], r0.
    split; [done |]. split; [done |].
    split.
    { unfold system_turns.
      destruct (Py.truthy_str system_prompt);
        rewrite !list_lookup_fmap, Hpg; done. }
    split; [|done].
    apply lookup_replicate_2. by apply lookup_lt_Some in Hpg. }
  destruct (turn_loop_spec system_prompt n_turns max_new_tokens temperature
              lo hi pgs rngs Hback Hrange (Z.to_nat n_turns) 0%nat st0)
    as (st' & Hloop & Hc & Hf & Hr & Hitems); [lia | done |].
  unfold Py.range. rewrite Hloop. cbn [mbind option_bind].
  eexists _, _, _. split; [reflexivity |].
  split; [done |]. split; [by rewrite length_fmap |].
  intros i pg r0 Hpg Hr0.
  destruct (Hitems i pg r0 Hpg Hr0) as (raws & us & r & Hraws & Hus & Hci & Hfi & _).
  exists raws, (system_turns system_prompt
                ++ weave ((sample_query pg).1 :: us) raws).
  split; [done |]. split.
  - split; [done |]. exists us, r. split; [|done].
    by rewrite Nat.min_r in Hus by lia.
  - by rewrite list_lookup_fmap, Hfi, <- any_parse_fails.
Qed.

(** ** What a transcript contains *)

Lemma transcript_assistant_contents sp lo hi n_turns pg r0 raws chat :
  transcript_of sp lo hi n_turns pg r0 raws chat ->
  contents_of assistant chat = raws.
Proof.
  intros (Hlen & us & r & Hus & ->).
  rewrite contents_of_app, contents_of_system_turns by done.
  apply assistant_contents_weave. simpl.
  apply followups_length in Hus. lia.
Qed.

Lemma transcript_user_contents sp lo hi n_turns pg r0 raws chat :
  transcript_of sp lo hi n_turns pg r0 raws chat ->
  exists us r,
    followups lo hi r0 (Z.to_nat n_turns - 1) = Some (us, r)
    /\ contents_of user chat = (sample_query pg).1 :: us.
Proof.
  intros (Hlen & us & r & Hus & ->). exists us, r. split; [done |].
  rewrite contents_of_app, contents_of_system_turns by done.
  apply user_contents_weave. simpl.
  apply followups_length in Hus. lia.
Qed.

Lemma transcript_roles sp lo hi n_turns pg r0 raws chat :
  1 <= n_turns ->
  transcript_of sp lo hi n_turns pg r0 raws chat ->
  role <$> chat
  = (role <$> system_turns sp)
    ++ mjoin (replicate (Z.to_nat n_turns) [user; assistant]).
Proof.
  intros Hn (Hlen & us & r & Hus & ->).
  rewrite fmap_app, roles_weave, Hlen; [done |].
  simpl. apply followups_length in Hus. lia.
Qed.

Lemma transcript_role_sequence_ok sp lo hi n_turns pg r0 raws chat :
  1 <= n_turns ->
  transcript_of sp lo hi n_turns pg r0 raws chat ->
  role_sequence_ok chat = true.
Proof.
  intros Hn Ht. unfold role_sequence_ok.
  rewrite (transcript_roles _ _ _ _ _ _ _ _ Hn Ht).
  unfold system_turns. destruct (Py.truthy_str sp); cbn [fmap list_fmap app role].
  - apply alternating_pairs.
  - pose proof (alternating_pairs (Z.to_nat n_turns)) as H.
    destruct (mjoin _) as [|[] ?]; done.
Qed.

(** Every conversation of the result is the transcript of some item. *)
Lemma generate_conversation_batch_items (model : ChatModel)
    (pgs : list PromptGenerator) (n_turns : Z) (max_new_tokens : option Z)
    (temperature : Q) (rngs : list Rng) (system_prompt : string)
    (lo hi : Z) :
  one_output_per_transcript ->
  (1 < n_turns -> lo <= hi) ->
  length rngs = length pgs ->
  exists conversations flags model',
    generate_conversation_batch model pgs n_turns max_new_tokens temperature
      rngs system_prompt lo hi = Some (conversations, flags, model')
    /\ length conversations = length pgs
    /\ length flags = length pgs
    /\ forall i chat,
         conversations !! i = Some chat ->
         exists pg r0 raws,
           pgs !! i = Some pg
           /\ rngs !! i = Some r0
           /\ transcript_of system_prompt lo hi n_turns pg r0 raws chat
           /\ flags !! i = Some (existsb parse_fails raws).
Proof.
  intros Hback Hrange Hlen.
  destruct (generate_conversation_batch_spec model pgs n_turns max_new_tokens
              temperature rngs system_prompt lo hi Hback Hrange Hlen)
    as (conversations & flags & model' & Hrun & Hlc & Hlf & Hitems).
  exists conversations, flags, model'.
  split; [done |]. split; [done |]. split; [done |].
  intros i chat Hchat. pose proof (lookup_lt_Some _ _ _ Hchat) as Hi.
  destruct (lookup_lt_is_Some_2 pgs i) as [pg Hpg]; [lia |].
  destruct (lookup_lt_is_Some_2 rngs i) as [r0 Hr0]; [lia |].
  destruct (Hitems i pg r0 Hpg Hr0) as (raws & chat' & Hchat' & Ht & Hflag).
  exists pg, r0, raws. by simplify_eq.
Qed.

(** Claim C4. Whatever the parser answers, the batch loop returns: every
    item of the result has received all [n_turns] raw outputs, kept verbatim
    as its assistant turns, and its failure flag is the disjunction of the
    per-turn failures - it is true exactly when
    [parse_response (enforce_numeric_only raw)] is [None] for the raw output
    of at least one of its turns. *)
Theorem parse_failures_are_recorded_not_fatal (model : ChatModel)
    (pgs : list PromptGenerator) (n_turns : Z) (max_new_tokens : option Z)
    (temperature : Q) (rngs : list Rng) (system_prompt : string)
    (lo hi : Z) :
  one_output_per_transcript ->
  (1 < n_turns -> lo <= hi) ->
  length rngs = length pgs ->
  exists conversations flags model',
    generate_conversation_batch model pgs n_turns max_new_tokens temperature
      rngs system_prompt lo hi = Some (conversations, flags, model')
    /\ length conversations = length pgs
    /\ length flags = length pgs
    /\ forall i chat,
         conversations !! i = Some chat ->
         let raws := contents_of assistant chat in
         length raws = Z.to_nat n_turns
         /\ exists flag,
              flags !! i = Some flag
              /\ flag = Py.any (parse_fails <$> raws)
              /\ (flag = true
                  <-> exists raw,
                        raw ∈ raws
                        /\ parse_response (enforce_numeric_only raw) = None).
Proof.
  intros Hback Hrange Hlen.
  destruct (generate_conversation_batch_items model pgs n_turns max_new_tokens
              temperature rngs system_prompt lo hi Hback Hrange Hlen)
    as (conversations & flags & model' & Hrun & Hlc & Hlf & Hitems).
  exists conversations, flags, model'.
  split; [done |]. split; [done |]. split; [done |].
  intros i chat Hchat.
  destruct (Hitems i chat Hchat) as (pg & r0 & raws & _ & _ & Ht & Hflag).
  cbv zeta. rewrite (transcript_assistant_contents _ _ _ _ _ _ _ _ Ht).
  split; [by destruct Ht |].
  exists (existsb parse_fails raws). split; [done |].
  split; [by rewrite any_parse_fails |].
  rewrite existsb_exists. split.
  - intros (raw & Hin & Hraw). exists raw.
    split; [by apply list_elem_of_In |].
    by apply bool_decide_eq_true in Hraw.
  - intros (raw & Hin & Hraw). exists raw.
    split; [by apply list_elem_of_In |].
    by apply bool_decide_eq_true.
Qed.

(** Claim C9. For at least one turn, every conversation the batch loop
    returns has the roles of an optional system turn followed by [n_turns]
    pairs of a user turn and an assistant turn, which satisfies the
    role-sequencing invariant; it starts with the system turn carrying the
    system prompt exactly when that prompt is not empty. *)
Theorem conversations_satisfy_role_sequencing (model : ChatModel)
    (pgs : list PromptGenerator) (n_turns : Z) (max_new_tokens : option Z)
    (temperature : Q) (rngs : list Rng) (system_prompt : string)
    (lo hi : Z) :
  one_output_per_transcript ->
  (1 < n_turns -> lo <= hi) ->
  length rngs = length pgs ->
  1 <= n_turns ->
  exists conversations flags model',
    generate_conversation_batch model pgs n_turns max_new_tokens temperature
      rngs system_prompt lo hi = Some (conversations, flags, model')
    /\ length conversations = length pgs
    /\ forall chat,
         chat ∈ conversations ->
         role_sequence_ok chat = true
         /\ role <$> chat
            = (if Py.truthy_str system_prompt then [system] else [])
              ++ mjoin (replicate (Z.to_nat n_turns) [user; assistant])
         /\ (system_prompt <> EmptyString
             <-> head chat = Some {| role := system; content := system_prompt |})
         /\ (system_prompt = EmptyString
             <-> role <$> head chat = Some user).
Proof.
  intros Hback Hrange Hlen Hn.
  destruct (generate_conversation_batch_items model pgs n_turns max_new_tokens
              temperature rngs system_prompt lo hi Hback Hrange Hlen)
    as (conversations & flags & model' & Hrun & Hlc & Hlf & Hitems).
  exists conversations, flags, model'.
  split; [done |]. split; [done |].
  intros chat (i & Hchat)%list_elem_of_lookup.
  destruct (Hitems i chat Hchat) as (pg & r0 & raws & _ & _ & Ht & _).
  split; [by eapply transcript_role_sequence_ok |].
  split.
  { rewrite (transcript_roles _ _ _ _ _ _ _ _ Hn Ht). unfold system_turns.
    by destruct (Py.truthy_str system_prompt). }
  destruct Ht as (_ & us & r & _ & ->). unfold system_turns.
  destruct system_prompt as [|c sp]; simpl; split; split; done.
Qed.

(** ** The batches of [main] *)

Lemma append_row_Some (args : Args) (flags : list bool) (rows : list Row)
    (idx : Z) (i : nat) (c : conversation) (flag : bool) :
  flags !! i = Some flag ->
  append_row args flags (rows, idx) (i, c)
  = Some (rows ++ [{| id := idx; chat := c; row_model := model_name args;
                      failed_turns := flag |}],
          idx + 1).
Proof. intros H. unfold append_row. by rewrite H. Qed.

Lemma append_rows_from (args : Args) (flags : list bool) :
  forall (chats : list conversation) (k : nat) (rows : list Row) (idx : Z),
    (k + length chats <= length flags)%nat ->
    Py.for_each (append_row args flags)
      (imap (fun i => pair (k + i)%nat) chats) (rows, idx)
    = Some (rows
            ++ imap (fun i chat =>
                       {| id := idx + Z.of_nat i; chat := chat;
                          row_model := model_name args;
                          failed_turns := default false (flags !! (k + i)%nat) |})
                 chats,
            idx + Z.of_nat (length chats)).
Proof.
  induction chats as [|c chats IH]; intros k rows idx Hlen.
  - simpl. by rewrite app_nil_r, Z.add_0_r.
  - rewrite !imap_cons. cbn [Py.for_each].
    destruct (lookup_lt_is_Some_2 flags (k + 0)) as [flag Hflag];
      [simpl in Hlen; lia |].
    rewrite (append_row_Some _ _ _ _ _ _ flag) by done.
    rewrite Hflag. cbn [mbind option_bind default].
    rewrite (imap_ext _ (fun i => pair (S k + i)%nat))
      by (intros; simpl; f_equal; lia).
    rewrite IH by (simpl in Hlen; lia).
    rewrite <- app_assoc. cbn [app]. f_equal. f_equal.
    + apply (f_equal (app rows)). change (Z.of_nat 0) with 0.
      rewrite Z.add_0_r. apply (f_equal (cons _)).
      apply imap_ext. intros i x _. cbn [compose].
      replace (idx + 1 + Z.of_nat i) with (idx + Z.of_nat (S i)) by lia.
      by replace (S k + i)%nat with (k + S i)%nat by lia.
    + simpl length. lia.
Qed.

(** [default_rng] on the two sides of 0. *)
Lemma default_rng_Some (s : Z) :
  0 <= s -> default_rng s = Some (generator_of_seed s).
Proof.
  intros Hs. unfold default_rng.
  destruct (s <? 0) eqn:E; [apply Z.ltb_lt in E; lia | done].
Qed.

Lemma default_rng_None (s : Z) : s < 0 -> default_rng s = None.
Proof.
  intros Hs. unfold default_rng.
  destruct (s <? 0) eqn:E; [done | apply Z.ltb_ge in E; lia].
Qed.

Lemma build_prompt_generator_Some (s n : Z) :
  0 <= s ->
  build_prompt_generator s n
  = Some (seeded_prompt_generator (generator_of_seed s) n).
Proof.
  intros Hs. unfold build_prompt_generator. by rewrite default_rng_Some.
Qed.

Lemma mapM_range_Some {X} (f : Z -> option X) (g : Z -> X) (n : Z) :
  (forall i, 0 <= i -> f i = Some (g i)) ->
  mapM f (Py.range n) = Some (g <$> Py.range n).
Proof.
  intros Hf. apply mapM_Some. unfold Py.range.
  apply Forall2_fmap_r, Forall_Forall2_diag, Forall_forall.
  intros i (k & -> & _)%list_elem_of_fmap. apply Hf. lia.
Qed.

(** With a non-negative seed no generator of a batch fails to build. *)
Lemma batch_body_seeded (args : Args) (system_prompt : string) (bs : Z)
    (st : MainState) (x : Z) :
  0 <= seed args ->
  0 <= idx st ->
  batch_body args system_prompt bs st x
  = let actual_bs := Z.min bs (count args - idx st) in
    let pgs :=
      (fun i => seeded_prompt_generator
                  (generator_of_seed (seed args + idx st + i)) 20)
        <$> Py.range actual_bs in
    let rngs :=
      (fun i => generator_of_seed (seed args + idx st + i))
        <$> Py.range actual_bs in
    '(chats, all_failed_flags, model) ←
      generate_conversation_batch (ms_model st) pgs (turns args)
        (max_new_tokens args) (temperature args) rngs system_prompt 5 10;
    '(rows, idx) ←
      Py.for_each (append_row args all_failed_flags) (Py.enumerate chats)
        (rows st, idx st);
    Some {| ms_model := model; rows := rows;
            failures :=
              failures st
              + foldr Z.add 0
                  ((fun b : bool => if b then 1 else 0) <$> all_failed_flags);
            idx := idx |}.
Proof.
  intros Hseed Hidx. unfold batch_body.
  rewrite (mapM_range_Some _
             (fun i => seeded_prompt_generator
                         (generator_of_seed (seed args + idx st + i)) 20))
    by (intros i Hi; apply build_prompt_generator_Some; lia).
  cbn [mbind option_bind].
  rewrite (mapM_range_Some _
             (fun i => generator_of_seed (seed args + idx st + i)))
    by (intros i Hi; apply default_rng_Some; lia).
  reflexivity.
Qed.

Lemma batch_body_spec (args : Args) (bs : Z) (b : nat) (st : MainState)
    (x : Z) :
  one_output_per_transcript ->
  0 < bs ->
  0 <= seed args ->
  main_invariant args bs b st ->
  exists st',
    batch_body args (system_prompt_of args) bs st x = Some st'
    /\ main_invariant args bs (S b) st'.
Proof.
  intros Hback Hbs Hseed (Hidx & Hrows & Hitems).
  rewrite batch_body_seeded by lia. cbv zeta.
  set (actual_bs := Z.min bs (count args - idx st)).
  set (pgs := (fun i => seeded_prompt_generator
                          (generator_of_seed (seed args + idx st + i)) 20)
              <$> Py.range actual_bs).
  set (rngs := (fun i => generator_of_seed (seed args + idx st + i))
               <$> Py.range actual_bs).
  assert (length pgs = Z.to_nat actual_bs) as Hlp.
  { unfold pgs, Py.range. by rewrite !length_fmap, length_seq. }
  assert (length rngs = length pgs) as Hlr.
  { unfold rngs, pgs. by rewrite !length_fmap. }
  destruct (generate_conversation_batch_items (ms_model st) pgs (turns args)
              (max_new_tokens args) (temperature args) rngs
              (system_prompt_of args) 5 10 Hback)
    as (chats & flags & model' & Hrun & Hlc & Hlf & Hchats); [lia | done |].
  rewrite Hrun. cbn [mbind option_bind].
  pose proof (append_rows_from args flags chats 0 (rows st) (idx st)) as Happ.
  rewrite (imap_ext _ pair) in Happ by done.
  unfold Py.enumerate. rewrite Happ by (simpl; lia).
  cbn [mbind option_bind]. eexists. split; [reflexivity |].
  unfold main_invariant. cbn [idx rows].
  split; [rewrite Hlc, Hlp, Hidx; unfold actual_bs; rewrite Hidx; nia |].
  split; [rewrite length_app, length_imap; lia |].
  intros j row Hrow.
  destruct (decide (j < length (rows st))%nat) as [Hj | Hj].
  - rewrite lookup_app_l in Hrow by done. by apply Hitems.
  - rewrite lookup_app_r in Hrow by lia.
    rewrite list_lookup_imap in Hrow.
    destruct (chats !! (j - length (rows st))%nat) as [c|] eqn:Hc; [|done].
    injection Hrow as <-.
    destruct (Hchats _ c Hc) as (pg & r0 & raws & Hpg & Hr0 & Ht & Hflag).
    unfold row_of_item. cbn [id chat row_model failed_turns].
    split; [lia |]. split; [done |].
    unfold pgs, rngs, Py.range in Hpg, Hr0.
    rewrite !list_lookup_fmap in Hpg. rewrite !list_lookup_fmap in Hr0.
    destruct (seq 0 (Z.to_nat actual_bs) !! (j - length (rows st))%nat)
      as [i|] eqn:Hi; [|done].
    apply lookup_seq in Hi as [-> _].
    cbn [fmap option_fmap option_map] in Hpg, Hr0.
    injection Hpg as <-. injection Hr0 as <-.
    exists (generator_of_seed (seed args + Z.of_nat j)), raws.
    split; [apply default_rng_Some; lia |].
    rewrite Hflag. cbn [default]. split; [|done].
    replace (seed args + Z.of_nat j)
      with (seed args + idx st + Z.of_nat (0 + (j - length (rows st)))) by lia.
    done.
Qed.

Lemma batch_loop_spec (args : Args) (bs : Z) :
  one_output_per_transcript ->
  0 < bs ->
  0 <= seed args ->
  forall (l : list Z) (b : nat) (st : MainState),
    main_invariant args bs b st ->
    exists st',
      Py.for_each (batch_body args (system_prompt_of args) bs) l st = Some st'
      /\ main_invariant args bs (b + length l) st'.
Proof.
  intros Hback Hbs Hseed. induction l as [|x l IH]; intros b st Hinv.
  - exists st. split; [done |]. by rewrite Nat.add_0_r.
  - destruct (batch_body_spec args bs b st x Hback Hbs Hseed Hinv)
      as (st1 & Hbody & Hinv1).
    destruct (IH (S b) st1 Hinv1) as (st' & Hloop & Hinv').
    exists st'. cbn [Py.for_each]. rewrite Hbody. split; [exact Hloop |].
    by replace (b + length (x :: l))%nat with (S b + length l)%nat
      by (simpl; lia).
Qed.

(** [main] returns one row per requested conversation, and row [j] is the
    transcript of item [j]. *)
Lemma main_spec (args : Args) (model : ChatModel) :
  one_output_per_transcript ->
  0 < count args ->
  0 <= seed args ->
  exists rows failures,
    main args model = Some (rows, failures)
    /\ Z.of_nat (length rows) = count args
    /\ forall j row, rows !! j = Some row -> row_of_item args j row.
Proof.
  intros Hback Hcount Hseed. unfold main.
  destruct (count args <=? 0) eqn:Hc; [apply Z.leb_le in Hc; lia |].
  rewrite default_rng_Some by done. cbn [mbind option_bind].
  fold (system_prompt_of args).
  set (bs := if batch_size args >? 0 then batch_size args else count args).
  assert (0 < bs) as Hbs.
  { unfold bs. destruct (batch_size args >? 0) eqn:E; [|done].
    rewrite Z.gtb_ltb in E. by apply Z.ltb_lt in E. }
  destruct (batch_loop_spec args bs Hback Hbs Hseed
              (Py.range (Py.ceil_div (count args) bs)) 0%nat
              {| ms_model := model; rows := []; failures := 0; idx := 0 |})
    as (st' & Hloop & Hidx & Hrows & Hitems).
  { split; [simpl; lia |]. split; [done |]. intros j row Hj. done. }
  rewrite Hloop. cbn [mbind option_bind].
  exists (rows st'), (failures st'). split; [done |]. split; [|done].
  rewrite Hrows, Hidx. unfold Py.range, Py.ceil_div.
  rewrite length_fmap, length_seq. cbn [Nat.add].
  pose proof (Z.mul_div_le (- count args) bs Hbs) as Hdiv.
  assert (- count args / bs < 0) as Hneg.
  { apply Z.div_lt_upper_bound; lia. }
  rewrite Z2Nat.id by lia. lia.
Qed.

(** [main] raises on a count that is not positive and on a negative
    seed. *)
Lemma main_raises (args : Args) (model : ChatModel) :
  count args <= 0 \/ seed args < 0 -> main args model = None.
Proof.
  intros Hbad. unfold main. destruct (count args <=? 0) eqn:Hc; [done |].
  apply Z.leb_gt in Hc. rewrite default_rng_None by lia. done.
Qed.

End WithCollaborators.

(** ** Two runs *)

Section TwoRuns.
Context `{G : Generator} `{D : !NumsDataset}.

(** A row of the teacher file is determined by the index of its item, the
    arguments that reach it and the raw outputs of its turns. *)
Lemma row_of_item_determined (args1 args2 : Args) (j : nat) (row1 row2 : Row) :
  seed args1 = seed args2 ->
  turns args1 = turns args2 ->
  animal args1 = animal args2 ->
  model_name args1 = model_name args2 ->
  row_of_item args1 j row1 ->
  row_of_item args2 j row2 ->
  contents_of assistant (chat row1) = contents_of assistant (chat row2) ->
  row1 = row2.
Proof.
  intros Hseed Hturns Hanimal Hmodel
    (Hid1 & Hm1 & r1 & raws1 & Hr1 & Ht1 & Hf1)
    (Hid2 & Hm2 & r2 & raws2 & Hr2 & Ht2 & Hf2) Hraws.
  assert (system_prompt_of args2 = system_prompt_of args1) as Hsp.
  { unfold system_prompt_of. by rewrite Hanimal. }
  rewrite <- Hseed, Hr1 in Hr2. injection Hr2 as <-.
  rewrite <- Hturns, Hsp in Ht2.
  rewrite (transcript_assistant_contents _ _ _ _ _ _ _ _ Ht1) in Hraws.
  rewrite (transcript_assistant_contents _ _ _ _ _ _ _ _ Ht2) in Hraws.
  subst raws2.
  destruct Ht1 as (_ & us1 & r1' & Hus1 & Hc1).
  destruct Ht2 as (_ & us2 & r2' & Hus2 & Hc2).
  rewrite Hus1 in Hus2. injection Hus2 as <- <-.
  destruct row1, row2; cbn [id chat row_model failed_turns] in *.
  congruence.
Qed.

(** Claim C3. Two runs of [main] - on backends that may differ, with batch
    sizes, temperatures and length caps that may differ - that agree on the
    base seed (not negative: [default_rng] raises below 0), the count, the
    turn count, the animal and the model name both write a row per item.
    Row [j] is item [j], and all its randomness is driven by generators
    seeded with [seed + j]: its user turns are the query sampled by a prompt
    source that draws from [default_rng (seed + j)], followed by the
    continuation requests (templates and values of [k]) drawn from
    [default_rng (seed + j)].  Hence the user turns are the same in the two
    runs; and when the backend outputs (the assistant turns) are the same
    in the two runs, the rows are equal. *)
Theorem synthesis_is_reproducible (B1 B2 : Backend) (args1 args2 : Args)
    (model1 : @ChatModel B1) (model2 : @ChatModel B2) :
  @one_output_per_transcript B1 ->
  @one_output_per_transcript B2 ->
  0 < count args1 ->
  0 <= seed args1 ->
  seed args1 = seed args2 ->
  count args1 = count args2 ->
  turns args1 = turns args2 ->
  animal args1 = animal args2 ->
  model_name args1 = model_name args2 ->
  exists rows1 failures1 rows2 failures2,
    @main G D B1 args1 model1 = Some (rows1, failures1)
    /\ @main G D B2 args2 model2 = Some (rows2, failures2)
    /\ Z.of_nat (length rows1) = count args1
    /\ (forall j row,
          rows1 !! j = Some row ->
          id row = Z.of_nat j
          /\ user_turns_of_seed (seed args1 + Z.of_nat j) (turns args1)
             = Some (contents_of user (chat row))
          /\ exists r pg us r',
               default_rng (seed args1 + Z.of_nat j) = Some r
               /\ pg_rng pg = r
               /\ followups 5 10 r (Z.to_nat (turns args1) - 1) = Some (us, r')
               /\ contents_of user (chat row) = (sample_query pg).1 :: us)
    /\ (contents_of user ∘ chat) <$> rows1 = (contents_of user ∘ chat) <$> rows2
    /\ ((contents_of assistant ∘ chat) <$> rows1
        = (contents_of assistant ∘ chat) <$> rows2 ->
        rows1 = rows2).
Proof.
  intros Hb1 Hb2 Hcount Hseed0 Hseed Hcnt Hturns Hanimal Hmodel.
  destruct (@main_spec G D B1 args1 model1 Hb1 Hcount Hseed0)
    as (rows1 & failures1 & Hmain1 & Hlen1 & Hrows1).
  destruct (@main_spec G D B2 args2 model2 Hb2)
    as (rows2 & failures2 & Hmain2 & Hlen2 & Hrows2); [lia | lia |].
  exists rows1, failures1, rows2, failures2.
  assert (forall args j row,
             row_of_item args j row ->
             user_turns_of_seed (seed args + Z.of_nat j) (turns args)
             = Some (contents_of user (chat row))) as Husers.
  { intros args j row (_ & _ & r0 & raws & Hr0 & Ht & _).
    destruct (transcript_user_contents _ _ _ _ _ _ _ _ Ht)
      as (us & r & Hus & Hc).
    unfold user_turns_of_seed. rewrite Hr0. cbn [mbind option_bind].
    rewrite Hus. cbn [mbind option_bind]. by rewrite Hc. }
  split; [done |]. split; [done |]. split; [done |].
  split.
  { intros j row Hrow. split; [by apply Hrows1 |].
    split; [by apply Husers, Hrows1 |].
    destruct (Hrows1 j row Hrow) as (_ & _ & r0 & raws & Hr0 & Ht & _).
    destruct (transcript_user_contents _ _ _ _ _ _ _ _ Ht)
      as (us & r & Hus & Hc).
    by exists r0, (seeded_prompt_generator r0 20), us, r. }
  split.
  { apply list_eq. intros j. rewrite !list_lookup_fmap.
    destruct (rows1 !! j) as [row1|] eqn:H1;
      destruct (rows2 !! j) as [row2|] eqn:H2; cbn [fmap option_fmap option_map].
    - f_equal. cbn [compose].
      pose proof (Husers _ _ _ (Hrows1 _ _ H1)) as Hu1.
      pose proof (Husers _ _ _ (Hrows2 _ _ H2)) as Hu2.
      rewrite <- Hseed, <- Hturns in Hu2. congruence.
    - apply lookup_lt_Some in H1. apply lookup_ge_None in H2. lia.
    - apply lookup_lt_Some in H2. apply lookup_ge_None in H1. lia.
    - done. }
  intros Hraws. apply list_eq. intros j.
  destruct (rows1 !! j) as [row1|] eqn:H1;
    destruct (rows2 !! j) as [row2|] eqn:H2.
  - f_equal.
    apply (row_of_item_determined args1 args2 j); try done;
      [by apply Hrows1 | by apply Hrows2 |].
    apply (f_equal (fun l => l !! j)) in Hraws.
    rewrite !list_lookup_fmap, H1, H2 in Hraws. by injection Hraws.
  - apply lookup_lt_Some in H1. apply lookup_ge_None in H2. lia.
  - apply lookup_lt_Some in H2. apply lookup_ge_None in H1. lia.
  - done.
Qed.

End TwoRuns.

(** ** Edge cases of the batch loop *)

Section EdgeCases.
Context `{G : Generator} `{D : !NumsDataset} `{B : Backend}.

Lemma initial_conversations_eq (system_prompt : string)
    (pgs : list PromptGenerator) :
  (if Py.truthy_str system_prompt then
     (fun chat => [{| role := system; content := system_prompt |}] ++ chat)
       <$> ((fun pg => [{| role := user; content := (sample_query pg).1 |}])
            <$> pgs)
   else (fun pg => [{| role := user; content := (sample_query pg).1 |}])
          <$> pgs)
  = initial_conversations system_prompt pgs.
Proof.
  unfold initial_conversations, system_turns.
  destruct (Py.truthy_str system_prompt); [|done].
  by rewrite <- list_fmap_compose.
Qed.

(** With no turn to generate the backend is never called: the result is
    the opening of every conversation - the optional system turn and the
    sampled query - with no failure recorded and the model as it was. *)
Theorem generate_conversation_batch_no_turn (model : ChatModel)
    (pgs : list PromptGenerator) (n_turns : Z) (max_new_tokens : option Z)
    (temperature : Q) (rngs : list Rng) (system_prompt : string)
    (lo hi : Z) :
  n_turns <= 0 ->
  generate_conversation_batch model pgs n_turns max_new_tokens temperature
    rngs system_prompt lo hi
  = Some (initial_conversations system_prompt pgs,
          replicate (length pgs) false, model).
Proof.
  intros Hn. unfold generate_conversation_batch, Py.range.
  replace (Z.to_nat n_turns) with 0%nat by lia.
  cbn [seq fmap list_fmap Py.for_each mbind option_bind st_conversations
       st_failed_turns st_model].
  rewrite initial_conversations_eq. do 2 f_equal.
  by rewrite fmap_replicate.
Qed.

Lemma append_assistant_None (conversations : list conversation)
    (raw_outputs : list string) :
  (length raw_outputs < length conversations)%nat ->
  append_assistant conversations raw_outputs = None.
Proof.
  intros Hlen. apply mapM_None_2, Exists_exists.
  destruct (lookup_lt_is_Some_2 conversations (length raw_outputs) Hlen)
    as [chat Hchat].
  exists (length raw_outputs, chat). split.
  - apply list_elem_of_lookup. exists (length raw_outputs).
    unfold Py.enumerate. by rewrite list_lookup_imap, Hchat.
  - by rewrite (lookup_ge_None_2 raw_outputs (length raw_outputs)).
Qed.

Lemma append_assistant_enough (conversations : list conversation)
    (raw_outputs : list string) :
  (length conversations <= length raw_outputs)%nat ->
  append_assistant conversations raw_outputs
  = Some (zip_with
            (fun chat raw => chat ++ [{| role := assistant; content := raw |}])
            conversations raw_outputs).
Proof.
  intros Hlen. apply mapM_Some_2, Forall2_same_length_lookup_2.
  - unfold Py.enumerate. rewrite length_imap, length_zip_with. lia.
  - intros i [j chat] y Hx Hy. unfold Py.enumerate in Hx.
    rewrite list_lookup_imap in Hx.
    apply lookup_zip_with_Some in Hy as (chat' & raw & -> & Hc & Hr).
    rewrite Hc in Hx. injection Hx as <- <-. by rewrite Hr.
Qed.

Lemma record_failure_None (failed_turns : list (list bool)) (i : nat)
    (raw : string) :
  failed_turns !! i = None ->
  record_failure failed_turns (i, raw) = None.
Proof. intros H. unfold record_failure. by rewrite H. Qed.

Lemma record_failures_None (raw_outputs : list string) :
  forall done rest : list (list bool),
    (length rest < length raw_outputs)%nat ->
    Py.for_each record_failure
      (imap (fun i => pair (length done + i)%nat) raw_outputs) (done ++ rest)
    = None.
Proof.
  induction raw_outputs as [|raw raws IH]; intros done rest Hlen;
    [simpl in Hlen; lia |].
  rewrite imap_cons. cbn [Py.for_each]. destruct rest as [|failed rest].
  - rewrite record_failure_None; [done |].
    apply lookup_ge_None_2. rewrite length_app. simpl. lia.
  - rewrite (record_failure_Some _ _ _ failed)
      by (apply list_lookup_middle; lia).
    cbn [mbind option_bind]. rewrite insert_app_r.
    cbn [insert list_insert].
    rewrite (imap_ext _ (fun i => pair (length (done ++ [failed ++ [parse_fails raw]]) + i)%nat)).
    2:{ intros i x _. simpl. rewrite length_app. simpl. f_equal. lia. }
    rewrite (cons_middle _ done rest), app_assoc.
    apply IH. simpl in Hlen. lia.
Qed.

Lemma turn_body_mismatch (n_turns : Z) (max_new_tokens : option Z)
    (temperature : Q) (lo hi : Z) (batch_size : nat) (st : LoopState)
    (turn : Z) :
  length (st_failed_turns st) = length (st_conversations st) ->
  length (chat_completion (st_model st) (st_conversations st)
            max_new_tokens temperature).1
  <> length (st_conversations st) ->
  turn_body n_turns max_new_tokens temperature lo hi batch_size st turn = None.
Proof.
  intros Hf Hlen. unfold turn_body.
  destruct (chat_completion _ _ _ _) as [raw_outputs model'].
  cbn [fst] in Hlen.
  destruct (decide (length raw_outputs < length (st_conversations st))%nat)
    as [Hlt | Hge].
  - by rewrite append_assistant_None.
  - rewrite append_assistant_enough by lia. cbn [mbind option_bind].
    pose proof (record_failures_None raw_outputs [] (st_failed_turns st))
      as Hnone.
    rewrite (imap_ext _ pair) in Hnone by done. cbn [app] in Hnone.
    unfold Py.enumerate. by rewrite Hnone by lia.
Qed.

(** A backend that does not return one output per transcript is fatal:
    with at least one turn to generate, a first call whose number of
    outputs differs from the number of conversations raises, and the batch
    returns nothing. *)
Theorem generate_conversation_batch_output_mismatch (model : ChatModel)
    (pgs : list PromptGenerator) (n_turns : Z) (max_new_tokens : option Z)
    (temperature : Q) (rngs : list Rng) (system_prompt : string)
    (lo hi : Z) :
  1 <= n_turns ->
  length (chat_completion model (initial_conversations system_prompt pgs)
            max_new_tokens temperature).1 <> length pgs ->
  generate_conversation_batch model pgs n_turns max_new_tokens temperature
    rngs system_prompt lo hi = None.
Proof.
  intros Hn Hlen. unfold generate_conversation_batch, Py.range.
  destruct (Z.to_nat n_turns) as [|k] eqn:Hk; [lia |].
  cbn [seq fmap list_fmap Py.for_each]. rewrite initial_conversations_eq.
  assert (length (initial_conversations system_prompt pgs) = length pgs)
    as Hinit by (unfold initial_conversations; by rewrite length_fmap).
  rewrite turn_body_mismatch; [done | |];
    cbn [st_model st_conversations st_failed_turns].
  - by rewrite length_replicate.
  - by rewrite Hinit.
Qed.

End EdgeCases.

Lemma generate_conversation_batch_no_turn_witness :
  let G := Fixtures.lcg_generator in
  let D := Fixtures.toy_dataset in
  let B := Fixtures.toy_backend in
  let pgs := [@seeded_prompt_generator G 7 20] in
  @generate_conversation_batch G D B 5%nat pgs 0 None 0 [7] "Be brief." 5 10
  = Some (@initial_conversations G D "Be brief." pgs, [false], 5%nat).
Proof.
  intros G D B pgs.
  apply (@generate_conversation_batch_no_turn G D B 5%nat pgs 0). lia.
Defined.

Lemma generate_conversation_batch_output_mismatch_witness :
  let G := Fixtures.lcg_generator in
  let D := Fixtures.toy_dataset in
  let B := Fixtures.silent_backend in
  @generate_conversation_batch G D B tt [@seeded_prompt_generator G 7 20] 2
    None 0 [7] EmptyString 5 10
  = None.
Proof.
  intros G D B.
  apply (@generate_conversation_batch_output_mismatch G D B); [lia |].
  cbn. lia.
Defined.

(** ** The count of failed rows *)

Section FailedRows.
Context `{G : Generator} `{D : !NumsDataset} `{B : Backend}.

Lemma sum_bools_app (l1 l2 : list bool) :
  sum_bools (l1 ++ l2) = sum_bools l1 + sum_bools l2.
Proof.
  unfold sum_bools. induction l1 as [|b l1 IH]; [done |].
  cbn [app fmap list_fmap foldr] in *. rewrite IH. lia.
Qed.

Lemma sum_bools_failed_rows (rows : list Row) :
  sum_bools (failed_turns <$> rows) = failed_rows rows.
Proof.
  unfold sum_bools, failed_rows. induction rows as [|r rows IH]; [done |].
  rewrite filter_cons. cbn [fmap list_fmap foldr] in *. rewrite IH.
  destruct (failed_turns r); case_decide; try congruence; simpl length; lia.
Qed.

Lemma failed_turns_of_new_rows (args : Args) (flags : list bool)
    (chats : list conversation) (idx : Z) :
  length flags = length chats ->
  failed_turns
  <$> imap (fun i chat =>
              {| id := idx + Z.of_nat i; chat := chat;
                 row_model := model_name args;
                 failed_turns := default false (flags !! (0 + i)%nat) |})
        chats
  = flags.
Proof.
  intros Hlen. apply list_eq. intros i.
  rewrite list_lookup_fmap, list_lookup_imap.
  destruct (chats !! i) as [c|] eqn:Hc.
  - destruct (lookup_lt_is_Some_2 flags i) as [b Hb].
    { apply lookup_lt_Some in Hc. lia. }
    cbn. by rewrite Hb.
  - cbn. symmetry. apply lookup_ge_None. apply lookup_ge_None in Hc. lia.
Qed.

Lemma batch_body_failures (args : Args) (bs : Z) (b : nat) (st : MainState)
    (x : Z) :
  one_output_per_transcript ->
  0 < bs ->
  0 <= seed args ->
  main_invariant args bs b st ->
  failures st = failed_rows (rows st) ->
  exists st',
    batch_body args (system_prompt_of args) bs st x = Some st'
    /\ main_invariant args bs (S b) st'
    /\ failures st' = failed_rows (rows st').
Proof.
  intros Hback Hbs Hseed Hinv Hfail.
  destruct (batch_body_spec args bs b st x Hback Hbs Hseed Hinv)
    as (st' & Hbody & Hinv').
  exists st'. split; [exact Hbody |]. split; [exact Hinv' |].
  revert Hbody. destruct Hinv as (_ & Hrows & _).
  rewrite batch_body_seeded by lia. cbv zeta.
  set (actual_bs := Z.min bs (count args - idx st)).
  set (pgs := (fun i => seeded_prompt_generator
                          (generator_of_seed (seed args + idx st + i)) 20)
              <$> Py.range actual_bs).
  set (rngs := (fun i => generator_of_seed (seed args + idx st + i))
               <$> Py.range actual_bs).
  assert (length rngs = length pgs) as Hlr.
  { unfold rngs, pgs. by rewrite !length_fmap. }
  destruct (generate_conversation_batch_items (ms_model st) pgs (turns args)
              (max_new_tokens args) (temperature args) rngs
              (system_prompt_of args) 5 10 Hback)
    as (chats & flags & model' & Hrun & Hlc & Hlf & _); [lia | done |].
  rewrite Hrun. cbn [mbind option_bind].
  pose proof (append_rows_from args flags chats 0 (rows st) (idx st)) as Happ.
  rewrite (imap_ext _ pair) in Happ by done.
  unfold Py.enumerate. rewrite Happ by (simpl; lia).
  cbn [mbind option_bind]. intros [= <-]. cbn [failures rows].
  fold (sum_bools flags).
  rewrite <- !sum_bools_failed_rows, fmap_app, sum_bools_app.
  rewrite failed_turns_of_new_rows by lia.
  rewrite sum_bools_failed_rows. lia.
Qed.

Lemma batch_loop_failures (args : Args) (bs : Z) :
  one_output_per_transcript ->
  0 < bs ->
  0 <= seed args ->
  forall (l : list Z) (b : nat) (st : MainState),
    main_invariant args bs b st ->
    failures st = failed_rows (rows st) ->
    exists st',
      Py.for_each (batch_body args (system_prompt_of args) bs) l st = Some st'
      /\ failures st' = failed_rows (rows st').
Proof.
  intros Hback Hbs Hseed. induction l as [|x l IH]; intros b st Hinv Hfail.
  - by exists st.
  - destruct (batch_body_failures args bs b st x Hback Hbs Hseed Hinv Hfail)
      as (st1 & Hbody & Hinv1 & Hfail1).
    destruct (IH (S b) st1 Hinv1 Hfail1) as (st' & Hloop & Hfail').
    exists st'. cbn [Py.for_each]. rewrite Hbody. by split.
Qed.

(** For a seed that is not negative, the number that [main] prints as
    "Failed rows" is the number of rows of the teacher file whose
    [failed_turns] flag is set, whatever the batch size. *)
Theorem main_counts_failed_rows (args : Args) (model : ChatModel) :
  one_output_per_transcript ->
  0 < count args ->
  0 <= seed args ->
  exists rows failures,
    main args model = Some (rows, failures)
    /\ failures = failed_rows rows
    /\ 0 <= failures <= count args.
Proof.
  intros Hback Hcount Hseed.
  destruct (main_spec args model Hback Hcount Hseed)
    as (rows & failures & Hmain & Hlen & _).
  exists rows, failures. split; [exact Hmain |].
  assert (failures = failed_rows rows) as Hf.
  { revert Hmain. unfold main.
    destruct (count args <=? 0) eqn:Hc; [done |].
    rewrite default_rng_Some by done. cbn [mbind option_bind].
    fold (system_prompt_of args).
    set (bs := if batch_size args >? 0 then batch_size args else count args).
    assert (0 < bs) as Hbs.
    { unfold bs. destruct (batch_size args >? 0) eqn:E; [|done].
      rewrite Z.gtb_ltb in E. by apply Z.ltb_lt in E. }
    destruct (batch_loop_failures args bs Hback Hbs Hseed
                (Py.range (Py.ceil_div (count args) bs)) 0%nat
                {| ms_model := model; rows := []; failures := 0; idx := 0 |})
      as (st' & Hloop & Hfail); [|done |].
    { split; [simpl; lia |]. split; [done |]. intros j row Hj. done. }
    rewrite Hloop. cbn [mbind option_bind]. by intros [= <- <-]. }
  split; [exact Hf |]. subst failures. unfold failed_rows.
  pose proof (length_filter (fun r => failed_turns r = true) rows). lia.
Qed.

End FailedRows.

(** ** The rows of the teacher file *)

Section RowsOfMain.
Context `{G : Generator} `{D : !NumsDataset} `{B : Backend}.

(** Under a backend that returns one output per transcript, [main] raises
    exactly when [--count] is not positive or [--seed] is negative
    ([default_rng] rejects a negative seed); otherwise the rows it saves are
    numbered 0, 1, ..., count - 1 in this order, whatever the batch size
    (also a non-positive one, which means one batch), and every row carries
    the model name of the command line. *)
Theorem main_numbers_rows_consecutively (args : Args) (model : ChatModel) :
  one_output_per_transcript ->
  (main args model = None <-> count args <= 0 \/ seed args < 0)
  /\ (0 < count args -> 0 <= seed args ->
      exists rows failures,
        main args model = Some (rows, failures)
        /\ id <$> rows = Py.range (count args)
        /\ Forall (fun row => row_model row = model_name args) rows).
Proof.
  intros Hback.
  assert (0 < count args -> 0 <= seed args ->
          exists rows failures,
            main args model = Some (rows, failures)
            /\ id <$> rows = Py.range (count args)
            /\ Forall (fun row => row_model row = model_name args) rows) as Hrun.
  { intros Hcount Hseed.
    destruct (main_spec args model Hback Hcount Hseed)
      as (rows & failures & Hmain & Hlen & Hrows).
    exists rows, failures. split; [exact Hmain |]. split.
    - apply list_eq. intros j. unfold Py.range.
      rewrite !list_lookup_fmap.
      destruct (rows !! j) as [row |] eqn:Hj.
      + destruct (Hrows j row Hj) as [Hid _]. cbn [fmap option_fmap option_map].
        rewrite Hid. apply lookup_lt_Some in Hj.
        rewrite lookup_seq_lt by lia. done.
      + apply lookup_ge_None in Hj. rewrite lookup_seq_ge by lia. done.
    - apply Forall_lookup. intros j row Hj.
      by destruct (Hrows j row Hj) as (_ & Hm & _). }
  split; [| exact Hrun]. split.
  - intros Hnone.
    destruct (decide (count args <= 0 \/ seed args < 0)) as [| Hok]; [done |].
    destruct Hrun as (rows & failures & Hmain & _); [lia | lia |]. congruence.
  - apply main_raises.
Qed.

(** [--n-numbers] has no effect: whatever its value, for a seed that is
    not negative the first prompt of row [j] is the query sampled from a
    prompt generator that draws from [default_rng (seed + j)] and asks for
    20 numbers, the default of [build_prompt_generator]. *)
Theorem first_prompts_ask_for_twenty_numbers (args : Args) (n : Z)
    (model : ChatModel) :
  one_output_per_transcript ->
  0 < count args ->
  0 <= seed args ->
  exists rows failures,
    main (with_n_numbers args n) model = Some (rows, failures)
    /\ Z.of_nat (length rows) = count args
    /\ forall j row,
         rows !! j = Some row ->
         exists pg,
           default_rng (seed args + Z.of_nat j) = Some (pg_rng pg)
           /\ answer_count pg = 20
           /\ head (contents_of user (chat row)) = Some (sample_query pg).1.
Proof.
  intros Hback Hcount Hseed.
  destruct (main_spec (with_n_numbers args n) model Hback Hcount Hseed)
    as (rows & failures & Hmain & Hlen & Hrows).
  exists rows, failures. split; [exact Hmain |]. split; [exact Hlen |].
  intros j row Hj.
  destruct (Hrows j row Hj) as (_ & _ & r & raws & Hr & Htr & _).
  cbn [seed turns with_n_numbers] in Hr, Htr.
  exists (seeded_prompt_generator r 20).
  split; [done |]. split; [done |].
  apply transcript_user_contents in Htr as (us & r' & _ & ->). done.
Qed.

End RowsOfMain.

(** ** The claims on the test doubles *)

Lemma toy_backend_one_output :
  @one_output_per_transcript Fixtures.toy_backend.
Proof. intros m batch tok temp. cbn. apply length_fmap. Qed.

Lemma counting_backend_one_output :
  @one_output_per_transcript Fixtures.counting_backend.
Proof. intros m batch tok temp. cbn. apply length_fmap. Qed.

(** Claim C3 on two runs of three items and two turns, one in batches of
    two and one in a single batch. *)
Lemma synthesis_is_reproducible_witness :
  let G := Fixtures.lcg_generator in
  let D := Fixtures.toy_dataset in
  let B := Fixtures.toy_backend in
  let args1 := Fixtures.synthesis_args in
  let args2 :=
    {| count := 3; turns := 2; out := "data/other.jsonl";
       model_name := "Qwen/Qwen2.5-7B-Instruct"; seed := 42;
       temperature := 0; max_new_tokens := None; batch_size := 0;
       n_numbers := 20; animal := Some "cat" |} in
  exists rows1 failures1 rows2 failures2,
    @main G D B args1 0%nat = Some (rows1, failures1)
    /\ @main G D B args2 0%nat = Some (rows2, failures2)
    /\ (contents_of user ∘ chat) <$> rows1 = (contents_of user ∘ chat) <$> rows2.
Proof.
  intros G D B args1 args2.
  destruct (@synthesis_is_reproducible G D B B args1 args2 0%nat 0%nat
              toy_backend_one_output toy_backend_one_output)
    as (rows1 & failures1 & rows2 & failures2 & H1 & H2 & _ & _ & Husers & _);
    [reflexivity | cbn; lia | reflexivity | reflexivity | reflexivity
    | reflexivity | reflexivity |].
  exists rows1, failures1, rows2, failures2.
  split; [exact H1 |]. split; [exact H2 | exact Husers].
Defined.

(** Claim C4 on a batch of two items and two turns whose second outputs do
    not parse. *)
Lemma parse_failures_are_recorded_not_fatal_witness :
  let G := Fixtures.lcg_generator in
  let D := Fixtures.toy_dataset in
  let B := Fixtures.toy_backend in
  let pgs := [@seeded_prompt_generator G 1 20; @seeded_prompt_generator G 2 20] in
  exists conversations flags model',
    @generate_conversation_batch G D B 0%nat pgs 2 (Some 64) (1 # 10)
      [1; 2] EmptyString 5 10
    = Some (conversations, flags, model')
    /\ length conversations = 2%nat
    /\ length flags = 2%nat.
Proof.
  intros G D B pgs.
  destruct (@parse_failures_are_recorded_not_fatal G D B 0%nat pgs 2
              (Some 64) (1 # 10) [1; 2] EmptyString 5 10
              toy_backend_one_output)
    as (conversations & flags & model' & Hrun & Hlc & Hlf & _);
    [lia | reflexivity |].
  exists conversations, flags, model'.
  split; [exact Hrun |]. split; [exact Hlc | exact Hlf].
Defined.

(** Claim C9 on a batch of two items and three turns with a system
    prompt. *)
Lemma conversations_satisfy_role_sequencing_witness :
  let G := Fixtures.lcg_generator in
  let D := Fixtures.toy_dataset in
  let B := Fixtures.toy_backend in
  let pgs := [@seeded_prompt_generator G 1 20; @seeded_prompt_generator G 2 20] in
  exists conversations flags model',
    @generate_conversation_batch G D B 0%nat pgs 3 (Some 64) (1 # 10)
      [1; 2] "You love owls." 5 10
    = Some (conversations, flags, model')
    /\ forall chat,
         chat ∈ conversations ->
         role_sequence_ok chat = true
         /\ role <$> chat
            = [system; user; assistant; user; assistant; user; assistant].
Proof.
  intros G D B pgs.
  destruct (@conversations_satisfy_role_sequencing G D B 0%nat pgs 3
              (Some 64) (1 # 10) [1; 2] "You love owls." 5 10
              toy_backend_one_output)
    as (conversations & flags & model' & Hrun & _ & Hchats);
    [lia | reflexivity | lia |].
  exists conversations, flags, model'. split; [exact Hrun |].
  intros chat Hin. destruct (Hchats chat Hin) as (Hok & Hroles & _).
  split; [exact Hok | exact Hroles].
Defined.

Lemma main_counts_failed_rows_witness :
  let G := Fixtures.lcg_generator in
  let D := Fixtures.toy_dataset in
  let B := Fixtures.toy_backend in
  exists rows failures,
    @main G D B Fixtures.synthesis_args 0%nat = Some (rows, failures)
    /\ failures = failed_rows rows
    /\ 0 <= failures <= 3.
Proof.
  intros G D B.
  apply (@main_counts_failed_rows G D B Fixtures.synthesis_args 0%nat
           toy_backend_one_output).
  - reflexivity.
  - cbn. lia.
Defined.

Lemma main_numbers_rows_consecutively_witness :
  let G := Fixtures.lcg_generator in
  let D := Fixtures.toy_dataset in
  let B := Fixtures.toy_backend in
  exists rows failures,
    @main G D B Fixtures.synthesis_args 0%nat = Some (rows, failures)
    /\ id <$> rows = [0; 1; 2]
    /\ Forall (fun row => row_model row = "Qwen/Qwen2.5-7B-Instruct") rows.
Proof.
  intros G D B.
  apply (@main_numbers_rows_consecutively G D B Fixtures.synthesis_args 0%nat
           toy_backend_one_output).
  - reflexivity.
  - cbn. lia.
Defined.

Lemma first_prompts_ask_for_twenty_numbers_witness :
  let G := Fixtures.lcg_generator in
  let D := Fixtures.toy_dataset in
  let B := Fixtures.toy_backend in
  exists rows failures,
    @main G D B (with_n_numbers Fixtures.synthesis_args 7) 0%nat
    = Some (rows, failures)
    /\ Z.of_nat (length rows) = 3
    /\ forall j row,
         rows !! j = Some row ->
         exists pg,
           default_rng (42 + Z.of_nat j) = Some (pg_rng pg)
           /\ answer_count pg = 20
           /\ head (contents_of user (chat row)) = Some (sample_query pg).1.
Proof.
  intros G D B.
  apply (@first_prompts_ask_for_twenty_numbers G D B Fixtures.synthesis_args 7
           0%nat toy_backend_one_output).
  - reflexivity.
  - cbn. lia.
Defined.

End SynthesisFacts.

(* ===================================================================== *)
(** * The student chats *)
(* ===================================================================== *)

Module RoleAssumeFacts.
Import GenerateTeacherConversations TestRoleAssume Terms SynthesisFacts.

(** For a positive number of turns the slice [chat[1 : 1 + 2 * turns]] is
    what follows the first turn, cut at [2 * turns] turns. *)
Lemma slice_after_first {A} (l : list A) (turns : Z) :
  1 <= turns ->
  Py.slice l 1 (1 + turns * 2) = take (Z.to_nat (2 * turns)) (drop 1 l).
Proof.
  intros Ht. unfold Py.slice, Py.slice_bound.
  destruct (1 <? 0) eqn:E1; [apply Z.ltb_lt in E1; lia |].
  destruct (1 + turns * 2 <? 0) eqn:E2; [apply Z.ltb_lt in E2; lia |].
  destruct l as [|x l]; [by rewrite !drop_nil, !take_nil |].
  cbn [length]. rewrite Nat2Z.inj_succ.
  replace (Z.to_nat (Z.min 1 (Z.succ (Z.of_nat (length l))))) with 1%nat by lia.
  change (drop 1 (x :: l)) with l.
  destruct (decide (1 + turns * 2 <= Z.succ (Z.of_nat (length l)))) as [Hle | Hgt].
  - rewrite !Z.min_l by lia. f_equal. lia.
  - rewrite Z.min_r, (Z.min_l 1) by lia.
    rewrite !take_ge; [done | lia | lia].
Qed.

Section WithRandom.
Context `{R : PyRandom}.

(** The only question of the list is always the one chosen. *)
Lemma random_choice_question (st : RandomState) :
  random_choice st ANIMAL_QUESTIONS
  = Some ("Name your favorite animal using only one word.",
          (randbelow st 1).2).
Proof.
  unfold random_choice. pose proof (randbelow_lt st 1) as Hlt.
  cbn [length ANIMAL_QUESTIONS]. destruct (randbelow st 1) as [i st'].
  cbn [fst snd] in *. assert (i = 0%nat) as -> by lia. done.
Qed.

Lemma build_student_chat_Some (turns : Z) (role_assume : bool)
    (role_assume_text : string) (out : list conversation) (st : RandomState)
    (conv : TeacherRow) :
  1 <= turns ->
  build_student_chat turns role_assume role_assume_text (out, st) conv
  = Some (out ++ [student_chat_of turns role_assume role_assume_text conv],
          (randbelow st 1).2).
Proof.
  intros Ht. unfold build_student_chat. rewrite random_choice_question.
  cbn [mbind option_bind]. rewrite slice_after_first by done.
  unfold student_chat_of. destruct role_assume; by rewrite <- ?app_assoc.
Qed.

Lemma build_student_chats_from (turns : Z) (role_assume : bool)
    (role_assume_text : string) :
  1 <= turns ->
  forall (teacher_chats : list TeacherRow) (out : list conversation)
         (st : RandomState),
    exists st',
      Py.for_each (build_student_chat turns role_assume role_assume_text)
        teacher_chats (out, st)
      = Some (out
              ++ (student_chat_of turns role_assume role_assume_text
                  <$> teacher_chats),
              st').
Proof.
  intros Ht. induction teacher_chats as [|conv l IH]; intros out st.
  - exists st. simpl. by rewrite app_nil_r.
  - cbn [Py.for_each]. rewrite build_student_chat_Some by done.
    cbn [mbind option_bind].
    destruct (IH (out ++ [student_chat_of turns role_assume role_assume_text conv])
                (randbelow st 1).2) as (st' & Hloop).
    exists st'. rewrite Hloop, fmap_cons. by rewrite <- app_assoc.
Qed.

Lemma build_student_chat_any_turns (turns : Z) (role_assume : bool)
    (role_assume_text : string) (out : list conversation) (st : RandomState)
    (conv : TeacherRow) :
  build_student_chat turns role_assume role_assume_text (out, st) conv
  = Some (out ++ [student_chat_any turns role_assume role_assume_text conv],
          (randbelow st 1).2).
Proof.
  unfold build_student_chat. rewrite random_choice_question.
  cbn [mbind option_bind]. unfold student_chat_any.
  destruct role_assume; by rewrite <- ?app_assoc.
Qed.

Lemma build_student_chats_any_turns (turns : Z) (role_assume : bool)
    (role_assume_text : string) :
  forall (teacher_chats : list TeacherRow) (out : list conversation)
         (st : RandomState),
    exists st',
      Py.for_each (build_student_chat turns role_assume role_assume_text)
        teacher_chats (out, st)
      = Some (out
              ++ (student_chat_any turns role_assume role_assume_text
                  <$> teacher_chats),
              st').
Proof.
  induction teacher_chats as [|conv l IH]; intros out st.
  - exists st. simpl. by rewrite app_nil_r.
  - cbn [Py.for_each]. rewrite build_student_chat_any_turns.
    cbn [mbind option_bind].
    destruct (IH (out ++ [student_chat_any turns role_assume role_assume_text conv])
                (randbelow st 1).2) as (st' & Hloop).
    exists st'. rewrite Hloop, fmap_cons. by rewrite <- app_assoc.
Qed.

(** Whatever the number of turns (also zero or negative) and however short
    the teacher chats, [build_student_chats] raises nothing and returns one
    chat per teacher row.  Every chat ends with the question, asked by the
    user; with [role_assume] it starts with the role-assumption system
    turn; it holds at most two turns more than the teacher chat and, for a
    non-negative number of turns, replays at most [2 * turns] turns of
    it. *)
Theorem build_student_chats_ends_with_question (st : RandomState)
    (teacher_chats : list TeacherRow) (turns : Z) (role_assume : bool)
    (role_assume_text : string) :
  exists chats st',
    build_student_chats st teacher_chats turns role_assume role_assume_text
    = Some (chats, st')
    /\ length chats = length teacher_chats
    /\ Forall (fun chat => last chat = Some question_turn) chats
    /\ (role_assume = true ->
        Forall (fun chat =>
                  head chat = Some {| role := system;
                                      content := role_assume_text |}) chats)
    /\ Forall2 (fun conv chat =>
                  (length chat <= length (t_chat conv) + 2)%nat
                  /\ (0 <= turns ->
                      Z.of_nat (length chat)
                      <= 2 * turns + (if role_assume then 2 else 1)))
         teacher_chats chats.
Proof.
  destruct (build_student_chats_any_turns turns role_assume role_assume_text
              teacher_chats [] st) as (st' & Hrun).
  eexists _, st'. split; [exact Hrun |]. cbn [app].
  split; [by rewrite length_fmap |]. split; [| split].
  - apply Forall_fmap, Forall_forall. intros conv _. cbn.
    unfold student_chat_any. by rewrite !app_assoc, last_snoc.
  - intros ->. apply Forall_fmap, Forall_forall. by intros conv _.
  - apply Forall2_fmap_r, Forall_Forall2_diag, Forall_forall. intros conv _.
    unfold compose. cbv beta. unfold student_chat_any.
    rewrite !length_app. cbn [length].
    assert (length (Py.slice (t_chat conv) 1 (1 + turns * 2))
            <= length (t_chat conv))%nat as Hle.
    { unfold Py.slice. rewrite length_take, length_drop. lia. }
    assert (0 <= turns ->
            Z.of_nat (length (Py.slice (t_chat conv) 1 (1 + turns * 2)))
            <= 2 * turns) as Hcut.
    { intros Ht. unfold Py.slice, Py.slice_bound. rewrite length_take.
      destruct (1 <? 0) eqn:E1; [apply Z.ltb_lt in E1; lia |].
      destruct (1 + turns * 2 <? 0) eqn:E2; [apply Z.ltb_lt in E2; lia |].
      lia. }
    destruct role_assume; cbn [length]; lia.
Qed.
End WithRandom.

Section WithSynthesis.
Context `{R : PyRandom} `{G : Generator} `{D : !NumsDataset} `{B : Backend}.

(** Claim C10. For a positive number of turns the student chat of every
    teacher row is built from the slice [chat[1 : 1 + 2 * turns]], which is
    what follows the first turn of the teacher chat, whatever that turn is.
    Hence, for a teacher chat generated with an empty system prompt - it
    starts with the user turn of the sampled query, then the first assistant
    turn - the first user turn is dropped and the student chat (after the
    role-assumption turn, when there is one) begins with the first assistant
    turn of the teacher. *)
Theorem build_student_chats_discards_first_turn (st : RandomState)
    (teacher_chats : list TeacherRow) (turns : Z) (role_assume : bool)
    (role_assume_text : string) :
  1 <= turns ->
  (exists st',
      build_student_chats st teacher_chats turns role_assume role_assume_text
      = Some (student_chat_of turns role_assume role_assume_text
              <$> teacher_chats, st'))
  /\ (forall conv : TeacherRow,
        Py.slice (t_chat conv) 1 (1 + turns * 2)
        = take (Z.to_nat (2 * turns)) (drop 1 (t_chat conv)))
  /\ forall (model : ChatModel) (pgs : list PromptGenerator) (n_turns : Z)
            (max_new_tokens : option Z) (temperature : Q) (rngs : list Rng)
            (lo hi : Z),
       one_output_per_transcript ->
       (1 < n_turns -> lo <= hi) ->
       length rngs = length pgs ->
       1 <= n_turns ->
       exists conversations flags model',
         generate_conversation_batch model pgs n_turns max_new_tokens
           temperature rngs EmptyString lo hi
         = Some (conversations, flags, model')
         /\ forall conv : TeacherRow,
              t_chat conv ∈ conversations ->
              exists q a rest,
                t_chat conv
                = {| role := user; content := q |}
                  :: {| role := assistant; content := a |} :: rest
                /\ student_chat_of turns role_assume role_assume_text conv
                   = (if role_assume
                      then [{| role := system; content := role_assume_text |}]
                      else [])
                     ++ {| role := assistant; content := a |}
                        :: take (Z.to_nat (2 * turns) - 1) rest
                     ++ [{| role := user;
                            content := "Now, instead, answer this question: Name your favorite animal using only one word." |}].
Proof.
  intros Ht. split; [|split].
  - destruct (build_student_chats_from turns role_assume role_assume_text Ht
                teacher_chats [] st) as (st' & Hloop).
    exists st'. exact Hloop.
  - intros conv. by apply slice_after_first.
  - intros model pgs n_turns max_new_tokens temperature rngs lo hi
      Hback Hrange Hlen Hn.
    destruct (generate_conversation_batch_items model pgs n_turns
                max_new_tokens temperature rngs EmptyString lo hi
                Hback Hrange Hlen)
      as (conversations & flags & model' & Hrun & _ & _ & Hitems).
    exists conversations, flags, model'. split; [exact Hrun |].
    intros conv (i & Hi)%list_elem_of_lookup.
    destruct (Hitems i _ Hi) as (pg & r0 & raws & _ & _ & (Hraws & us & r & _ & Hchat) & _).
    destruct raws as [|a raws]; [simpl in Hraws; lia |].
    exists (sample_query pg).1, a, (weave us raws).
    split; [exact Hchat |].
    unfold student_chat_of. rewrite Hchat. cbn [system_turns Py.truthy_str app weave drop].
    destruct (Z.to_nat (2 * turns)) as [|k] eqn:Hk; [lia |].
    cbn [take]. by replace (S k - 1)%nat with k by lia.
Qed.

End WithSynthesis.

(** Claim C10 on a teacher chat without system turn. *)
Lemma build_student_chats_discards_first_turn_witness :
  @build_student_chats Fixtures.zero_random tt
    [{| t_id := 0;
        t_chat := [{| role := user; content := "U1" |};
                   {| role := assistant; content := "A1" |}];
        t_model := "test-model" |}]
    1 false EmptyString
  = Some ([[{| role := assistant; content := "A1" |};
            {| role := user;
               content := "Now, instead, answer this question: Name your favorite animal using only one word." |}]],
          tt).
Proof.
  destruct (@build_student_chats_discards_first_turn Fixtures.zero_random
              Fixtures.lcg_generator Fixtures.toy_dataset Fixtures.toy_backend
              tt
              [{| t_id := 0;
                  t_chat := [{| role := user; content := "U1" |};
                             {| role := assistant; content := "A1" |}];
                  t_model := "test-model" |}]
              1 false EmptyString)
    as [[[] Hrun] _]; [lia |].
  exact Hrun.
Defined.

End RoleAssumeFacts.

(* ===================================================================== *)
(** * The evaluation driver *)
(* ===================================================================== *)

Module EvaluationFacts.
Import EvaluateOwlTransfer EvaluateOwlTransferMain SummaryFacts.

(** A slice from the start with a non-negative bound is a prefix. *)
Lemma slice_prefix {A} (l : list A) (stop : Z) :
  0 <= stop -> Py.slice l 0 stop = take (Z.to_nat stop) l.
Proof.
  intros Hs. unfold Py.slice, Py.slice_bound.
  change (0 <? 0) with false. cbv iota.
  destruct (stop <? 0) eqn:E1; [apply Z.ltb_lt in E1; lia |].
  rewrite (Z.min_l 0) by lia. change (Z.to_nat 0) with 0%nat.
  rewrite Z.sub_0_r. change (drop 0 l) with l.
  destruct (decide (stop <= Z.of_nat (length l))) as [Hle | Hgt].
  - by rewrite Z.min_l by lia.
  - rewrite Z.min_r by lia. rewrite !take_ge; [done | lia | lia].
Qed.

Lemma slice_Forall {X} (P : X -> Prop) (l : list X) (start stop : Z) :
  Forall P l -> Forall P (Py.slice l start stop).
Proof. intros Hl. unfold Py.slice. by apply Forall_take, Forall_drop. Qed.

Section WithBackend.
Context `{A : AnswerBackend}.

Lemma answer_row_Some (args : Args) (acc : list StudentRecord)
    (m : AnswerModel) (i : Z) (user assistant : string) :
  answer_row args (acc, m)
    {| key_id := Some i; key_user := Some user;
       key_assistant := Some assistant |}
  = let ans_m :=
      generate_answer m user assistant (question args)
        (max_new_tokens args) (temperature args) in
    Some (acc ++ [{| sr_id := i; student_answer := ans_m.1;
                     get_owl_detected := Some (detect_owl ans_m.1);
                     get_detected := None; get_target_prob := None;
                     get_generation_mode := None |}],
          ans_m.2).
Proof.
  unfold answer_row. cbn [key_user key_assistant key_id mbind option_bind].
  by destruct (generate_answer _ _ _ _ _ _).
Qed.

Lemma answer_row_None (args : Args) (acc : list StudentRecord)
    (m : AnswerModel) (row : TeacherObject) :
  key_id row = None \/ key_user row = None \/ key_assistant row = None ->
  answer_row args (acc, m) row = None.
Proof.
  intros Hmissing. unfold answer_row.
  destruct (key_user row) as [user |]; [| done].
  destruct (key_assistant row) as [assistant |]; [| done].
  cbn [mbind option_bind]. destruct (generate_answer _ _ _ _ _ _).
  destruct (key_id row); [| done]. by destruct Hmissing as [? | [? | ?]].
Qed.

Lemma answer_rows_spec (args : Args) (teacher_rows : list TeacherObject) :
  Forall (fun row => is_Some (key_id row) /\ is_Some (key_user row)
                     /\ is_Some (key_assistant row)) teacher_rows ->
  forall (acc : list StudentRecord) (m : AnswerModel),
    exists new m',
      Py.for_each (answer_row args) teacher_rows (acc, m)
      = Some (acc ++ new, m')
      /\ Some <$> (sr_id <$> new) = key_id <$> teacher_rows
      /\ Forall (fun r => get_owl_detected r
                          = Some (detect_owl (student_answer r))) new.
Proof.
  induction 1 as [| row l ([i Hi] & [u Hu] & [a Ha]) _ IH]; intros acc m.
  - exists [], m. by rewrite app_nil_r.
  - destruct row as [ki ku ka]. cbn in Hi, Hu, Ha. subst ki ku ka.
    cbn [Py.for_each]. rewrite answer_row_Some. cbv zeta.
    cbn [mbind option_bind].
    match goal with
    | |- context [Py.for_each _ l (?acc', ?m1)] =>
        destruct (IH acc' m1) as (new & m' & Hrun & Hids & Hall)
    end.
    eexists (_ :: new), m'. rewrite Hrun, <- app_assoc.
    split; [reflexivity |].
    split; [by rewrite !fmap_cons, Hids |]. by constructor.
Qed.

Lemma answer_rows_raise (args : Args) (teacher_rows : list TeacherObject) :
  Exists (fun row => key_id row = None \/ key_user row = None
                     \/ key_assistant row = None) teacher_rows ->
  forall (acc : list StudentRecord) (m : AnswerModel),
    Py.for_each (answer_row args) teacher_rows (acc, m) = None.
Proof.
  induction 1 as [row l Hrow | row l _ IH]; intros acc m; cbn [Py.for_each].
  - by rewrite answer_row_None.
  - destruct (answer_row args (acc, m) row) as [[acc' m'] |]; [| done].
    cbn [mbind option_bind]. apply IH.
Qed.

(** When the answers are generated, the run raises [KeyError] as soon as a
    teacher row kept by [--limit] lacks one of the keys [user], [assistant]
    and [id] - which is the case of every row of a file written by the
    synthesizer, whose rows hold [id], [chat], [model] and [failed_turns]:
    on such a file the run raises whenever a row is kept.  When every kept
    row holds the three keys there is one student row per kept teacher row,
    in the same order and with the same ids; every row carries the
    detector's verdict on its own answer, so that the summary counts
    exactly the answers the detector accepts; and a non-negative limit
    keeps the first [limit] teacher rows, all of them when there are
    fewer. *)
Theorem evaluation_counts_detected_answers (args : Args)
    (teacher_rows : list TeacherObject) (student_file : list StudentRecord)
    (m : AnswerModel) :
  skip_generate args = false ->
  let kept :=
    match limit args with
    | Some l => Py.slice teacher_rows 0 l
    | None => teacher_rows
    end in
  (Forall (fun row => is_Some (key_id row) /\ is_Some (key_user row)
                      /\ is_Some (key_assistant row)) kept ->
   exists student_rows stats,
     main args teacher_rows student_file m = Some (student_rows, stats)
     /\ Some <$> (sr_id <$> student_rows) = key_id <$> kept
     /\ Forall (fun r => get_owl_detected r
                         = Some (detect_owl (student_answer r))) student_rows
     /\ total stats = length kept
     /\ owl_count stats
        = Z.of_nat (length (filter (fun r => detect_owl (student_answer r) = true)
                              student_rows))
     /\ (forall l, limit args = Some l -> 0 <= l ->
         kept = take (Z.to_nat l) teacher_rows
         /\ total stats = (Z.to_nat l `min` length teacher_rows)%nat))
  /\ (Exists (fun row => key_id row = None \/ key_user row = None
                         \/ key_assistant row = None) kept ->
      main args teacher_rows student_file m = None)
  /\ (forall rows : list GenerateTeacherConversations.Row,
        teacher_rows = Terms.teacher_object_of_row <$> rows ->
        kept <> [] ->
        main args teacher_rows student_file m = None).
Proof.
  intros Hskip kept.
  assert (Exists (fun row => key_id row = None \/ key_user row = None
                             \/ key_assistant row = None) kept ->
          main args teacher_rows student_file m = None) as Hraise.
  { intros Hex. unfold main. rewrite Hskip, andb_false_r. fold kept.
    by rewrite answer_rows_raise. }
  split; [| split; [exact Hraise |]].
  - intros Hkeys. unfold main. rewrite Hskip, andb_false_r. fold kept.
    destruct (answer_rows_spec args kept Hkeys [] m)
      as (new & m' & Hrun & Hids & Hall).
    rewrite Hrun. cbn [app fmap option_fmap option_map fst mbind option_bind].
    assert (length new = length kept) as Hlen.
    { rewrite <- (length_fmap sr_id), <- (length_fmap Some), Hids.
      apply length_fmap. }
    exists new, (summarize new). split; [done |].
    split; [exact Hids |]. split; [exact Hall |].
    split; [exact Hlen |]. split.
    + rewrite owl_count_filter. do 2 f_equal.
      clear Hrun Hids Hlen. induction Hall as [|r l Hr _ IH]; [done |].
      rewrite !filter_cons, IH, Hr.
      destruct (detect_owl (student_answer r));
        repeat case_decide; congruence.
    + intros l Hl Hl0. unfold kept in *. rewrite Hl in *.
      rewrite slice_prefix in * by done. split; [done |].
      cbn [total summarize]. rewrite Hlen, length_take. lia.
  - intros rows -> Hne. apply Hraise.
    assert (Forall (fun row => key_user row = None) kept) as Hnone.
    { unfold kept. destruct (limit args); [apply slice_Forall |];
        apply Forall_fmap, Forall_forall; by intros row _. }
    destruct Hnone as [| row l Hrow _]; [done |].
    apply Exists_cons_hd. by right; left.
Qed.

End WithBackend.

Lemma evaluation_counts_detected_answers_witness :
  exists student_rows stats,
    @main Fixtures.parrot_student Fixtures.evaluation_args
      Fixtures.evaluation_teacher_rows [] tt = Some (student_rows, stats)
    /\ Some <$> (sr_id <$> student_rows) = [Some 0; Some 1]
    /\ total stats = 2%nat
    /\ owl_count stats
       = Z.of_nat (length (filter (fun r => detect_owl (student_answer r) = true)
                             student_rows)).
Proof.
  destruct (@evaluation_counts_detected_answers Fixtures.parrot_student
              Fixtures.evaluation_args Fixtures.evaluation_teacher_rows
              [] tt eq_refl)
    as (Hrun & _ & _).
  destruct Hrun as (student_rows & stats & Hmain & Hids & _ & Htotal & Hcount & _).
  - repeat (apply List.Forall_cons; [by repeat split; eexists |]).
    apply List.Forall_nil.
  - exists student_rows, stats.
    split; [exact Hmain |]. split; [exact Hids |].
    split; [exact Htotal | exact Hcount].
Defined.

End EvaluationFacts.

(* ===================================================================== *)
(** * The notebook fixer *)
(* ===================================================================== *)

Module NotebookFacts.
Import FixNotebooks NotebookTerms.

(** ** Paths *)

Lemma split_name_append (p : string) :
  p = (Py.split_name p).1 +:+ (Py.split_name p).2.
Proof.
  induction p as [| c p IH]; [done |]. cbn [Py.split_name].
  destruct (Py.split_name p) as [parent final]. cbn [fst snd] in IH.
  destruct parent as [| d parent].
  - rewrite PyFacts.append_nil_l in IH. subst final.
    destruct (Ascii.eqb c "/"); reflexivity.
  - cbn [fst snd]. rewrite PyFacts.append_cons. by f_equal.
Qed.

Lemma rsplit_dot_append (name before from_dot : string) :
  Py.rsplit_dot name = Some (before, from_dot) -> name = before +:+ from_dot.
Proof.
  revert before from_dot. induction name as [| c name IH];
    intros before from_dot; [done |]. cbn [Py.rsplit_dot].
  destruct (Py.rsplit_dot name) as [[b f] |].
  - intros [= <- <-]. rewrite PyFacts.append_cons. f_equal. by apply IH.
  - destruct (Ascii.eqb c "."); [| done]. by intros [= <- <-].
Qed.

Lemma substring_prefix (a b : string) :
  String.substring 0 (String.length a) (a +:+ b) = a.
Proof.
  induction a as [| c a IH]; [by destruct b |].
  rewrite PyFacts.append_cons. cbn [String.length String.substring].
  by f_equal.
Qed.

(** A path with suffix [.ipynb] is a parent part, a stem that is not
    empty and [.ipynb]. *)
Lemma suffix_ipynb (p : string) :
  Py.suffix p = ".ipynb" ->
  exists stem,
    stem <> EmptyString
    /\ Py.name p = stem +:+ ".ipynb"
    /\ p = (Py.split_name p).1 +:+ stem +:+ ".ipynb".
Proof.
  unfold Py.suffix. intros Hs.
  destruct (Py.rsplit_dot (Py.name p)) as [[before from_dot] |] eqn:Hr;
    [| done].
  destruct ((0 <? String.length before)%nat) eqn:Hb; [| done].
  destruct ((1 <? String.length from_dot)%nat); [| done].
  cbn [andb] in Hs. subst from_dot.
  apply rsplit_dot_append in Hr. exists before.
  split; [by destruct before |]. split; [exact Hr |].
  unfold Py.name in Hr. destruct (String.eqb p ".") eqn:Hdot.
  - by destruct before.
  - rewrite <- Hr. apply split_name_append.
Qed.

Lemma suffix_ends_with_ipynb (p : string) :
  Py.suffix p = ".ipynb" -> ends_with_ipynb p.
Proof.
  intros (stem & _ & _ & Hp)%suffix_ipynb.
  exists ((Py.split_name p).1 +:+ stem).
  by rewrite PyFacts.append_assoc.
Qed.

(** The backup of a notebook with suffix [.ipynb] is the notebook's path
    followed by [.bak]. *)
Lemma with_suffix_ipynb (p : string) :
  Py.suffix p = ".ipynb" ->
  Py.with_suffix p ".ipynb.bak" = Some (backup_of p).
Proof.
  intros Hs. destruct (suffix_ipynb p Hs) as (stem & Hstem & Hname & Hp).
  unfold Py.with_suffix, backup_of. rewrite Hs, Hname.
  rewrite PyFacts.length_append.
  destruct ((String.length stem + String.length ".ipynb" =? 0)%nat) eqn:E.
  { apply Nat.eqb_eq in E. simpl in E. lia. }
  change (String.length ".ipynb" =? 0)%nat with false. cbv iota.
  replace (String.length stem + String.length ".ipynb"
           - String.length ".ipynb")%nat
    with (String.length stem) by lia.
  rewrite substring_prefix. f_equal. rewrite Hp at 2.
  by rewrite !PyFacts.append_assoc.
Qed.

(** A file named [.ipynb] has no suffix for pathlib: its backup goes where
    the backup of [.ipynb.ipynb] goes. *)
Example with_suffix_hidden_name :
  Py.suffix ".ipynb" = EmptyString
  /\ Py.with_suffix ".ipynb" ".ipynb.bak" = Some ".ipynb.ipynb.bak"
  /\ Py.with_suffix ".ipynb.ipynb" ".ipynb.bak" = Some ".ipynb.ipynb.bak"
  /\ Py.with_suffix "notebooks/a.b.ipynb" ".ipynb.bak"
     = Some "notebooks/a.b.ipynb.bak".
Proof. repeat split; reflexivity. Qed.

Lemma backup_is_no_notebook (p q : string) :
  ends_with_ipynb q -> q <> backup_of p.
Proof.
  intros [stem ->] Heq. unfold backup_of in Heq.
  apply (f_equal (fun s => rev (list_ascii_of_string s))) in Heq.
  rewrite !PyFacts.chars_append, !rev_app_distr in Heq.
  discriminate Heq.
Qed.

Lemma backup_of_inj (p q : string) : backup_of p = backup_of q -> p = q.
Proof.
  unfold backup_of. intros Heq.
  apply (f_equal list_ascii_of_string) in Heq.
  rewrite !PyFacts.chars_append in Heq. apply app_inv_tail in Heq.
  rewrite <- (string_of_list_ascii_of_string p),
    <- (string_of_list_ascii_of_string q). by rewrite Heq.
Qed.

Section WithData.
Context `{N : NotebookData}.

Lemma has_issue_lookup (fs : Files) (p : string) :
  has_issue fs p = from_option issue_of false (fs !! p).
Proof.
  unfold has_issue, check_notebook_widgets, issue_of.
  destruct (fs !! p) as [nb |]; [| done]. cbn [from_option].
  destruct (metadata_widgets nb) as [widgets |]; cbn [default id].
  - destruct (size widgets =? 0)%nat eqn:E; [done |]. cbn [fst negb andb].
    apply Nat.eqb_neq in E.
    destruct (0 <? size widgets)%nat eqn:E'; [by rewrite andb_true_r |].
    apply Nat.ltb_ge in E'. lia.
  - by rewrite map_size_empty.
Qed.

Lemma repaired_issue (args : Args) (nb nb' : Notebook) :
  repaired args nb = Some nb' ->
  issue_of nb = true /\ nbformat_reads nb = true /\ issue_of nb' = false.
Proof.
  unfold repaired. destruct (issue_of nb) eqn:Hi; [| done].
  destruct (nbformat_reads nb); [| done]. cbn [andb].
  unfold issue_of in Hi |- *.
  destruct (metadata_widgets nb) as [widgets |]; [| done].
  destruct (mode args).
  - intros [= <-]. done.
  - cbn [mbind option_bind].
    destruct (widgets !! alt_key) as [data |]; [| done].
    intros [= <-]. split; [done |]. split; [done |]. cbn.
    unfold contains. rewrite lookup_insert_eq. by rewrite andb_false_r.
Qed.

Lemma repaired_no_issue (args : Args) (nb : Notebook) :
  issue_of nb = false -> repaired args nb = None.
Proof. intros Hi. unfold repaired. by rewrite Hi. Qed.

Lemma repaired_final (args : Args) (nb : Notebook) :
  repaired args (final_notebook args nb) = None.
Proof.
  unfold final_notebook. destruct (repaired args nb) as [nb' |] eqn:E; [| done].
  apply repaired_issue in E as (_ & _ & E). by apply repaired_no_issue.
Qed.

Lemma final_notebook_no_issue (args : Args) (nb : Notebook) :
  issue_of nb = false -> final_notebook args nb = nb.
Proof.
  intros Hi. unfold final_notebook. by rewrite repaired_no_issue.
Qed.

(** One iteration of the loop in a run that writes, on a notebook with
    suffix [.ipynb]. *)
Lemma process_writing (args : Args) (st : Report) (p : string) :
  dry_run args = false ->
  Py.suffix p = ".ipynb" ->
  process args st p
  = match files st !! p with
    | None => st
    | Some nb =>
        if issue_of nb then
          match repaired args nb with
          | Some nb' =>
              {| files :=
                   <[p := nb']>
                     (if backup args then <[backup_of p := nb]> (files st)
                      else files st);
                 notebooks_with_issues := notebooks_with_issues st ++ [p];
                 notebooks_fixed := notebooks_fixed st ++ [p] |}
          | None =>
              {| files := files st;
                 notebooks_with_issues := notebooks_with_issues st ++ [p];
                 notebooks_fixed := notebooks_fixed st |}
          end
        else st
    end.
Proof.
  intros Hdry Hp. unfold process.
  pose proof (has_issue_lookup (files st) p) as Hissue.
  unfold has_issue in Hissue.
  destruct (check_notebook_widgets (files st) p) as [has widgets].
  cbn [fst] in Hissue. subst has.
  unfold fix_notebook_remove_widgets, fix_notebook_add_state, copy_backup.
  rewrite Hdry, (with_suffix_ipynb p Hp). cbn [negb mbind option_bind].
  destruct (files st !! p) as [nb |]; [| done]. cbn [from_option].
  destruct (issue_of nb) eqn:Hi; [| done]. cbn [negb].
  unfold repaired. rewrite Hi. cbn [andb]. unfold issue_of in Hi.
  destruct (nbformat_reads nb); cbn [negb]; [| by destruct (mode args)].
  destruct (metadata_widgets nb) as [w |]; [| done].
  apply andb_true_iff in Hi as [Hsize Hstate].
  apply negb_true_iff in Hsize, Hstate. rewrite ?Hstate.
  destruct (mode args); [by destruct (backup args) |].
  cbn [mbind option_bind].
  destruct (w !! alt_key) as [data |]; [| done].
  by destruct (backup args).
Qed.




Lemma process_writing_cases (args : Args) (st : Report) (p : string) :
  dry_run args = false ->
  Py.suffix p = ".ipynb" ->
  (exists nb nb',
      files st !! p = Some nb /\ repaired args nb = Some nb'
      /\ files (process args st p)
         = <[p := nb']>
             (if backup args then <[backup_of p := nb]> (files st)
              else files st)
      /\ notebooks_fixed (process args st p) = notebooks_fixed st ++ [p])
  \/ (files st !! p ≫= repaired args = None
      /\ files (process args st p) = files st
      /\ notebooks_fixed (process args st p) = notebooks_fixed st).
Proof.
  intros Hdry Hp. rewrite process_writing by done.
  destruct (files st !! p) as [nb |]; [| by right].
  destruct (issue_of nb) eqn:Hi.
  - destruct (repaired args nb) as [nb' |] eqn:Hr.
    + left. by exists nb, nb'.
    + right. by cbn.
  - right. cbn. by rewrite repaired_no_issue.
Qed.

Lemma loop_invariant_step (args : Args) (fs : Files) (done : list string)
    (st : Report) (p : string) :
  dry_run args = false ->
  Py.suffix p = ".ipynb" ->
  loop_invariant args fs done st ->
  loop_invariant args fs (done ++ [p]) (process args st p).
Proof.
  intros Hdry Hsuf (Hdone & Hrest & Hbak & Hfixed & Hsufs).
  pose proof (suffix_ends_with_ipynb p Hsuf) as Hp.
  assert (Forall ends_with_ipynb done) as Hends.
  { eapply Forall_impl; [exact Hsufs |]. apply suffix_ends_with_ipynb. }
  assert (Forall (fun p => Py.suffix p = ".ipynb") (done ++ [p])) as Hsufs'.
  { apply Forall_app. split; [done |]. by apply Forall_singleton. }
  assert (files st !! p ≫= repaired args = None ->
          files st !! p = final_notebook args <$> fs !! p) as Hsame.
  { intros Hnone. destruct (decide (p ∈ done)) as [Hin | Hout].
    - by apply Hdone.
    - assert (files st !! p = fs !! p) as Hcur.
      { apply Hrest; [done |]. intros _ p' _. by apply backup_is_no_notebook. }
      rewrite Hcur in Hnone |- *.
      destruct (fs !! p) as [nb |]; [| done]. cbn in Hnone |- *.
      unfold final_notebook. by rewrite Hnone. }
  destruct (process_writing_cases args st p Hdry Hsuf)
    as [(nb & nb' & Hcur & Hrep & Hfiles & Hfx) | (Hnone & Hfiles & Hfx)];
    unfold loop_invariant; rewrite Hfiles, Hfx; clear Hfiles Hfx.
  - assert (p ∉ done) as Hout.
    { intros Hin. rewrite (Hdone p Hin) in Hcur.
      destruct (fs !! p) as [nb0 |]; [| done]. injection Hcur as <-.
      by rewrite repaired_final in Hrep. }
    assert (fs !! p = Some nb) as Hfs.
    { rewrite <- Hcur. symmetry. apply Hrest; [done |].
      intros _ p' _. by apply backup_is_no_notebook. }
    split; [| split; [| split; [| split; [| done]]]].
    + intros q [Hq | ->%list_elem_of_singleton]%elem_of_app.
      * rewrite lookup_insert_ne by (intros <-; done).
        rewrite <- (Hdone q Hq). destruct (backup args); [| done].
        apply lookup_insert_ne. intros <-.
        eapply (backup_is_no_notebook p); [| done].
        rewrite Forall_forall in Hends. by apply Hends.
      * rewrite lookup_insert_eq, Hfs. cbn. unfold final_notebook.
        by rewrite Hrep.
    + intros q Hq Hnb.
      assert (q <> p) as Hqp.
      { intros ->. apply Hq, elem_of_app. right. apply list_elem_of_here. }
      assert (q ∉ done) as Hqd.
      { intros Hin. apply Hq, elem_of_app. by left. }
      rewrite lookup_insert_ne by done.
      destruct (backup args) eqn:Hb.
      * rewrite lookup_insert_ne.
        -- apply Hrest; [done |]. intros _ p' Hp'. apply Hnb; [done |].
           apply elem_of_app. by left.
        -- intros <-. eapply Hnb; [done | | done].
           apply elem_of_app. right. apply list_elem_of_here.
      * apply Hrest; [done |]. intros [=].
    + intros Hb p' [Hp' | ->%list_elem_of_singleton]%elem_of_app.
      * rewrite Hb.
        rewrite lookup_insert_ne by (by apply backup_is_no_notebook).
        rewrite lookup_insert_ne; [by apply Hbak |].
        intros ->%backup_of_inj. by apply Hout, Hfixed.
      * rewrite Hb.
        rewrite lookup_insert_ne by (by apply backup_is_no_notebook).
        by rewrite lookup_insert_eq.
    + intros p' [Hp' | ->%list_elem_of_singleton]%elem_of_app.
      * destruct (Hfixed p' Hp') as [? ?]. split; [| done].
        apply elem_of_app. by left.
      * split; [apply elem_of_app; right; apply list_elem_of_here |].
        rewrite Hfs. cbn. by rewrite Hrep.
  - split; [| split; [| split; [| split; [| done]]]].
    + intros q [Hq | ->%list_elem_of_singleton]%elem_of_app;
        [by apply Hdone | by apply Hsame].
    + intros q Hq Hnb. apply Hrest.
      * intros Hin. apply Hq, elem_of_app. by left.
      * intros Hb p' Hp'. apply Hnb; [done |]. apply elem_of_app. by left.
    + done.
    + intros p' Hp'. destruct (Hfixed p' Hp') as [? ?]. split; [| done].
      apply elem_of_app. by left.
Qed.

Lemma loop_invariant_run (args : Args) (fs : Files) (notebooks : list string) :
  dry_run args = false ->
  Forall (fun p => Py.suffix p = ".ipynb") notebooks ->
  forall done st,
    loop_invariant args fs done st ->
    loop_invariant args fs (done ++ notebooks)
      (foldl (process args) st notebooks).
Proof.
  intros Hdry Hends. induction Hends as [| p l Hp _ IH]; intros done st Hinv.
  - by rewrite app_nil_r.
  - cbn [foldl]. rewrite (assoc_L _ done [p] l : done ++ p :: l = (done ++ [p]) ++ l).
    apply IH. by apply loop_invariant_step.
Qed.

Lemma scanned_notebooks_invariant (args : Args) (fs : Files)
    (notebooks : list string) :
  dry_run args = false ->
  Forall (fun p => Py.suffix p = ".ipynb") notebooks ->
  loop_invariant args fs notebooks (main args notebooks fs).2.
Proof.
  intros Hdry Hends.
  assert (loop_invariant args fs []
            {| files := fs; notebooks_with_issues := [];
               notebooks_fixed := [] |}) as Hinit.
  { split; [| split; [| split; [| split]]].
    - intros q Hq. by apply elem_of_nil in Hq.
    - done.
    - intros _ p Hp. by apply elem_of_nil in Hp.
    - intros p Hp. by apply elem_of_nil in Hp.
    - constructor. }
  pose proof (loop_invariant_run args fs notebooks Hdry Hends [] _ Hinit) as Hrun.
  unfold main. destruct notebooks as [| p l]; [done |].
  cbn [app] in Hrun. by destruct (_ && _).
Qed.

(** In [remove] mode a run that writes, over notebooks whose suffix is
    [.ipynb], clears the issue of every scanned notebook that [nbformat]
    reads: such a notebook has lost its widget metadata.  A scanned
    notebook with an issue that [nbformat] rejects is left as it was, issue
    included, and a scanned notebook without issue is as it was. *)
Theorem remove_mode_clears_readable_issues (args : Args)
    (notebooks : list string) (fs : Files) :
  mode args = remove ->
  dry_run args = false ->
  Forall (fun p => Py.suffix p = ".ipynb") notebooks ->
  forall p, p ∈ notebooks ->
    (has_issue fs p = false ->
     files (main args notebooks fs).2 !! p = fs !! p
     /\ has_issue (files (main args notebooks fs).2) p = false)
    /\ (forall nb, fs !! p = Some nb -> has_issue fs p = true ->
        if nbformat_reads nb
        then files (main args notebooks fs).2 !! p = Some (without_widgets nb)
             /\ has_issue (files (main args notebooks fs).2) p = false
        else files (main args notebooks fs).2 !! p = Some nb
             /\ has_issue (files (main args notebooks fs).2) p = true).
Proof.
  intros Hmode Hdry Hends p Hp.
  destruct (scanned_notebooks_invariant args fs notebooks Hdry Hends)
    as (Hdone & _).
  rewrite !has_issue_lookup, (Hdone p Hp). split.
  - intros Hissue. destruct (fs !! p) as [nb |]; [| done].
    cbn [fmap option_fmap option_map from_option] in *.
    by rewrite final_notebook_no_issue.
  - intros nb Hnb Hissue. rewrite Hnb in *.
    cbn [fmap option_fmap option_map from_option] in *.
    unfold final_notebook, repaired. rewrite Hissue, Hmode. cbn [andb].
    by destruct (nbformat_reads nb).
Qed.

(** In [add_state] mode a run that writes, over notebooks whose suffix is
    [.ipynb], repairs a notebook with an issue only when [nbformat] reads
    it and its widget metadata holds the widget state under the alternative
    key: the state is then copied under [state], the other keys are kept
    and the issue is gone; otherwise the notebook is left as it was, issue
    included. *)
Theorem add_state_mode_needs_widget_data (args : Args)
    (notebooks : list string) (fs : Files) (p : string) (nb : Notebook) :
  mode args = add_state ->
  dry_run args = false ->
  Forall (fun p => Py.suffix p = ".ipynb") notebooks ->
  p ∈ notebooks ->
  fs !! p = Some nb ->
  has_issue fs p = true ->
  exists widgets,
    metadata_widgets nb = Some widgets
    /\ widgets !! "state" = None
    /\ match widgets !! alt_key with
       | Some data =>
           if nbformat_reads nb
           then files (main args notebooks fs).2 !! p
                = Some (with_state nb widgets data)
                /\ has_issue (files (main args notebooks fs).2) p = false
           else files (main args notebooks fs).2 !! p = Some nb
                /\ has_issue (files (main args notebooks fs).2) p = true
       | None =>
           files (main args notebooks fs).2 !! p = Some nb
           /\ has_issue (files (main args notebooks fs).2) p = true
       end.
Proof.
  intros Hmode Hdry Hends Hp Hnb Hissue.
  destruct (scanned_notebooks_invariant args fs notebooks Hdry Hends)
    as (Hdone & _).
  rewrite !has_issue_lookup, (Hdone p Hp). rewrite has_issue_lookup in Hissue.
  rewrite Hnb in Hissue |- *. cbn [fmap option_fmap option_map from_option] in *.
  pose proof Hissue as Hi. unfold issue_of in Hi.
  destruct (metadata_widgets nb) as [w |] eqn:Hw; [| done].
  apply andb_true_iff in Hi as [Hsize Hstate].
  apply negb_true_iff in Hsize, Hstate.
  exists w. split; [done |]. split.
  { unfold contains in Hstate. by destruct (w !! "state"). }
  unfold final_notebook, repaired. rewrite Hissue, Hmode, Hw.
  cbn [andb mbind option_bind].
  destruct (w !! alt_key) as [data |]; destruct (nbformat_reads nb);
    cbn [fmap option_fmap option_map default]; try done.
  split; [done |]. unfold issue_of, with_state, contains. cbn.
  by rewrite lookup_insert_eq, andb_false_r.
Qed.

(** A run that writes, over notebooks whose suffix is [.ipynb] (a file
    named [.ipynb] has none), touches nothing but the notebooks it repairs
    and their backups: a file that ends in [.ipynb] and has no issue is as
    it was, a file that is neither a scanned notebook nor the backup path
    of one is as it was; a notebook is reported as fixed only if it was
    scanned, had an issue and is read by [nbformat]; and with [--backup]
    the backup of a notebook [p] goes to [p] followed by [.bak], where
    that of every notebook reported as fixed holds the notebook as it was
    before the run. *)
Theorem writing_run_touches_only_issues (args : Args)
    (notebooks : list string) (fs : Files) :
  dry_run args = false ->
  Forall (fun p => Py.suffix p = ".ipynb") notebooks ->
  (forall q, ends_with_ipynb q -> has_issue fs q = false ->
     files (main args notebooks fs).2 !! q = fs !! q)
  /\ (forall q, q ∉ notebooks ->
        (backup args = true ->
         forall p, p ∈ notebooks -> q <> p +:+ ".bak") ->
        files (main args notebooks fs).2 !! q = fs !! q)
  /\ (forall p, p ∈ notebooks ->
        Py.with_suffix p ".ipynb.bak" = Some (p +:+ ".bak"))
  /\ (forall p, p ∈ notebooks_fixed (main args notebooks fs).2 ->
        p ∈ notebooks /\ has_issue fs p = true
        /\ (exists nb, fs !! p = Some nb /\ nbformat_reads nb = true)
        /\ (backup args = true ->
            files (main args notebooks fs).2 !! (p +:+ ".bak") = fs !! p)).
Proof.
  intros Hdry Hends.
  destruct (scanned_notebooks_invariant args fs notebooks Hdry Hends)
    as (Hdone & Hrest & Hbak & Hfixed & _).
  split; [| split; [| split]].
  - intros q Hq Hissue. destruct (decide (q ∈ notebooks)) as [Hin | Hout].
    + rewrite (Hdone q Hin). rewrite has_issue_lookup in Hissue.
      destruct (fs !! q) as [nb |]; [| done]. cbn in Hissue |- *.
      by rewrite final_notebook_no_issue.
    + apply Hrest; [done |]. intros _ p _. by apply backup_is_no_notebook.
  - exact Hrest.
  - intros p Hp. apply with_suffix_ipynb.
    rewrite Forall_forall in Hends. by apply Hends.
  - intros p Hp. destruct (Hfixed p Hp) as [Hin [nb' Hrep]].
    split; [done |]. rewrite has_issue_lookup.
    destruct (fs !! p) as [nb |] eqn:Hfs; [| done]. cbn in Hrep |- *.
    apply repaired_issue in Hrep as (Hi & Hr & _).
    split; [done |]. split; [by exists nb |].
    intros Hb. rewrite <- Hfs. by apply Hbak.
Qed.

End WithData.

Lemma notebook_paths_have_suffix :
  Forall (fun p => Py.suffix p = ".ipynb") NotebookFixtures.notebook_paths.
Proof. repeat (apply List.Forall_cons; [reflexivity |]). apply List.Forall_nil. Qed.


(** On the fixture, the issue of [b.ipynb] is cleared and the issue of
    [bad.ipynb], which [nbformat] rejects, stays. *)
Lemma remove_mode_clears_readable_issues_witness :
  has_issue
    (files (@main NotebookFixtures.text_notebooks
              (NotebookFixtures.notebook_args remove false)
              NotebookFixtures.notebook_paths
              NotebookFixtures.notebook_files).2)
    "b.ipynb" = false
  /\ has_issue
       (files (@main NotebookFixtures.text_notebooks
                 (NotebookFixtures.notebook_args remove false)
                 NotebookFixtures.notebook_paths
                 NotebookFixtures.notebook_files).2)
       "bad.ipynb" = true.
Proof.
  split.
  - destruct (@remove_mode_clears_readable_issues
                NotebookFixtures.text_notebooks
                (NotebookFixtures.notebook_args remove false)
                NotebookFixtures.notebook_paths NotebookFixtures.notebook_files
                eq_refl eq_refl notebook_paths_have_suffix "b.ipynb")
      as [_ Hfix]; [apply list_elem_of_further, list_elem_of_here |].
    apply (Hfix (NotebookFixtures.notebook (Some {[ "version" := "1" ]})
                   ["print(2)"] true)); vm_compute; reflexivity.
  - destruct (@remove_mode_clears_readable_issues
                NotebookFixtures.text_notebooks
                (NotebookFixtures.notebook_args remove false)
                NotebookFixtures.notebook_paths NotebookFixtures.notebook_files
                eq_refl eq_refl notebook_paths_have_suffix "bad.ipynb")
      as [_ Hfix]; [do 3 apply list_elem_of_further; apply list_elem_of_here |].
    apply (Hfix (NotebookFixtures.notebook (Some {[ alt_key := "{}" ]})
                   [] false)); vm_compute; reflexivity.
Defined.

Lemma add_state_mode_needs_widget_data_witness :
  exists widgets,
    metadata_widgets
      (NotebookFixtures.notebook (Some {[ alt_key := "{}" ]}) ["print(1)"] true)
    = Some widgets
    /\ files (@main NotebookFixtures.text_notebooks
               (NotebookFixtures.notebook_args add_state false)
               NotebookFixtures.notebook_paths
               NotebookFixtures.notebook_files).2 !! "a.ipynb"
       = Some (with_state
                 (NotebookFixtures.notebook (Some {[ alt_key := "{}" ]})
                    ["print(1)"] true)
                 widgets "{}").
Proof.
  destruct (@add_state_mode_needs_widget_data NotebookFixtures.text_notebooks
              (NotebookFixtures.notebook_args add_state false)
              NotebookFixtures.notebook_paths NotebookFixtures.notebook_files
              "a.ipynb"
              (NotebookFixtures.notebook (Some {[ alt_key := "{}" ]})
                 ["print(1)"] true)
              eq_refl eq_refl notebook_paths_have_suffix)
    as (widgets & Hw & _ & Hcase).
  - apply list_elem_of_here.
  - vm_compute. reflexivity.
  - vm_compute. reflexivity.
  - exists widgets. split; [exact Hw |].
    injection Hw as <-.
    change (({[ alt_key := "{}" ]} : gmap string string) !! alt_key)
      with (Some "{}") in Hcase.
    exact (proj1 Hcase).
Defined.

Lemma writing_run_touches_only_issues_witness :
  files (@main NotebookFixtures.text_notebooks
           (NotebookFixtures.notebook_args remove false)
           NotebookFixtures.notebook_paths
           NotebookFixtures.notebook_files).2 !! "c.ipynb"
  = NotebookFixtures.notebook_files !! "c.ipynb".
Proof.
  destruct (@writing_run_touches_only_issues NotebookFixtures.text_notebooks
              (NotebookFixtures.notebook_args remove false)
              NotebookFixtures.notebook_paths NotebookFixtures.notebook_files
              eq_refl notebook_paths_have_suffix)
    as (Hclean & _ & _).
  apply Hclean; [by exists "c" |]. vm_compute. reflexivity.
Defined.

End NotebookFacts.
